(** * BeTransparent: the diagram view lifecycle and the prompt page

    A shallow embedding of
      - [src/components/MermaidDiagram.tsx] (the [useEffect] render lifecycle),
      - [src/app/v1/page.tsx] (module configuration, [submitPrompt], the
        derived selections [activeFlow], [screensForFlow], [activeScreen]),
    together with the few platform built-ins they call
    ([String.prototype.trim], [btoa], [JSON.stringify] on a string, template
    interpolation of a number). *)

From Stdlib Require Import NArith Ascii String Decimal DecimalString.
From stdpp Require Import base option list numbers.
From stdpp Require gmap.

(** ** JavaScript strings

    A JS string is a sequence of UTF-16 code units. *)
Module JS.
Local Open Scope N_scope.

Abbreviation jsstring := (list N).

(** A source literal, character by character. *)
Definition lit (s : string) : jsstring :=
  N_of_ascii <$> list_ascii_of_string s.

(** The double quote, which the literals below splice in. *)
Definition dquote : jsstring := [34].

(** [a === b] on two strings. *)
Definition streq (a b : jsstring) : bool := bool_decide (a = b).

(** [a === b] where [a] may be [null]. *)
Definition nstreq (a : option jsstring) (b : jsstring) : bool :=
  match a with
  | Some s => streq s b
  | None => false
  end.

(** Truthiness of a string, and of a value that may be [undefined]/[null]. *)
Definition truthy (s : jsstring) : bool :=
  match s with
  | [] => false
  | _ :: _ => true
  end.

Definition otruthy (o : option jsstring) : bool :=
  match o with
  | Some s => truthy s
  | None => false
  end.

(** [a || b] on possibly-undefined strings. *)
Definition or_else (a b : option jsstring) : option jsstring :=
  if otruthy a then a else b.

(** [a || ''] and [a || null]. *)
Definition or_empty (a : option jsstring) : jsstring :=
  match a with
  | Some (c :: s) => c :: s
  | _ => []
  end.

Definition or_null (a : option jsstring) : option jsstring :=
  if otruthy a then a else None.

(** ECMAScript WhiteSpace and LineTerminator code units, the characters
    [trim] strips. *)
Definition is_ws (c : N) : bool :=
  (c =? 9) || (c =? 10) || (c =? 11) || (c =? 12) || (c =? 13) || (c =? 32)
  || (c =? 160) || (c =? 5760) || ((8192 <=? c) && (c <=? 8202))
  || (c =? 8232) || (c =? 8233) || (c =? 8239) || (c =? 8287)
  || (c =? 12288) || (c =? 65279).

Fixpoint trimStart (s : jsstring) : jsstring :=
  match s with
  | [] => []
  | c :: s' => if is_ws c then trimStart s' else s
  end.

Definition trimEnd (s : jsstring) : jsstring := reverse (trimStart (reverse s)).

Definition trim (s : jsstring) : jsstring := trimEnd (trimStart s).

(** [`${n}`] for a non-negative integer. *)
Definition of_number (n : N) : jsstring :=
  lit (NilZero.string_of_uint (N.to_uint n)).

(** *** [btoa] *)

Definition base64_alphabet : jsstring :=
  lit "ABCDEFGHIJKLMNOPQRSTUVWXYZabcdefghijklmnopqrstuvwxyz0123456789+/".

Definition sextet (i : N) : N := nth (N.to_nat i) base64_alphabet 0.

Definition pad : N := 61.

(** Three octets at a time, the last group padded with [=]. *)
Fixpoint base64 (bytes : jsstring) : jsstring :=
  match bytes with
  | [] => []
  | [a] =>
      [sextet (N.shiftr a 2); sextet (N.shiftl (N.land a 3) 4); pad; pad]
  | [a; b] =>
      [sextet (N.shiftr a 2);
       sextet (N.lor (N.shiftl (N.land a 3) 4) (N.shiftr b 4));
       sextet (N.shiftl (N.land b 15) 2); pad]
  | a :: b :: c :: rest =>
      sextet (N.shiftr a 2)
      :: sextet (N.lor (N.shiftl (N.land a 3) 4) (N.shiftr b 4))
      :: sextet (N.lor (N.shiftl (N.land b 15) 2) (N.shiftr c 6))
      :: sextet (N.land c 63)
      :: base64 rest
  end.

(** [btoa] throws [InvalidCharacterError] (here [None]) when a code unit is
    above 0xFF. *)
Definition btoa (s : jsstring) : option jsstring :=
  if forallb (fun c => c <=? 255) s then Some (base64 s) else None.

(** *** [JSON.stringify] of a string (QuoteJSONString) *)

Definition hex_digit (d : N) : N :=
  nth (N.to_nat d) (lit "0123456789abcdef") 0.

Definition unicode_escape (c : N) : jsstring :=
  lit "\u" ++ [hex_digit (N.shiftr c 12 mod 16); hex_digit (N.shiftr c 8 mod 16);
               hex_digit (N.shiftr c 4 mod 16); hex_digit (c mod 16)].

Definition is_high_surrogate (c : N) : bool := (55296 <=? c) && (c <=? 56319).
Definition is_low_surrogate (c : N) : bool := (56320 <=? c) && (c <=? 57343).

Definition quote_unit (c : N) : jsstring :=
  if c =? 8 then lit "\b"
  else if c =? 9 then lit "\t"
  else if c =? 10 then lit "\n"
  else if c =? 12 then lit "\f"
  else if c =? 13 then lit "\r"
  else if c =? 34 then lit "\" ++ dquote
  else if c =? 92 then lit "\\"
  else if c <? 32 then unicode_escape c
  else [c].

(** Well-formed surrogate pairs pass through; lone surrogates are escaped. *)
Fixpoint quote_units (s : jsstring) : jsstring :=
  match s with
  | [] => []
  | c :: s' =>
      if is_high_surrogate c then
        match s' with
        | d :: s'' =>
            if is_low_surrogate d then c :: d :: quote_units s''
            else unicode_escape c ++ quote_units s'
        | [] => unicode_escape c
        end
      else if is_low_surrogate c then unicode_escape c ++ quote_units s'
      else quote_unit c ++ quote_units s'
  end.

Definition quoteJSONString (s : jsstring) : jsstring :=
  dquote ++ quote_units s ++ dquote.

(** What an [await] observes: the awaited promise resolves to a value or
    rejects with an error (of which the model keeps the [message]). *)
Inductive Awaited (A : Type) : Type :=
  | Resolves (a : A)
  | Rejects (message : jsstring).
Arguments Resolves {A} a.
Arguments Rejects {A} message.

(** How the promise of an [async] function settles. *)
Inductive Settlement : Type :=
  | Fulfilled
  | Rejected (error : jsstring).

End JS.

(** ** The diagram view ([MermaidDiagram.tsx])

    The component owns one container element and, on every run of its
    effect, starts one [renderDiagram()] whose two [await]s (the dynamic
    import, then [mermaid.render]) are resumed later by the event loop.
    Each run of the effect has its own [cancelled] variable, which its
    cleanup sets. *)
Module Diagram.
Import JS.

(** The argument of [mermaid.initialize]. *)
Record MermaidConfig : Type := {
  startOnLoad : bool;
  securityLevel : jsstring;
  theme : jsstring;
  flowchart_useMaxWidth : bool;
  themeVariables_fontSize : jsstring
}.

Definition config : MermaidConfig := {|
  startOnLoad := false;
  securityLevel := lit "loose";
  theme := lit "default";
  flowchart_useMaxWidth := false;
  themeVariables_fontSize := lit "16px"
|}.

(** Calls into the rendering engine. *)
Inductive EngineCall : Type :=
  | Initialize (cfg : MermaidConfig)
  | Render (id text : jsstring).

Inductive ConsoleEntry : Type :=
  | ConsoleLog (label : jsstring) (n : nat)
  | ConsoleError (label : jsstring) (err : jsstring).

(** Writes to the container element and to the [svg] element inside it. *)
Inductive DomOp : Type :=
  | SetInnerHTML (html : jsstring)
  | SvgRemoveAttribute (name : jsstring)
  | SvgSetStyle (property value : jsstring)
  | BindFunctions.

(** [bindFunctions] of a render result: absent, or a function that returns
    or throws when called on the container. *)
Inductive Binder : Type :=
  | NoBinder
  | Binds (throws : option jsstring).

(** What [mermaid.render] resolves to. *)
Record RenderResult : Type := {
  svg : jsstring;
  bindFunctions : Binder
}.

(** Where one [renderDiagram()] stands. *)
Inductive Stage : Type :=
  | AwaitImport
  | AwaitRender
  | Returned (s : Settlement).

(** One run of the effect: the [code] its closure captured, its
    [cancelled] variable, and the progress of its [renderDiagram()]. *)
Record Invocation : Type := {
  inv_code : jsstring;
  cancelled : bool;
  stage : Stage
}.

(** The container element: whether [containerRef.current] points to it,
    the markup last assigned to it and every write it received, newest
    first. *)
Record Container : Type := {
  attached : bool;
  innerHTML : jsstring;
  mutations : list DomOp
}.

Inductive Phase : Type :=
  | Fresh
  | Mounted
  | Removed.

Record View : Type := {
  phase : Phase;
  code : jsstring;
  idRef : jsstring;
  container : Container;
  effects : list Invocation;
  engine : list EngineCall;
  console : list ConsoleEntry
}.

Definition initial (id : jsstring) : View := {|
  phase := Fresh;
  code := [];
  idRef := id;
  container := {| attached := false; innerHTML := []; mutations := [] |};
  effects := [];
  engine := [];
  console := []
|}.

(** *** Field updates *)

Definition with_phase (p : Phase) (v : View) : View :=
  {| phase := p; code := code v; idRef := idRef v; container := container v;
     effects := effects v; engine := engine v; console := console v |}.

Definition with_code (c : jsstring) (v : View) : View :=
  {| phase := phase v; code := c; idRef := idRef v; container := container v;
     effects := effects v; engine := engine v; console := console v |}.

Definition with_container (c : Container) (v : View) : View :=
  {| phase := phase v; code := code v; idRef := idRef v; container := c;
     effects := effects v; engine := engine v; console := console v |}.

Definition with_effects (l : list Invocation) (v : View) : View :=
  {| phase := phase v; code := code v; idRef := idRef v;
     container := container v; effects := l; engine := engine v;
     console := console v |}.

Definition with_engine (l : list EngineCall) (v : View) : View :=
  {| phase := phase v; code := code v; idRef := idRef v;
     container := container v; effects := effects v; engine := l;
     console := console v |}.

Definition with_console (l : list ConsoleEntry) (v : View) : View :=
  {| phase := phase v; code := code v; idRef := idRef v;
     container := container v; effects := effects v; engine := engine v;
     console := l |}.

Definition set_attached (b : bool) (v : View) : View :=
  with_container {| attached := b; innerHTML := innerHTML (container v);
                    mutations := mutations (container v) |} v.

(** [containerRef.current.innerHTML = html] *)
Definition assign_innerHTML (html : jsstring) (v : View) : View :=
  with_container {| attached := attached (container v); innerHTML := html;
                    mutations := SetInnerHTML html :: mutations (container v) |} v.

Definition mutate (op : DomOp) (v : View) : View :=
  with_container {| attached := attached (container v);
                    innerHTML := innerHTML (container v);
                    mutations := op :: mutations (container v) |} v.

Definition set_cancelled (inv : Invocation) : Invocation :=
  {| inv_code := inv_code inv; cancelled := true; stage := stage inv |}.

Definition set_stage (s : Stage) (inv : Invocation) : Invocation :=
  {| inv_code := inv_code inv; cancelled := cancelled inv; stage := s |}.

Definition update_effect (k : nat) (f : Invocation -> Invocation) (v : View) : View :=
  with_effects (alter f k (effects v)) v.

(** The [cancelled] variable of run [k], as a later resumption reads it. *)
Definition is_cancelled (k : nat) (v : View) : bool :=
  match effects v !! k with
  | Some inv => cancelled inv
  | None => false
  end.

(** The run whose cleanup React holds: the latest one. *)
Definition current (v : View) : nat := pred (length (effects v)).

(** *** The component *)

Definition failure_notice : jsstring :=
  lit "<div style=" ++ dquote ++ lit "color:#fecaca;font-size:11px;" ++ dquote
  ++ lit ">Failed to render Mermaid diagram.</div>".

Section Browser.

(** Whether [querySelector('svg')] finds an element once [html] has been
    assigned to the container: the browser's HTML parser decides. *)
Variable querySelector_svg : jsstring -> bool.

(** [if (containerRef.current) containerRef.current.innerHTML = ''] *)
Definition clear_container (v : View) : View :=
  if attached (container v) then assign_innerHTML [] v else v.

(** [renderDiagram()] up to its first [await] (lines 17-26). The new run is
    appended to [effects]. *)
Definition renderDiagram (v : View) : View :=
  let run s := {| inv_code := code v; cancelled := false; stage := s |} in
  if negb (attached (container v)) then
    with_effects (effects v ++ [run (Returned Fulfilled)]) v
  else if negb (truthy (trim (code v))) then
    with_effects (effects v ++ [run (Returned Fulfilled)]) (assign_innerHTML [] v)
  else
    with_effects (effects v ++ [run AwaitImport]) v.

(** The effect callback (lines 14 and 74-77). *)
Definition effect (v : View) : View := renderDiagram (clear_container v).

(** The cleanup the effect returned (lines 79-84), for run [k]. *)
Definition cleanup (k : nat) (v : View) : View :=
  clear_container (update_effect k set_cancelled v).

(** The [catch] block (lines 65-71), reached from run [k]. *)
Definition on_catch (k : nat) (err : jsstring) (v : View) : View :=
  let v1 := with_console (ConsoleError (lit "[Mermaid] render error:") err :: console v) v in
  let v2 := if negb (is_cancelled k v1) && attached (container v1)
            then assign_innerHTML failure_notice v1 else v1 in
  update_effect k (set_stage (Returned Fulfilled)) v2.

(** Resumption after [await import('mermaid')] (lines 26-45): configure
    the engine, log, call [mermaid.render] and suspend on its promise. *)
Definition resume_import (k : nat) (inv : Invocation) (r : Awaited unit) (v : View) : View :=
  match r with
  | Rejects err => on_catch k err v
  | Resolves _ =>
      let trimmed := trim (inv_code inv) in
      let v1 := with_engine (Initialize config :: engine v) v in
      let v2 := with_console
                  (ConsoleLog (lit "[Mermaid] rendering diagram, length =") (length trimmed)
                   :: console v1) v1 in
      let v3 := with_engine (Render (idRef v2) trimmed :: engine v2) v2 in
      update_effect k (set_stage AwaitRender) v3
  end.

(** Lines 51-60. *)
Definition normalize_svg (html : jsstring) (v : View) : View :=
  if querySelector_svg html then
    mutate (SvgSetStyle (lit "width") (lit "100%"))
      (mutate (SvgSetStyle (lit "minHeight") (lit "220px"))
         (mutate (SvgRemoveAttribute (lit "height")) v))
  else v.

(** Resumption after [await mermaid.render(...)] (lines 42-64). *)
Definition resume_render (k : nat) (r : Awaited RenderResult) (v : View) : View :=
  match r with
  | Rejects err => on_catch k err v
  | Resolves out =>
      if is_cancelled k v || negb (attached (container v)) then
        update_effect k (set_stage (Returned Fulfilled)) v
      else
        let v1 := normalize_svg (svg out) (assign_innerHTML (svg out) v) in
        match bindFunctions out with
        | NoBinder => update_effect k (set_stage (Returned Fulfilled)) v1
        | Binds None =>
            update_effect k (set_stage (Returned Fulfilled)) (mutate BindFunctions v1)
        | Binds (Some err) => on_catch k err v1
        end
  end.

(** *** The event loop *)

(** A pending [await] of run [k] is resumed. *)
Inductive Completion : Type :=
  | ImportSettled (k : nat) (r : Awaited unit)
  | RenderSettled (k : nat) (r : Awaited RenderResult).

Definition target (c : Completion) : nat :=
  match c with
  | ImportSettled k _ => k
  | RenderSettled k _ => k
  end.

(** React commits ([Mount], [Update] with the new prop, [Unmount]) and
    promise resumptions. On unmount React detaches the ref and runs the
    cleanup; [refDetachedFirst] says in which order. *)
Inductive Event : Type :=
  | Mount (code : jsstring)
  | Update (code : jsstring)
  | Unmount (refDetachedFirst : bool)
  | Settle (c : Completion).

Definition resume (c : Completion) (v : View) : View :=
  match c with
  | ImportSettled k r =>
      match effects v !! k with
      | Some inv =>
          match stage inv with
          | AwaitImport => resume_import k inv r v
          | _ => v
          end
      | None => v
      end
  | RenderSettled k r =>
      match effects v !! k with
      | Some inv =>
          match stage inv with
          | AwaitRender => resume_render k r v
          | _ => v
          end
      | None => v
      end
  end.

Definition step (e : Event) (v : View) : View :=
  match e with
  | Mount c =>
      match phase v with
      | Fresh => effect (set_attached true (with_code c (with_phase Mounted v)))
      | _ => v
      end
  | Update c =>
      match phase v with
      | Mounted =>
          (* the dependency array [code] *)
          if streq c (code v) then v
          else effect (with_code c (cleanup (current v) v))
      | _ => v
      end
  | Unmount refDetachedFirst =>
      match phase v with
      | Mounted =>
          let v1 := if refDetachedFirst then set_attached false v else v in
          with_phase Removed (set_attached false (cleanup (current v1) v1))
      | _ => v
      end
  | Settle c => resume c v
  end.

Fixpoint run (es : list Event) (v : View) : View :=
  match es with
  | [] => v
  | e :: es' => run es' (step e v)
  end.

End Browser.

(** *** Invariants of the lifecycle *)

(** The run a commit starts: suspended on the import when the trimmed code
    is not empty, finished at once otherwise. *)
Definition started (c : jsstring) : Invocation :=
  {| inv_code := c; cancelled := false;
     stage := if truthy (trim c) then AwaitImport else Returned Fulfilled |}.

Definition all_cancelled (l : list Invocation) : Prop :=
  Forall (fun i => cancelled i = true) l.

(** A run suspended on one of its two [await]s. *)
Definition pending (i : Invocation) : bool :=
  match stage i with
  | Returned _ => false
  | _ => true
  end.

(** While mounted the container is attached, exactly the latest run is
    not cancelled, and as long as that run is pending the container is
    empty. Once removed, the container is detached and every run is
    cancelled. *)
Definition Inv (v : View) : Prop :=
  match phase v with
  | Fresh => effects v = []
  | Mounted =>
      attached (container v) = true /\
      exists old cur,
        effects v = old ++ [cur] /\ all_cancelled old /\
        cancelled cur = false /\ inv_code cur = code v /\
        (pending cur = true -> innerHTML (container v) = [])
  | Removed => attached (container v) = false /\ all_cancelled (effects v)
  end.

(** Every run other than [k] is cancelled. *)
Definition others_cancelled (k : nat) (v : View) : Prop :=
  forall j inv, j <> k -> effects v !! j = Some inv -> cancelled inv = true.

(** No [renderDiagram()] ended in a rejected promise. *)
Definition never_rejected (v : View) : Prop :=
  forall j i e, effects v !! j = Some i -> stage i <> Returned (Rejected e).

(** The views the event loop can produce from a fresh component. *)
Definition reachable (querySelector_svg : jsstring -> bool) (v : View) : Prop :=
  exists id es, v = run querySelector_svg es (initial id).

End Diagram.

(** ** The prompt page ([app/v1/page.tsx]) *)
Module Page.
Import JS.

(** *** Module configuration (lines 6-11) *)

Record Env : Type := {
  API_HOST : option jsstring;
  NEXT_PUBLIC_API_HOST : option jsstring;
  USERNAME : option jsstring;
  NEXT_PUBLIC_USERNAME : option jsstring;
  PASSWORD : option jsstring;
  NEXT_PUBLIC_PASSWORD : option jsstring
}.

Record Config : Type := {
  apiHost : jsstring;
  username : option jsstring;
  password : option jsstring;
  auth : jsstring
}.

(** Evaluation of the module's top-level constants. [None]: [btoa] threw
    and the module did not load. *)
Definition load (env : Env) : option Config :=
  let apiHost := or_empty (or_else (API_HOST env) (NEXT_PUBLIC_API_HOST env)) in
  let username := or_else (USERNAME env) (NEXT_PUBLIC_USERNAME env) in
  let password := or_else (PASSWORD env) (NEXT_PUBLIC_PASSWORD env) in
  let make a := {| apiHost := apiHost; username := username;
                   password := password; auth := a |} in
  if otruthy username && otruthy password then
    match btoa (or_empty username ++ lit ":" ++ or_empty password) with
    | Some b => Some (make (lit "Basic " ++ b))
    | None => None
    end
  else Some (make []).

(** *** The response types (lines 38-99)

    Of [Screen] and [YanaResult] the model keeps the fields the page's
    logic reads; sections, actions, evaluation, retrieval and debug
    payloads are only displayed. The flow's list of screen ids, [screens]
    in the source, is [flow_screens] here. *)

Record Screen : Type := {
  screen_id : jsstring;
  screen_type : jsstring;
  title : jsstring;
  functional_description : jsstring
}.

Record ScreenFlow : Type := {
  flow_slug : jsstring;
  name : jsstring;
  flow_screens : list jsstring
}.

Record YanaResult : Type := {
  screen_flows : list ScreenFlow;
  screens : list Screen;
  global_mermaid : jsstring
}.

(** *** The request and the response *)

Record Request : Type := {
  url : jsstring;
  method : jsstring;
  headers : list (jsstring * jsstring);
  body : jsstring
}.

Fixpoint header (name : jsstring) (hs : list (jsstring * jsstring)) : option jsstring :=
  match hs with
  | [] => None
  | (k, v) :: hs' => if streq k name then Some v else header name hs'
  end.

(** The JSON body of an error response, as line 221 reads it. *)
Record ErrBody : Type := { error : option jsstring }.

(** A response, with what [response.json()] gives, typed as the branch
    that awaits it types it: a [YanaResult] when [response.ok] (line 227),
    an object or [null] otherwise (line 213). *)
Inductive Response : Type :=
  | Ok (status : N) (json : Awaited YanaResult)
  | NotOk (status : N) (json : Awaited (option ErrBody)).

Inductive ResponseStatus : Type :=
  | not_sent
  | sent
  | received
  | error_status.

(** *** The page's state (lines 181-189) *)

Record Home : Type := {
  prompt : jsstring;
  yanaResult : option YanaResult;
  responseStatus : ResponseStatus;
  errorMessage : option jsstring;
  activeFlowSlug : option jsstring;
  activeScreenId : option jsstring
}.

Definition initial : Home := {|
  prompt := [];
  yanaResult := None;
  responseStatus := not_sent;
  errorMessage := None;
  activeFlowSlug := None;
  activeScreenId := None
|}.

Definition setPrompt (p : jsstring) (h : Home) : Home :=
  {| prompt := p; yanaResult := yanaResult h;
     responseStatus := responseStatus h; errorMessage := errorMessage h;
     activeFlowSlug := activeFlowSlug h; activeScreenId := activeScreenId h |}.

Definition setYanaResult (r : option YanaResult) (h : Home) : Home :=
  {| prompt := prompt h; yanaResult := r;
     responseStatus := responseStatus h; errorMessage := errorMessage h;
     activeFlowSlug := activeFlowSlug h; activeScreenId := activeScreenId h |}.

Definition setResponseStatus (s : ResponseStatus) (h : Home) : Home :=
  {| prompt := prompt h; yanaResult := yanaResult h;
     responseStatus := s; errorMessage := errorMessage h;
     activeFlowSlug := activeFlowSlug h; activeScreenId := activeScreenId h |}.

Definition setErrorMessage (m : option jsstring) (h : Home) : Home :=
  {| prompt := prompt h; yanaResult := yanaResult h;
     responseStatus := responseStatus h; errorMessage := m;
     activeFlowSlug := activeFlowSlug h; activeScreenId := activeScreenId h |}.

Definition setActiveFlowSlug (s : option jsstring) (h : Home) : Home :=
  {| prompt := prompt h; yanaResult := yanaResult h;
     responseStatus := responseStatus h; errorMessage := errorMessage h;
     activeFlowSlug := s; activeScreenId := activeScreenId h |}.

Definition setActiveScreenId (s : option jsstring) (h : Home) : Home :=
  {| prompt := prompt h; yanaResult := yanaResult h;
     responseStatus := responseStatus h; errorMessage := errorMessage h;
     activeFlowSlug := activeFlowSlug h; activeScreenId := s |}.

(** *** [submitPrompt] (lines 191-241) *)

(** [JSON.stringify({ query: prompt })] *)
Definition stringify_query (p : jsstring) : jsstring :=
  lit "{" ++ quoteJSONString (lit "query") ++ lit ":" ++ quoteJSONString p ++ lit "}".

(** The arguments of [fetch] (lines 201-210). *)
Definition request (cfg : Config) (p : jsstring) : Request := {|
  url := apiHost cfg ++ lit "/api/v1/search";
  method := lit "POST";
  headers :=
    (lit "Content-Type", lit "application/json")
    :: (if truthy (auth cfg) then [(lit "Authorization", auth cfg)] else []);
  body := stringify_query p
|}.

(** Up to [await fetch(...)]: the state set so far and the request issued,
    or [None] when the function returned before reaching [fetch].
    ([e.preventDefault()] touches the event only.) *)
Definition submit_start (cfg : Config) (h : Home) : Home * option Request :=
  if negb (truthy (trim (prompt h))) then (h, None)
  else (setErrorMessage None (setResponseStatus sent h),
        Some (request cfg (prompt h))).

(** The [catch] block (lines 236-240). *)
Definition submit_catch (message : jsstring) (h : Home) : Home :=
  setErrorMessage
    (Some (if truthy message then message else lit "Unknown error"))
    (setResponseStatus error_status h).

(** [(errBody && errBody.error) || `Request failed with ${status}`] *)
Definition failure_message (status : N) (errBody : option ErrBody) : jsstring :=
  match errBody with
  | Some {| error := Some (c :: s) |} => c :: s
  | _ => lit "Request failed with " ++ of_number status
  end.

(** From the resumption after [await fetch(...)] to the end (lines
    212-240), on the state as it is by then. *)
Definition submit_finish (r : Awaited Response) (h : Home) : Home * Settlement :=
  match r with
  | Rejects message => (submit_catch message h, Fulfilled)
  | Resolves (NotOk status json) =>
      let errBody := match json with
                     | Resolves b => b
                     | Rejects _ => None
                     end in
      (setErrorMessage (Some (failure_message status errBody))
         (setResponseStatus error_status h), Fulfilled)
  | Resolves (Ok _ (Rejects message)) => (submit_catch message h, Fulfilled)
  | Resolves (Ok _ (Resolves data)) =>
      let h1 := setResponseStatus received (setYanaResult (Some data) h) in
      match screen_flows data with
      | firstFlow :: _ =>
          (setActiveScreenId (or_null (head (flow_screens firstFlow)))
             (setActiveFlowSlug (Some (flow_slug firstFlow)) h1), Fulfilled)
      | [] => (h1, Fulfilled)
      end
  end.

(** One whole submission against a network [fetch]: the final state, the
    requests issued and how the promise of [submitPrompt] settles. *)
Definition submitPrompt (cfg : Config) (fetch : Request -> Awaited Response)
    (h : Home) : Home * list Request * Settlement :=
  match submit_start cfg h with
  | (h1, None) => (h1, [], Fulfilled)
  | (h1, Some req) =>
      let '(h2, s) := submit_finish (fetch req) h1 in (h2, [req], s)
  end.

(** *** Selections (lines 267-284 and the click handlers) *)

Definition flows (h : Home) : list ScreenFlow :=
  match yanaResult h with
  | Some r => screen_flows r
  | None => []
  end.

(** [screens] of line 268. *)
Definition all_screens (h : Home) : list Screen :=
  match yanaResult h with
  | Some r => screens r
  | None => []
  end.

Definition or_found {A} (a b : option A) : option A :=
  match a with
  | Some x => Some x
  | None => b
  end.

Definition activeFlow (h : Home) : option ScreenFlow :=
  or_found
    (List.find (fun f => nstreq (activeFlowSlug h) (flow_slug f)) (flows h))
    (head (flows h)).

(** [r.screens.find((s) => s.screen_id === id)] *)
Definition find_screen (r : YanaResult) (id : jsstring) : option Screen :=
  List.find (fun s => streq (screen_id s) id) (screens r).

Definition screensForFlow (h : Home) : list Screen :=
  match activeFlow h, yanaResult h with
  | Some f, Some r => omap (find_screen r) (flow_screens f)
  | _, _ => []
  end.

Definition activeScreen (h : Home) : option Screen :=
  or_found
    (List.find (fun s => nstreq (activeScreenId h) (screen_id s)) (screensForFlow h))
    (or_found
       (List.find (fun s => nstreq (activeScreenId h) (screen_id s)) (all_screens h))
       (head (screensForFlow h))).

(** The flow tab's [onClick] (lines 412-415). *)
Definition selectFlow (flow : ScreenFlow) (h : Home) : Home :=
  setActiveScreenId (or_null (head (flow_screens flow)))
    (setActiveFlowSlug (Some (flow_slug flow)) h).

(** The screen card's [onClick] (line 443). *)
Definition selectScreen (s : Screen) (h : Home) : Home :=
  setActiveScreenId (Some (screen_id s)) h.

(** *** The interface of §4.2, in the specification's words

    [submit(text)] fails with [EmptyInputError] on a blank submission, with
    [NetworkError] on a non-2xx response or a transport failure, and in
    every other case yields a result. *)

Definition EmptyInputError : jsstring := lit "EmptyInputError".
Definition NetworkError : jsstring := lit "NetworkError".

Definition spec_submit_outcome (cfg : Config) (fetch : Request -> Awaited Response)
    (h : Home) (h' : Home) (s : Settlement) : Prop :=
  if negb (truthy (trim (prompt h))) then s = Rejected EmptyInputError
  else
    match fetch (request cfg (prompt h)) with
    | Rejects _ => s = Rejected NetworkError
    | Resolves (NotOk _ _) => s = Rejected NetworkError
    | Resolves (Ok _ _) => s = Fulfilled /\ is_Some (yanaResult h')
    end.

End Page.

(** ** The diagram view's engine log

    Measures of the engine log and of the runs, used to state what the
    component asks of the engine. *)
Module DiagramLog.
Import JS Diagram.

(** The number of [mermaid.render] calls in an engine log. *)
Fixpoint renders (calls : list EngineCall) : nat :=
  match calls with
  | [] => 0
  | Render _ _ :: calls' => S (renders calls')
  | Initialize _ :: calls' => renders calls'
  end.

(** The number of runs suspended on the import of the engine. *)
Fixpoint awaiting_import (runs : list Invocation) : nat :=
  match runs with
  | [] => 0
  | inv :: runs' =>
      match stage inv with
      | AwaitImport => S (awaiting_import runs')
      | _ => awaiting_import runs'
      end
  end.

(** The writes of lines 56-60 on the svg root, latest first; none when
    [querySelector] finds no svg. *)
Definition normalization (found : bool) : list DomOp :=
  if found then
    [SvgSetStyle (lit "width") (lit "100%");
     SvgSetStyle (lit "minHeight") (lit "220px");
     SvgRemoveAttribute (lit "height")]
  else [].

(** Each run renders at most once, and each render follows one
    [initialize]. *)
Definition engine_balanced (v : View) : Prop :=
  (renders (engine v) + awaiting_import (effects v) <= length (effects v))%nat /\
  length (engine v) = (2 * renders (engine v))%nat.

(** Runs suspended on the import have a code that is not blank, and every
    render call was made for a run of this view. *)
Definition renders_justified (v : View) : Prop :=
  (forall k inv, effects v !! k = Some inv -> stage inv = AwaitImport ->
                 trim (inv_code inv) <> []) /\
  (forall id text, Render id text ∈ engine v ->
     id = idRef v /\ text <> [] /\
     exists k inv, effects v !! k = Some inv /\ text = trim (inv_code inv)).

End DiagramLog.

(** ** A session of the prompt page ([app/v1/page.tsx])

    The page's event handlers and the network, one event at a time.  React
    commits the state a handler sets before it dispatches the next discrete
    event (a click, a key press), so every action reads the state the
    previous one left. *)
Module Session.
Import JS Page.

(** The fields of a keyboard event that [handleKeyDown] reads. *)
Record KeyboardEvent : Type := {
  key : jsstring;
  metaKey : bool;
  ctrlKey : bool
}.

(** [responseStatus === 'sent'] *)
Definition is_sent (s : ResponseStatus) : bool :=
  match s with
  | sent => true
  | _ => false
  end.

(** [handleKeyDown] (lines 258-265): whether it goes on to call
    [submitPrompt]. *)
Definition handleKeyDown (e : KeyboardEvent) (h : Home) : bool :=
  if streq (key e) (lit "Enter") && (metaKey e || ctrlKey e)
  then negb (is_sent (responseStatus h))
  else false.

(** The page together with the network: the fetches still pending, oldest
    first, and every request issued so far. *)
Record Session : Type := {
  home : Home;
  pending : list Request;
  issued : list Request
}.

Definition start : Session := {| home := initial; pending := []; issued := [] |}.

Definition with_home (h : Home) (s : Session) : Session :=
  {| home := h; pending := pending s; issued := issued s |}.

(** What the user and the network can do to the page. *)
Inductive Action : Type :=
  | Change (value : jsstring)
  | KeyDown (e : KeyboardEvent)
  | SubmitClick
  | FlowTabClick (i : nat)
  | CardClick (i : nat)
  | FetchSettled (r : Awaited Response).

Section Configured.
Variable cfg : Config.

(** One call of [submitPrompt], up to its [await]. *)
Definition submit (s : Session) : Session :=
  match submit_start cfg (home s) with
  | (h1, Some req) =>
      {| home := h1; pending := pending s ++ [req]; issued := issued s ++ [req] |}
  | (h1, None) => with_home h1 s
  end.

Definition act (a : Action) (s : Session) : Session :=
  match a with
  | Change value => with_home (setPrompt value (home s)) s
  | KeyDown e => if handleKeyDown e (home s) then submit s else s
  | SubmitClick =>
      (* the button is [disabled] while the status is 'sent' *)
      if is_sent (responseStatus (home s)) then s else submit s
  | FlowTabClick i =>
      match flows (home s) !! i with
      | Some flow => with_home (selectFlow flow (home s)) s
      | None => s
      end
  | CardClick i =>
      match screensForFlow (home s) !! i with
      | Some screen => with_home (selectScreen screen (home s)) s
      | None => s
      end
  | FetchSettled r =>
      match pending s with
      | _ :: rest =>
          {| home := fst (submit_finish r (home s)); pending := rest;
             issued := issued s |}
      | [] => s
      end
  end.

Fixpoint play (actions : list Action) (s : Session) : Session :=
  match actions with
  | [] => s
  | a :: actions' => play actions' (act a s)
  end.

End Configured.

(** A submission is in flight exactly while the status is 'sent', and
    never more than one. *)
Definition single_flight (s : Session) : Prop :=
  match pending s with
  | [] => responseStatus (home s) <> sent
  | [_] => responseStatus (home s) = sent
  | _ => False
  end.

(** The selected flow is a flow of the stored result. *)
Definition selection_named (s : Session) : Prop :=
  flows (home s) <> [] ->
  exists f, In f (flows (home s)) /\ activeFlowSlug (home s) = Some (flow_slug f).

End Session.

(** ** The inspector panels ([app/v1/page.tsx], lines 299-321 and 588-775)

    The panels read members of the result that [Page.YanaResult] leaves
    out (the evaluation, the retrieval hits, the UI graph and the screens'
    sections); they are passed in here. *)
Module Inspector.
Import stdpp.gmap.
Import JS Page.

(** [flowByScreenId] (lines 307-312): every flow, in order, sets its slug
    under each of its screen ids. *)
Definition flowByScreenId (h : Home) : gmap (list N) (list N) :=
  foldl (fun m flow =>
           foldl (fun m sid => <[sid := flow_slug flow]> m) m (flow_screens flow))
        ∅ (flows h).

(** The members of an evaluated workflow that the page compares or lists;
    its numeric scores are only formatted. *)
Record EvaluationWorkflow : Type := {
  workflow_id : option jsstring;
  workflow_title : option jsstring;
  pros : option (list jsstring);
  cons : option (list jsstring)
}.

Record EvaluationResult : Type := {
  workflows : option (list EvaluationWorkflow);
  recommended_workflow_id : option jsstring
}.

Definition workflows_of (ev : option EvaluationResult) : list EvaluationWorkflow :=
  match ev with
  | Some {| workflows := Some ws |} => ws
  | _ => []
  end.

(** [evalByFlowId] (lines 314-321): workflows with a truthy id, in order. *)
Definition evalByFlowId (ev : option EvaluationResult) : gmap (list N) EvaluationWorkflow :=
  foldl (fun m w =>
           match workflow_id w with
           | Some (c :: id) => <[c :: id := w]> m
           | _ => m
           end)
        ∅ (workflows_of ev).

(** What the flow evaluation panel shows (lines 635-663). *)
Inductive EvaluationPanel : Type :=
  | NotMapped
  | NoEvaluation (flowSlug : jsstring)
  | Row (flowSlug : jsstring) (evalRow : EvaluationWorkflow) (isRecommended : bool).

Definition evaluation_panel (ev : EvaluationResult) (h : Home) (screen : Screen)
    : EvaluationPanel :=
  match flowByScreenId h !! screen_id screen with
  | Some (c :: slug) =>
      let flowSlug := c :: slug in
      match or_found (evalByFlowId (Some ev) !! flowSlug)
              (List.find
                 (fun w => bool_decide (workflow_id w = Some flowSlug)
                           || bool_decide (workflow_title w = name <$> activeFlow h))
                 (workflows_of (Some ev))) with
      | Some evalRow => Row flowSlug evalRow (nstreq (recommended_workflow_id ev) flowSlug)
      | None => NoEvaluation flowSlug
      end
  | _ => NotMapped
  end.

(** A similarity hit (lines 76-82); [similarity] is only formatted. *)
Record VectorHit : Type := {
  source_type : jsstring;
  code : jsstring;
  hit_name : jsstring;
  content : jsstring
}.

(** The hits listed (lines 769-775). *)
Definition listed_hits (vector_hits : list VectorHit) : list VectorHit :=
  take 8 (List.filter
            (fun h => streq (source_type h) (lit "FLOW")
                      || streq (source_type h) (lit "COMP"))
            vector_hits).

(** [Array.from(new Set(xs))]: the first occurrence of each element, in
    order. *)
Definition distinct (xs : list jsstring) : list jsstring :=
  foldl (fun seen x => if bool_decide (x ∈ seen) then seen else seen ++ [x]) [] xs.

(** A screen's sections and their components (lines 21-36), of which the
    design system panel reads the slugs. *)
Record ScreenComponent : Type := {
  component_slug : jsstring;
  label : jsstring;
  role : option jsstring
}.

Record ScreenSection : Type := {
  section_type : jsstring;
  section_title : option jsstring;
  components : list ScreenComponent
}.

(** The slugs listed by the design system panel (lines 588-594). *)
Definition used_slugs (sections : list ScreenSection) : list jsstring :=
  distinct (flat_map (fun sec => component_slug <$> components sec) sections).

(** A design system component of the UI graph, as lines 299-305 and
    605-617 read it. *)
Record DesignComponent : Type := {
  ds_slug : option jsstring;
  ds_key : option jsstring;
  ds_name : option jsstring;
  ds_type : option jsstring
}.

(** [dsByKey] (lines 299-305). *)
Definition dsByKey (graphComponents : list DesignComponent) : gmap (list N) DesignComponent :=
  foldl (fun m c =>
           match or_else (ds_slug c) (ds_key c) with
           | Some (k :: ks) => <[k :: ks := c]> m
           | _ => m
           end)
        ∅ graphComponents.

(** The heading shown for a slug (lines 595, 605-607). *)
Definition component_heading (graphComponents : list DesignComponent) (slug : jsstring)
    : jsstring :=
  let comp := dsByKey graphComponents !! slug in
  match or_else (comp ≫= ds_name) (comp ≫= ds_type) with
  | Some (c :: s) => c :: s
  | _ => lit "Unknown component"
  end.

End Inspector.

(** ** The request encodings

    [JSON.parse] on a string literal, the inverse of [JS.quoteJSONString],
    and the alphabet of [JS.btoa]. *)
Module JSON.
Import JS.
Local Open Scope N_scope.

(** The value of a hexadecimal digit. *)
Definition hex_value (c : N) : option N :=
  if (48 <=? c) && (c <=? 57) then Some (c - 48)
  else if (97 <=? c) && (c <=? 102) then Some (c - 87)
  else if (65 <=? c) && (c <=? 70) then Some (c - 55)
  else None.

(** The character a two-character escape stands for. *)
Definition simple_escape (e : N) : option N :=
  if e =? 34 then Some 34
  else if e =? 92 then Some 92
  else if e =? 47 then Some 47
  else if e =? 98 then Some 8
  else if e =? 102 then Some 12
  else if e =? 110 then Some 10
  else if e =? 114 then Some 13
  else if e =? 116 then Some 9
  else None.

(** The characters of a JSON string literal, between its quotes, as
    [JSON.parse] reads them; [None] is a [SyntaxError]. *)
Fixpoint unquote_units (s : jsstring) : option jsstring :=
  match s with
  | [] => Some []
  | c :: rest =>
      if c =? 92 then
        match rest with
        | [] => None
        | e :: rest' =>
            if e =? 117 then
              match rest' with
              | h3 :: h2 :: h1 :: h0 :: rest'' =>
                  match hex_value h3, hex_value h2, hex_value h1, hex_value h0 with
                  | Some v3, Some v2, Some v1, Some v0 =>
                      cons (v3 * 4096 + v2 * 256 + v1 * 16 + v0)
                        <$> unquote_units rest''
                  | _, _, _, _ => None
                  end
              | _ => None
              end
            else
              match simple_escape e with
              | Some c' => cons c' <$> unquote_units rest'
              | None => None
              end
        end
      else if (c <? 32) || (c =? 34) then None
      else cons c <$> unquote_units rest
  end.

(** [JSON.parse] of a string literal. *)
Definition parse_string (s : jsstring) : option jsstring :=
  match s with
  | q :: body =>
      match reverse body with
      | q' :: inner =>
          if (q =? 34) && (q' =? 34) then unquote_units (reverse inner) else None
      | [] => None
      end
  | [] => None
  end.

End JSON.

Module Base64.
Import JS.
Local Open Scope N_scope.

(** A character of the base64 alphabet, or the padding. *)
Definition base64_char (c : N) : bool :=
  ((65 <=? c) && (c <=? 90)) || ((97 <=? c) && (c <=? 122))
  || ((48 <=? c) && (c <=? 57)) || (c =? 43) || (c =? 47) || (c =? 61).

End Base64.

(** ** The first page ([app/page.tsx], lines 1-115) *)
Module URI.
Import JS.
Local Open Scope N_scope.

(** uriUnescaped of [encodeURIComponent]: letters, digits and
    [- _ . ! ~ * ' ( )]. *)
Definition unreserved (c : N) : bool :=
  ((65 <=? c) && (c <=? 90)) || ((97 <=? c) && (c <=? 122))
  || ((48 <=? c) && (c <=? 57))
  || (c =? 45) || (c =? 95) || (c =? 46) || (c =? 33) || (c =? 126)
  || (c =? 42) || (c =? 39) || (c =? 40) || (c =? 41).

Definition HEX (d : N) : N := nth (N.to_nat d) (lit "0123456789ABCDEF") 0.

(** [%XX] for one octet. *)
Definition percent (octet : N) : jsstring :=
  [37; HEX ((octet / 16) mod 16); HEX (octet mod 16)].

(** The UTF-8 octets of a code point. *)
Definition utf8 (cp : N) : list N :=
  if cp <? 128 then [cp]
  else if cp <? 2048 then
    [N.lor 192 (N.shiftr cp 6); N.lor 128 (N.land cp 63)]
  else if cp <? 65536 then
    [N.lor 224 (N.shiftr cp 12); N.lor 128 (N.land (N.shiftr cp 6) 63);
     N.lor 128 (N.land cp 63)]
  else
    [N.lor 240 (N.shiftr cp 18); N.lor 128 (N.land (N.shiftr cp 12) 63);
     N.lor 128 (N.land (N.shiftr cp 6) 63); N.lor 128 (N.land cp 63)].

Definition escape (cp : N) : jsstring := flat_map percent (utf8 cp).

(** The code point of a surrogate pair. *)
Definition pair_code_point (hi lo : N) : N :=
  65536 + N.shiftl (hi - 55296) 10 + (lo - 56320).

(** [encodeURIComponent]; [None] is the [URIError] thrown on a lone
    surrogate. *)
Fixpoint encodeURIComponent (s : jsstring) : option jsstring :=
  match s with
  | [] => Some []
  | c :: s' =>
      if unreserved c then cons c <$> encodeURIComponent s'
      else if is_high_surrogate c then
        match s' with
        | d :: s'' =>
            if is_low_surrogate d
            then app (escape (pair_code_point c d)) <$> encodeURIComponent s''
            else None
        | [] => None
        end
      else if is_low_surrogate c then None
      else app (escape c) <$> encodeURIComponent s'
  end.

(** What an encoded component consists of: unreserved characters and the
    percent sign. *)
Definition safe (c : N) : Prop := unreserved c = true \/ c = 37.

(** *** [decodeURIComponent] *)

(** The value of a hexadecimal digit, in either case. *)
Definition unhex (c : N) : option N :=
  if (48 <=? c) && (c <=? 57) then Some (c - 48)
  else if (65 <=? c) && (c <=? 70) then Some (c - 55)
  else if (97 <=? c) && (c <=? 102) then Some (c - 87)
  else None.

(** What [decodeURIComponent] reads: a character that stands for itself, or
    the octet of a [%XX]. *)
Inductive Item : Type :=
  | Literal (c : N)
  | Octet (b : N).

Fixpoint items (s : jsstring) : option (list Item) :=
  match s with
  | [] => Some []
  | c :: s' =>
      if c =? 37 then
        match s' with
        | h :: l :: s'' =>
            match unhex h, unhex l with
            | Some x, Some y => cons (Octet (16 * x + y)) <$> items s''
            | _, _ => None
            end
        | _ => None
        end
      else cons (Literal c) <$> items s'
  end.

(** An octet [10xxxxxx]. *)
Definition continuation (b : N) : bool := (128 <=? b) && (b <=? 191).

(** The UTF-16 code units of a code point. *)
Definition units (cp : N) : jsstring :=
  if cp <? 65536 then [cp]
  else [55296 + (cp - 65536) / 1024; 56320 + (cp - 65536) mod 1024].

(** Octets are read as UTF-8; an octet sequence that is not the UTF-8 form
    of a code point (a stray or missing continuation octet, an overlong
    form, a surrogate, a value above 0x10FFFF) is a [URIError]. *)
Fixpoint decode_items (l : list Item) : option jsstring :=
  match l with
  | [] => Some []
  | Literal c :: l' => cons c <$> decode_items l'
  | Octet b :: l' =>
      if b <? 128 then cons b <$> decode_items l'
      else if (192 <=? b) && (b <? 224) then
        match l' with
        | Octet b1 :: l'' =>
            let cp := (b - 192) * 64 + (b1 - 128) in
            if continuation b1 && (128 <=? cp)
            then app (units cp) <$> decode_items l''
            else None
        | _ => None
        end
      else if (224 <=? b) && (b <? 240) then
        match l' with
        | Octet b1 :: Octet b2 :: l'' =>
            let cp := (b - 224) * 4096 + (b1 - 128) * 64 + (b2 - 128) in
            if continuation b1 && continuation b2 && (2048 <=? cp)
               && negb ((55296 <=? cp) && (cp <=? 57343))
            then app (units cp) <$> decode_items l''
            else None
        | _ => None
        end
      else if (240 <=? b) && (b <? 248) then
        match l' with
        | Octet b1 :: Octet b2 :: Octet b3 :: l'' =>
            let cp := (b - 240) * 262144 + (b1 - 128) * 4096
                      + (b2 - 128) * 64 + (b3 - 128) in
            if continuation b1 && continuation b2 && continuation b3
               && (65536 <=? cp) && (cp <=? 1114111)
            then app (units cp) <$> decode_items l''
            else None
        | _ => None
        end
      else None
  end.

(** [decodeURIComponent]; [None] is the [URIError]. *)
Definition decodeURIComponent (s : jsstring) : option jsstring :=
  match items s with
  | Some l => decode_items l
  | None => None
  end.

(** A JS string holds 16-bit code units. *)
Definition code_units (s : jsstring) : Prop := Forall (fun c => c < 65536) s.

End URI.

Module Legacy.
Import JS URI.

Record Home : Type := {
  prompt : jsstring;
  responseMessage : jsstring;
  responseStatus : Page.ResponseStatus
}.

Definition initial : Home :=
  {| prompt := []; responseMessage := []; responseStatus := Page.not_sent |}.

Definition setPrompt (p : jsstring) (h : Home) : Home :=
  {| prompt := p; responseMessage := responseMessage h;
     responseStatus := responseStatus h |}.

Definition setResponseMessage (m : jsstring) (h : Home) : Home :=
  {| prompt := prompt h; responseMessage := m; responseStatus := responseStatus h |}.

Definition setResponseStatus (s : Page.ResponseStatus) (h : Home) : Home :=
  {| prompt := prompt h; responseMessage := responseMessage h; responseStatus := s |}.

Record Request : Type := {
  url : jsstring;
  method : jsstring;
  headers : list (jsstring * jsstring)
}.

(** A response and what [response.text()] gives. *)
Record Response : Type := {
  status : N;
  text : Awaited jsstring
}.

(** The arguments of [fetch] (lines 22-35); [None] when building the URL
    throws. *)
Definition request (cfg : Page.Config) (p : jsstring) : option Request :=
  match encodeURIComponent p with
  | Some q =>
      Some {| url := Page.apiHost cfg ++ lit "/api/search?query=" ++ q;
              method := lit "GET";
              headers := if truthy (Page.auth cfg)
                         then [(lit "Authorization", Page.auth cfg)] else [] |}
  | None => None
  end.

(** The [catch] block (lines 41-45); [message] is the [responseMessage]
    the call captured. *)
Definition submit_catch (message : jsstring) (h : Home) : Home :=
  setResponseStatus Page.error_status (setResponseMessage message h).

(** [submitPrompt] (lines 17-46) against a network. *)
Definition submitPrompt (cfg : Page.Config) (fetch : Request -> Awaited Response)
    (h : Home) : Home * list Request * Settlement :=
  let h1 := setResponseStatus Page.sent h in
  match request cfg (prompt h) with
  | None => (submit_catch (responseMessage h) h1, [], Fulfilled)
  | Some req =>
      match fetch req with
      | Rejects _ => (submit_catch (responseMessage h) h1, [req], Fulfilled)
      | Resolves response =>
          match text response with
          | Rejects _ => (submit_catch (responseMessage h) h1, [req], Fulfilled)
          | Resolves data =>
              (setResponseStatus Page.received (setResponseMessage data h1),
               [req], Fulfilled)
          end
      end
  end.

End Legacy.

(** * Properties *)

(** ** The built-ins *)
Module JSFacts.
Import JS.
Local Open Scope N_scope.

Example trim_both_ends : trim (lit "  a b  ") = lit "a b".
Proof. reflexivity. Qed.

Example trim_line_terminators : trim [10; 9; 8232; 65; 160; 13] = [65].
Proof. reflexivity. Qed.

Example btoa_foobar : btoa (lit "foobar") = Some (lit "Zm9vYmFy").
Proof. reflexivity. Qed.

Example btoa_padded_once : btoa (lit "fooba") = Some (lit "Zm9vYmE=").
Proof. reflexivity. Qed.

Example btoa_padded_twice : btoa (lit "foob") = Some (lit "Zm9vYg==").
Proof. reflexivity. Qed.

Example btoa_out_of_range : btoa [1103; 58; 120] = None.
Proof. reflexivity. Qed.

Example of_number_500 : of_number 500 = lit "500".
Proof. reflexivity. Qed.

Example quote_escapes :
  quoteJSONString (lit "a\b" ++ [10; 34; 1])
  = dquote ++ lit "a\\b\n\" ++ dquote ++ lit "\u0001" ++ dquote.
Proof. reflexivity. Qed.

Example quote_surrogates :
  quoteJSONString [55357; 56832; 55357]
  = dquote ++ [55357; 56832] ++ lit "\ud83d" ++ dquote.
Proof. reflexivity. Qed.

(** [trimStart] either consumes everything or stops at a character that is
    not white space. *)
Lemma trimStart_cases (s : jsstring) :
  trimStart s = [] \/ exists c s', trimStart s = c :: s' /\ is_ws c = false.
Proof.
  induction s as [|c s IH]; simpl; [now left|].
  destruct (is_ws c) eqn:E; [exact IH|].
  right. now exists c, s.
Qed.

Lemma trimStart_nil (s : jsstring) :
  trimStart s = [] <-> forallb is_ws s = true.
Proof.
  induction s as [|c s IH]; simpl; [tauto|].
  destruct (is_ws c); simpl; [exact IH|].
  split; discriminate.
Qed.

Lemma forallb_reverse (f : N -> bool) (s : jsstring) :
  forallb f (reverse s) = true <-> forallb f s = true.
Proof.
  rewrite !forallb_forall. setoid_rewrite <- list_elem_of_In.
  setoid_rewrite elem_of_reverse. reflexivity.
Qed.

(** A string trims to the empty string exactly when it is empty or consists
    of white space only. *)
Lemma trim_nil (s : jsstring) :
  trim s = [] <-> forallb is_ws s = true.
Proof.
  unfold trim, trimEnd. split.
  - intros H.
    assert (Hr : trimStart (reverse (trimStart s)) = []).
    { rewrite <- (reverse_involutive (trimStart _)), H. reflexivity. }
    apply trimStart_nil in Hr. rewrite forallb_reverse in Hr.
    destruct (trimStart_cases s) as [E | (c & s' & E & Hc)].
    + now apply trimStart_nil.
    + rewrite E in Hr. cbn [forallb] in Hr. rewrite Hc in Hr. discriminate.
  - intros H. apply trimStart_nil in H. rewrite H. reflexivity.
Qed.

Lemma truthy_false (s : jsstring) : truthy s = false <-> s = [].
Proof. destruct s; simpl; split; congruence. Qed.

Lemma streq_true (a b : jsstring) : streq a b = true <-> a = b.
Proof. unfold streq. apply bool_decide_eq_true. Qed.

Lemma streq_false (a b : jsstring) : streq a b = false <-> a <> b.
Proof. unfold streq. apply bool_decide_eq_false. Qed.

Lemma streq_refl (a : jsstring) : streq a a = true.
Proof. now apply streq_true. Qed.

End JSFacts.

(** ** The diagram view *)
Module DiagramFacts.
Import JS Diagram JSFacts.

Section Facts.
Variable qs : jsstring -> bool.

Lemma on_catch_frame k err v :
  phase (on_catch k err v) = phase v /\ code (on_catch k err v) = code v /\
  idRef (on_catch k err v) = idRef v /\
  attached (container (on_catch k err v)) = attached (container v) /\
  effects (on_catch k err v) = alter (set_stage (Returned Fulfilled)) k (effects v).
Proof.
  unfold on_catch. cbn.
  destruct (negb _ && _); cbn; auto.
Qed.

Lemma normalize_svg_frame html v :
  phase (normalize_svg qs html v) = phase v /\ code (normalize_svg qs html v) = code v /\
  idRef (normalize_svg qs html v) = idRef v /\
  attached (container (normalize_svg qs html v)) = attached (container v) /\
  innerHTML (container (normalize_svg qs html v)) = innerHTML (container v) /\
  effects (normalize_svg qs html v) = effects v /\
  engine (normalize_svg qs html v) = engine v /\
  console (normalize_svg qs html v) = console v.
Proof. unfold normalize_svg. destruct (qs html); cbn; auto 10. Qed.

(** A resumption leaves the component's props and refs alone and touches
    at most the [stage] of its own run, which it suspends on the render or
    finishes normally. *)
Lemma resume_frame c v :
  phase (resume qs c v) = phase v /\ code (resume qs c v) = code v /\
  idRef (resume qs c v) = idRef v /\
  attached (container (resume qs c v)) = attached (container v) /\
  (effects (resume qs c v) = effects v \/
   exists s, (s = AwaitRender \/ s = Returned Fulfilled) /\
     effects (resume qs c v) = alter (set_stage s) (target c) (effects v)).
Proof.
  destruct c as [k r | k r]; cbn.
  - destruct (effects v !! k) as [inv|] eqn:E; [|auto 10].
    destruct (stage inv); auto 10.
    destruct r as [u | err]; cbn.
    + repeat split; eauto.
    + destruct (on_catch_frame k err v) as (? & ? & ? & ? & ?). repeat split; eauto.
  - destruct (effects v !! k) as [inv|] eqn:E; [|auto 10].
    destruct (stage inv); auto 10.
    destruct r as [out | err]; cbn.
    + destruct (is_cancelled k v || negb _); cbn -[on_catch normalize_svg]; [repeat split; eauto|].
      set (v0 := assign_innerHTML (svg out) v).
      destruct (normalize_svg_frame (svg out) v0) as (? & ? & ? & ? & ? & He & ? & ?).
      destruct (bindFunctions out) as [|[err|]]; cbn -[on_catch normalize_svg].
      * repeat split; try (etransitivity; [eassumption|reflexivity]).
        right. eexists. split; [right; reflexivity|]. now rewrite He.
      * destruct (on_catch_frame k err (normalize_svg qs (svg out) v0)) as (? & ? & ? & ? & Hc).
        repeat split; try (etransitivity; [eassumption|];
                           etransitivity; [eassumption|reflexivity]).
        right. eexists. split; [right; reflexivity|]. now rewrite Hc, He.
      * repeat split; try (etransitivity; [eassumption|reflexivity]).
        right. eexists. split; [right; reflexivity|]. now rewrite He.
    + destruct (on_catch_frame k err v) as (? & ? & ? & ? & ?). repeat split; eauto.
Qed.

Lemma on_catch_container k err v :
  is_cancelled k v = true \/ attached (container v) = false ->
  container (on_catch k err v) = container v.
Proof.
  intros H. unfold on_catch. cbn.
  replace (is_cancelled k (with_console _ v)) with (is_cancelled k v) by reflexivity.
  destruct H as [-> | ->]; cbn; [reflexivity|].
  now rewrite andb_false_r.
Qed.

(** The guards of lines 47 and 67: a run that was cancelled, or whose
    container is gone, writes nothing. *)
Lemma resume_container c v :
  is_cancelled (target c) v = true \/ attached (container v) = false ->
  container (resume qs c v) = container v.
Proof.
  intros H. destruct c as [k r | k r]; cbn -[on_catch] in *.
  - destruct (effects v !! k) as [inv|]; [|reflexivity].
    destruct (stage inv); try reflexivity.
    destruct r; [reflexivity|]. now apply on_catch_container.
  - destruct (effects v !! k) as [inv|]; [|reflexivity].
    destruct (stage inv); try reflexivity.
    unfold resume_render. destruct r; [|now apply on_catch_container].
    replace (is_cancelled k v || negb (attached (container v))) with true; [reflexivity|].
    destruct H as [-> | ->]; [reflexivity|]. now rewrite orb_true_r.
Qed.

Lemma alter_snoc {A} (f : A -> A) k (old : list A) cur :
  alter f k (old ++ [cur])
  = if decide (k = length old) then old ++ [f cur] else alter f k old ++ [cur].
Proof.
  revert k. induction old as [|x old IH]; intros [|k]; cbn; try reflexivity.
  rewrite IH. destruct (decide (k = length old)), (decide (S k = S (length old)));
      try reflexivity; lia.
Qed.

Lemma all_cancelled_alter_stage s k l :
  all_cancelled l -> all_cancelled (alter (set_stage s) k l).
Proof. intros H. apply Forall_alter; [exact H|]. intros x _ Hx. exact Hx. Qed.

Lemma all_cancelled_lookup l k inv :
  all_cancelled l -> l !! k = Some inv -> cancelled inv = true.
Proof. intros H E. eapply Forall_lookup_1 in H; eauto. Qed.


Lemma on_catch_lookup k err v :
  effects (on_catch k err v) !! k
  = set_stage (Returned Fulfilled) <$> effects v !! k.
Proof.
  destruct (on_catch_frame k err v) as (_ & _ & _ & _ & ->).
  apply list_lookup_alter_eq.
Qed.

Lemma returned_not_pending s (o : option Invocation) inv' :
  set_stage (Returned s) <$> o = Some inv' -> pending inv' = true -> False.
Proof. destruct o; cbn; intros ? ?; simplify_eq/=. Qed.

(** A run still pending after one of its resumptions was suspended on the
    import before, and the resumption wrote nothing. *)
Lemma resume_pending c v inv' :
  effects (resume qs c v) !! target c = Some inv' -> pending inv' = true ->
  container (resume qs c v) = container v /\
  exists inv, effects v !! target c = Some inv /\ pending inv = true.
Proof.
  destruct c as [k r | k r]; cbn -[on_catch normalize_svg].
  - destruct (effects v !! k) as [inv|] eqn:E; [|rewrite E; discriminate].
    destruct (stage inv) eqn:Es.
    + destruct r as [u | err]; cbn -[on_catch].
      * intros _ _. split; [reflexivity|]. exists inv. split; [reflexivity|].
        unfold pending. now rewrite Es.
      * rewrite on_catch_lookup. intros H Hp.
        destruct (returned_not_pending _ _ _ H Hp).
    + rewrite E. intros ? Hp. simplify_eq. eauto.
    + rewrite E. intros ? Hp. simplify_eq. eauto.
  - destruct (effects v !! k) as [inv|] eqn:E; [|rewrite E; discriminate].
    destruct (stage inv) eqn:Es.
    + rewrite E. intros ? Hp. simplify_eq. eauto.
    + unfold resume_render. destruct r as [out | err].
      * destruct (is_cancelled k v || negb _).
        { cbn. rewrite list_lookup_alter_eq. intros H Hp.
          destruct (returned_not_pending _ _ _ H Hp). }
        destruct (bindFunctions out) as [|[err|]].
        -- unfold update_effect. cbn -[normalize_svg].
           rewrite list_lookup_alter_eq. intros H Hp.
           destruct (returned_not_pending _ _ _ H Hp).
        -- rewrite on_catch_lookup. intros H Hp.
           destruct (returned_not_pending _ _ _ H Hp).
        -- unfold update_effect. cbn -[normalize_svg].
           rewrite list_lookup_alter_eq. intros H Hp.
           destruct (returned_not_pending _ _ _ H Hp).
      * rewrite on_catch_lookup. intros H Hp.
        destruct (returned_not_pending _ _ _ H Hp).
    + rewrite E. intros ? Hp. simplify_eq. eauto.
Qed.

Lemma is_cancelled_lookup k v inv :
  effects v !! k = Some inv -> is_cancelled k v = cancelled inv.
Proof. unfold is_cancelled. now intros ->. Qed.

Lemma resume_Inv c v : Inv v -> Inv (resume qs c v).
Proof.
  unfold Inv. intros H.
  destruct (resume_frame c v) as (Hp & Hc & _ & Ha & He).
  rewrite Hp, Hc, Ha. destruct (phase v).
  - (* nothing has run yet *)
    destruct He as [-> | (s & _ & ->)]; [exact H|]. now rewrite H.
  - destruct H as (Hatt & old & cur & Eeff & Hold & Hcur & Hcode & Hpend).
    split; [exact Hatt|].
    destruct (decide (target c = length old)) as [Ek | Ek].
    + (* the current run is resumed *)
      assert (Hl : effects v !! target c = Some cur).
      { rewrite Eeff, Ek. apply list_lookup_middle. reflexivity. }
      destruct He as [He | (s & _ & He)].
      * exists old, cur. rewrite He. repeat split; try assumption.
        intros Hq. destruct (resume_pending c v cur) as [-> _]; auto.
        now rewrite He.
      * exists old, (set_stage s cur). rewrite He, Eeff, alter_snoc.
        rewrite decide_True by exact Ek. repeat split; try assumption.
        intros Hq. destruct (resume_pending c v (set_stage s cur)) as [-> (inv & Hi & Hpi)]; auto.
        { rewrite He, list_lookup_alter_eq, Hl. reflexivity. }
        rewrite Hl in Hi. injection Hi as <-. auto.
    + (* an earlier run, or none, is resumed *)
      assert (Hcont : container (resume qs c v) = container v).
      { destruct (effects v !! target c) as [inv|] eqn:El.
        - apply resume_container. left.
          rewrite (is_cancelled_lookup _ _ _ El).
          rewrite Eeff in El. apply (all_cancelled_lookup old (target c)); [exact Hold|].
          rewrite lookup_app_l in El; [exact El|].
          apply lookup_lt_Some in El. rewrite length_app in El. cbn in El. lia.
        - destruct c; cbn in *; now rewrite El. }
      rewrite Hcont. destruct He as [He | (s & _ & He)].
      * exists old, cur. rewrite He. now repeat split.
      * exists (alter (set_stage s) (target c) old), cur.
        rewrite He, Eeff, alter_snoc, decide_False by exact Ek.
        repeat split; try assumption. now apply all_cancelled_alter_stage.
  - destruct H as [Hatt Hall]. split; [exact Hatt|].
    destruct He as [-> | (s & _ & ->)]; [exact Hall|]. now apply all_cancelled_alter_stage.
Qed.


Lemma effect_spec v :
  attached (container v) = true ->
  phase (effect v) = phase v /\ code (effect v) = code v /\
  idRef (effect v) = idRef v /\
  attached (container (effect v)) = true /\
  innerHTML (container (effect v)) = [] /\
  effects (effect v) = effects v ++ [started (code v)] /\
  engine (effect v) = engine v /\ console (effect v) = console v.
Proof.
  intros Ha. unfold effect, clear_container, renderDiagram, started.
  rewrite Ha. cbn -[trim]. rewrite Ha. cbn -[trim].
  destruct (truthy (trim (code v))); cbn; repeat split; auto.
Qed.

Lemma cleanup_spec k v :
  phase (cleanup k v) = phase v /\ code (cleanup k v) = code v /\
  idRef (cleanup k v) = idRef v /\
  attached (container (cleanup k v)) = attached (container v) /\
  (attached (container v) = true -> innerHTML (container (cleanup k v)) = []) /\
  (attached (container v) = false -> container (cleanup k v) = container v) /\
  effects (cleanup k v) = alter set_cancelled k (effects v) /\
  engine (cleanup k v) = engine v /\ console (cleanup k v) = console v.
Proof.
  unfold cleanup, clear_container. cbn.
  destruct (attached (container v)) eqn:E; cbn; rewrite ?E; repeat split; done.
Qed.

Lemma current_snoc v old cur : effects v = old ++ [cur] -> current v = length old.
Proof. unfold current. intros ->. rewrite length_app. cbn. lia. Qed.

Lemma all_cancelled_snoc old cur :
  all_cancelled old -> all_cancelled (old ++ [set_cancelled cur]).
Proof.
  intros H. apply Forall_app. split; [exact H|]. now constructor.
Qed.

Lemma step_Inv e v : Inv v -> Inv (step qs e v).
Proof.
  destruct e as [c | c | b | c]; [| | |apply resume_Inv]; intros H; unfold step.
  - (* Mount *)
    unfold Inv in H. destruct (phase v) eqn:Ep; unfold Inv; rewrite ?Ep; try exact H.
    set (v0 := set_attached true (with_code c (with_phase Mounted v))).
    destruct (effect_spec v0) as (-> & -> & _ & -> & Hi & -> & _); [reflexivity|].
    cbn -[effect]. split; [reflexivity|]. exists [], (started c). rewrite H.
    repeat split; auto. constructor.
  - (* Update *)
    pose proof H as H'. unfold Inv in H.
    destruct (phase v) eqn:Ep; try exact H'.
    destruct (streq c (code v)); [exact H'|].
    destruct H as (Hatt & old & cur & Eeff & Hold & Hcur & Hcode & Hpend).
    destruct (cleanup_spec (current v) v) as (Hp & _ & _ & Ha & _ & _ & He & _).
    set (v0 := with_code c (cleanup (current v) v)).
    destruct (effect_spec v0) as (Hp' & Hc' & _ & Ha' & Hi' & He' & _).
    { cbn. now rewrite Ha. }
    unfold Inv. rewrite Hp'. cbn -[effect cleanup]. rewrite Hp, Ep. split; [exact Ha'|].
    exists (old ++ [set_cancelled cur]), (started c).
    rewrite He'. cbn -[effect cleanup]. rewrite He, Eeff, (current_snoc v old cur Eeff), alter_snoc.
    rewrite decide_True by reflexivity.
    repeat split; auto. now apply all_cancelled_snoc.
  - (* Unmount *)
    pose proof H as H'. unfold Inv in H.
    destruct (phase v) eqn:Ep; try exact H'.
    destruct H as (Hatt & old & cur & Eeff & Hold & Hcur & Hcode & Hpend).
    unfold Inv. cbn. split; [reflexivity|].
    assert (Hc : current (if b then set_attached false v else v) = length old).
    { destruct b; apply (current_snoc _ old cur); exact Eeff. }
    rewrite Hc.
    destruct (cleanup_spec (length old) (if b then set_attached false v else v))
      as (_ & _ & _ & _ & _ & _ & -> & _).
    replace (effects (if b then set_attached false v else v)) with (effects v)
      by now destruct b.
    rewrite Eeff, alter_snoc, decide_True by reflexivity.
    now apply all_cancelled_snoc.
Qed.

Lemma run_Inv es v : Inv v -> Inv (run qs es v).
Proof.
  revert v. induction es as [|e es IH]; intros v H; cbn; [exact H|].
  apply IH, step_Inv, H.
Qed.

Lemma reachable_Inv v : reachable qs v -> Inv v.
Proof. intros (id & es & ->). apply run_Inv. reflexivity. Qed.

Lemma run_app es1 es2 v : run qs (es1 ++ es2) v = run qs es2 (run qs es1 v).
Proof. revert v. induction es1 as [|e es1 IH]; intros v; cbn; [reflexivity|apply IH]. Qed.

Lemma reachable_step e v : reachable qs v -> reachable qs (step qs e v).
Proof.
  intros (id & es & ->). exists id, (es ++ [e]). now rewrite run_app.
Qed.

Lemma reachable_run es v : reachable qs v -> reachable qs (run qs es v).
Proof.
  intros (id & es0 & ->). exists id, (es0 ++ es). now rewrite run_app.
Qed.


Lemma resume_lookup_other c v j :
  j <> target c -> effects (resume qs c v) !! j = effects v !! j.
Proof.
  intros Hj. destruct (resume_frame c v) as (_ & _ & _ & _ & [-> | (s & _ & ->)]);
    [reflexivity|].
  apply list_lookup_alter_ne. congruence.
Qed.

Lemma resume_cancelled_flags c v j :
  cancelled <$> effects (resume qs c v) !! j = cancelled <$> effects v !! j.
Proof.
  destruct (resume_frame c v) as (_ & _ & _ & _ & [-> | (s & _ & ->)]);
    [reflexivity|].
  destruct (decide (target c = j)) as [<- | Hj].
  - rewrite list_lookup_alter_eq. now destruct (effects v !! target c).
  - now rewrite list_lookup_alter_ne.
Qed.

Lemma resume_others_cancelled k c v :
  others_cancelled k v -> others_cancelled k (resume qs c v).
Proof.
  intros H j inv Hj E. pose proof (resume_cancelled_flags c v j) as Hf.
  rewrite E in Hf. cbn in Hf.
  destruct (effects v !! j) as [inv0|] eqn:E0; [|discriminate].
  cbn in Hf. injection Hf as ->. eauto.
Qed.

(** A resumption of a run other than the live one writes nothing. *)
Lemma resume_other_container k c v :
  others_cancelled k v -> target c <> k ->
  container (resume qs c v) = container v.
Proof.
  intros H Hk. destruct (effects v !! target c) as [inv|] eqn:E.
  - apply resume_container. left. rewrite (is_cancelled_lookup _ _ _ E). eauto.
  - destruct c; cbn in *; now rewrite E.
Qed.

(** What a resumption does to the container and to its own run depends
    only on the container and on that run. *)
Lemma on_catch_container_eq k err v :
  container (on_catch k err v)
  = if negb (is_cancelled k v) && attached (container v)
    then {| attached := attached (container v); innerHTML := failure_notice;
            mutations := SetInnerHTML failure_notice :: mutations (container v) |}
    else container v.
Proof.
  unfold on_catch.
  change (is_cancelled k (with_console _ v)) with (is_cancelled k v).
  change (attached (container (with_console _ v))) with (attached (container v)).
  destruct (negb (is_cancelled k v) && attached (container v)); reflexivity.
Qed.

Lemma on_catch_logs k err v :
  engine (on_catch k err v) = engine v /\
  console (on_catch k err v)
  = ConsoleError (lit "[Mermaid] render error:") err :: console v.
Proof.
  unfold on_catch. destruct (negb _ && _); split; reflexivity.
Qed.

Lemma on_catch_local k err v w :
  container v = container w -> effects v !! k = effects w !! k ->
  container (on_catch k err v) = container (on_catch k err w) /\
  effects (on_catch k err v) !! k = effects (on_catch k err w) !! k.
Proof.
  intros Hc He. rewrite !on_catch_lookup, He. split; [|reflexivity].
  rewrite !on_catch_container_eq. unfold is_cancelled. now rewrite He, Hc.
Qed.

Lemma resume_local c v w :
  container v = container w ->
  effects v !! target c = effects w !! target c ->
  container (resume qs c v) = container (resume qs c w) /\
  effects (resume qs c v) !! target c = effects (resume qs c w) !! target c.
Proof.
  intros Hc He.
  assert (Hx : is_cancelled (target c) v = is_cancelled (target c) w).
  { unfold is_cancelled. now rewrite He. }
  destruct c as [k r | k r]; cbn -[on_catch normalize_svg] in *.
  - destruct (effects v !! k) as [inv|] eqn:E; rewrite <- He; [|split; congruence].
    destruct (stage inv); try (split; congruence).
    destruct r as [u | err]; [|now apply on_catch_local; congruence].
    cbn. rewrite !list_lookup_alter_eq, <- He, E. split; [assumption|reflexivity].
  - destruct (effects v !! k) as [inv|] eqn:E; rewrite <- He; [|split; congruence].
    destruct (stage inv); try (split; congruence).
    unfold resume_render.
    destruct r as [out | err]; [|now apply on_catch_local; congruence].
    rewrite <- Hx, <- Hc.
    destruct (is_cancelled k v || negb (attached (container v))).
    { cbn. rewrite !list_lookup_alter_eq, <- He, E. split; [assumption|reflexivity]. }
    assert (Hn : container (normalize_svg qs (svg out) (assign_innerHTML (svg out) v))
                 = container (normalize_svg qs (svg out) (assign_innerHTML (svg out) w))).
    { unfold normalize_svg. destruct (qs (svg out)); cbn; now rewrite Hc. }
    assert (Hm : effects (normalize_svg qs (svg out) (assign_innerHTML (svg out) v)) !! k
                 = effects (normalize_svg qs (svg out) (assign_innerHTML (svg out) w)) !! k).
    { unfold normalize_svg. destruct (qs (svg out)); cbn; congruence. }
    destruct (bindFunctions out) as [|[err|]].
    + cbn -[normalize_svg]. rewrite !list_lookup_alter_eq, Hm. split; [assumption|reflexivity].
    + now apply on_catch_local.
    + cbn -[normalize_svg]. rewrite !list_lookup_alter_eq, Hm, Hn. split; reflexivity.
Qed.


Lemma settles_frame cs v :
  phase (run qs (Settle <$> cs) v) = phase v /\
  code (run qs (Settle <$> cs) v) = code v /\
  idRef (run qs (Settle <$> cs) v) = idRef v /\
  attached (container (run qs (Settle <$> cs) v)) = attached (container v) /\
  length (effects (run qs (Settle <$> cs) v)) = length (effects v).
Proof.
  revert v. induction cs as [|c cs IH]; intros v; cbn -[resume]; [easy|].
  destruct (IH (resume qs c v)) as (-> & -> & -> & -> & ->).
  destruct (resume_frame c v) as (-> & -> & -> & -> & [-> | (s & _ & ->)]);
    rewrite ?length_alter; easy.
Qed.

(** What a resumption can leave in the container: what was there, the
    failure notice, or the markup its render resolved to. *)
Lemma resume_innerHTML c v :
  innerHTML (container (resume qs c v)) = innerHTML (container v) \/
  innerHTML (container (resume qs c v)) = failure_notice \/
  exists r, c = RenderSettled (target c) (Resolves r) /\
            innerHTML (container (resume qs c v)) = svg r.
Proof.
  assert (Hcatch : forall k err u,
    innerHTML (container (on_catch k err u)) = innerHTML (container u) \/
    innerHTML (container (on_catch k err u)) = failure_notice).
  { intros k err u. rewrite on_catch_container_eq.
    destruct (negb _ && _); cbn; auto. }
  destruct c as [k r | k r]; cbn -[on_catch normalize_svg].
  - destruct (effects v !! k) as [inv|]; [|now left].
    destruct (stage inv); try now left.
    destruct r as [u | err]; [now left|].
    destruct (Hcatch k err v); auto.
  - destruct (effects v !! k) as [inv|]; [|now left].
    destruct (stage inv); try now left.
    unfold resume_render. destruct r as [out | err].
    + destruct (is_cancelled k v || negb _); [now left|].
      destruct (normalize_svg_frame (svg out) (assign_innerHTML (svg out) v))
        as (_ & _ & _ & _ & Hi & _).
      cbn in Hi.
      destruct (bindFunctions out) as [|[err|]].
      * right. right. exists out. split; [reflexivity|]. exact Hi.
      * destruct (Hcatch k err (normalize_svg qs (svg out) (assign_innerHTML (svg out) v)))
          as [E | E]; [|auto].
        right. right. exists out. split; [reflexivity|]. now rewrite E.
      * right. right. exists out. split; [reflexivity|]. exact Hi.
    + destruct (Hcatch k err v); auto.
Qed.

(** Resumptions of cancelled runs can be erased from a schedule without
    changing anything the container ever received. *)
Lemma cancelled_runs_erased k cs : forall v w,
  container v = container w -> effects v !! k = effects w !! k ->
  others_cancelled k v ->
  container (run qs (Settle <$> cs) v)
  = container (run qs (Settle <$> filter (fun c => target c = k) cs) w).
Proof.
  induction cs as [|c cs IH]; intros v w Hc He Ho; [exact Hc|].
  destruct (decide (target c = k)) as [Ek | Ek].
  - rewrite filter_cons_True by exact Ek. cbn -[resume].
    subst k. destruct (resume_local c v w Hc He) as [Hc' He'].
    apply IH; auto using resume_others_cancelled.
  - rewrite filter_cons_False by exact Ek. cbn -[resume].
    apply IH; auto using resume_others_cancelled.
    + now rewrite (resume_other_container k).
    + rewrite resume_lookup_other by congruence. exact He.
Qed.

Lemma live_run_contents k cs : forall v,
  others_cancelled k v ->
  let html := innerHTML (container (run qs (Settle <$> cs) v)) in
  html = innerHTML (container v) \/ html = failure_notice \/
  exists r, RenderSettled k (Resolves r) ∈ cs /\ html = svg r.
Proof.
  induction cs as [|c cs IH]; intros v Ho; cbn -[resume]; [now left|].
  destruct (IH (resume qs c v) (resume_others_cancelled k c v Ho))
    as [E | [E | (r & Hr & E)]].
  - rewrite E. destruct (decide (target c = k)) as [Ek | Ek].
    + destruct (resume_innerHTML c v) as [E' | [E' | (r & Hr & E')]]; auto.
      right. right. exists r. split; [|exact E'].
      rewrite Hr, Ek. left.
    + left. now rewrite (resume_other_container k).
  - auto.
  - right. right. exists r. split; [now right|exact E].
Qed.

Lemma mount_effects id d :
  effects (step qs (Mount d) (initial id)) = [started d] /\
  phase (step qs (Mount d) (initial id)) = Mounted /\
  code (step qs (Mount d) (initial id)) = d /\
  attached (container (step qs (Mount d) (initial id))) = true.
Proof.
  unfold step. cbn -[effect].
  set (v0 := set_attached true (with_code d (with_phase Mounted (initial id)))).
  destruct (effect_spec v0) as (-> & -> & _ & -> & _ & -> & _); [reflexivity|].
  easy.
Qed.

Lemma update_spec d v :
  phase v = Mounted -> attached (container v) = true -> d <> code v ->
  effects (step qs (Update d) v)
  = alter set_cancelled (current v) (effects v) ++ [started d] /\
  innerHTML (container (step qs (Update d) v)) = [] /\
  engine (step qs (Update d) v) = engine v /\
  console (step qs (Update d) v) = console v /\
  idRef (step qs (Update d) v) = idRef v.
Proof.
  intros Hp Ha Hd. unfold step. rewrite Hp.
  apply streq_false in Hd. rewrite Hd.
  destruct (cleanup_spec (current v) v) as (_ & _ & Hid & Ha' & _ & _ & He & Hen & Hco).
  destruct (effect_spec (with_code d (cleanup (current v) v)))
    as (_ & _ & -> & _ & -> & -> & -> & ->).
  { cbn -[cleanup]. now rewrite Ha'. }
  cbn -[cleanup]. now rewrite He, Hen, Hco, Hid.
Qed.


Lemma started_blank d :
  trim d = [] ->
  started d = {| inv_code := d; cancelled := false; stage := Returned Fulfilled |}.
Proof. intros H. unfold started. now rewrite H. Qed.

Lemma started_nonblank d :
  trim d <> [] ->
  started d = {| inv_code := d; cancelled := false; stage := AwaitImport |}.
Proof.
  intros H. unfold started. destruct (trim d); [congruence|reflexivity].
Qed.

Lemma settles_detached cs v :
  attached (container v) = false ->
  container (run qs (Settle <$> cs) v) = container v.
Proof.
  revert v. induction cs as [|c cs IH]; intros v Ha; cbn -[resume]; [reflexivity|].
  assert (Hc : container (resume qs c v) = container v)
    by (apply resume_container; now right).
  rewrite IH; [exact Hc|]. now rewrite Hc.
Qed.

(** A run that has returned is not resumed again. *)
Lemma resume_returned c v inv s :
  effects v !! target c = Some inv -> stage inv = Returned s -> resume qs c v = v.
Proof. intros E Es. destruct c; cbn in *; now rewrite E, Es. Qed.

Lemma settles_lookup_other k cs v :
  Forall (fun c => target c <> k) cs ->
  effects (run qs (Settle <$> cs) v) !! k = effects v !! k.
Proof.
  revert v. induction cs as [|c cs IH]; intros v H; cbn -[resume]; [reflexivity|].
  inversion H as [|? ? Hc Hcs]; subst.
  rewrite IH by exact Hcs. apply resume_lookup_other. congruence.
Qed.

Lemma never_rejected_alter (f : Invocation -> Invocation) (l : list Invocation) :
  (forall i, stage (f i) = stage i \/ stage (f i) = AwaitRender \/
             stage (f i) = Returned Fulfilled) ->
  forall k, (forall j i e, l !! j = Some i -> stage i <> Returned (Rejected e)) ->
  forall j i e, alter f k l !! j = Some i -> stage i <> Returned (Rejected e).
Proof.
  intros Hf k H j i e E. rewrite list_lookup_alter in E.
  destruct (decide (k = j)) as [-> |]; [|eauto].
  destruct (l !! j) as [i0|] eqn:E0; simplify_eq/=.
  destruct (Hf i0) as [-> | [-> | ->]]; [eapply H; eassumption| |]; discriminate.
Qed.

Lemma started_never_rejected d e : stage (started d) <> Returned (Rejected e).
Proof. unfold started. cbn. destruct (truthy _); discriminate. Qed.

(** Whether or not the container is there, the effect starts one run and
    calls neither the engine nor the console. *)
Lemma effect_frame v :
  engine (effect v) = engine v /\ console (effect v) = console v /\
  idRef (effect v) = idRef v /\
  exists s, (s = AwaitImport \/ s = Returned Fulfilled) /\
    effects (effect v)
    = effects v ++ [{| inv_code := code v; cancelled := false; stage := s |}].
Proof.
  unfold effect, clear_container, renderDiagram.
  destruct (attached (container v)) eqn:Ea; cbn -[trim]; rewrite Ea; cbn -[trim].
  - destruct (negb (truthy (trim (code v)))); cbn; repeat split; eauto.
  - repeat split; eauto.
Qed.

Lemma step_never_rejected e v : never_rejected v -> never_rejected (step qs e v).
Proof.
  assert (Heff : forall u, never_rejected u -> never_rejected (effect u)).
  { intros u Hu j i e'. destruct (effect_frame u) as (_ & _ & _ & s & Hs & ->).
    intros E. apply lookup_snoc_Some in E as [[_ E] | [_ <-]]; [eauto|].
    cbn. destruct Hs as [-> | ->]; discriminate. }
  assert (Hcl : forall k u, never_rejected u -> never_rejected (cleanup k u)).
  { intros k u Hu. unfold never_rejected.
    destruct (cleanup_spec k u) as (_ & _ & _ & _ & _ & _ & -> & _).
    apply (never_rejected_alter set_cancelled); [now left | exact Hu]. }
  intros H. destruct e as [c | c | b | c]; unfold step.
  - destruct (phase v); try exact H. apply Heff. exact H.
  - destruct (phase v); try exact H. destruct (streq c (code v)); [exact H|].
    apply Heff. apply (Hcl (current v) v H).
  - destruct (phase v); try exact H.
    apply (Hcl _ (if b then set_attached false v else v)). now destruct b.
  - cbn -[resume]. unfold never_rejected.
    destruct (resume_frame c v) as (_ & _ & _ & _ & [-> | (s & Hs & ->)]); [exact H|].
    apply (never_rejected_alter (set_stage s)); [|exact H].
    intros i. cbn. tauto.
Qed.

Lemma reachable_never_rejected v : reachable qs v -> never_rejected v.
Proof.
  intros (id & es & ->).
  assert (G : forall u, never_rejected u -> never_rejected (run qs es u)).
  { induction es as [|e es IH]; intros u Hu; cbn -[step]; [exact Hu|].
    apply IH, step_never_rejected, Hu. }
  apply G. intros j i e E. destruct j; discriminate.
Qed.

(** Every engine call is the pair the resumption after the import makes:
    [initialize] with the fixed configuration, then [render]. *)
Lemma step_engine e v :
  engine (step qs e v) = engine v \/
  exists id text, engine (step qs e v) = Render id text :: Initialize config :: engine v.
Proof.
  destruct e as [c | c | b | c]; unfold step.
  - destruct (phase v); auto. left.
    destruct (effect_frame (set_attached true (with_code c (with_phase Mounted v))))
      as (-> & _). reflexivity.
  - destruct (phase v); auto. destruct (streq c (code v)); auto. left.
    destruct (effect_frame (with_code c (cleanup (current v) v))) as (-> & _).
    destruct (cleanup_spec (current v) v) as (_ & _ & _ & _ & _ & _ & _ & He & _).
    exact He.
  - destruct (phase v); auto. left.
    destruct (cleanup_spec (current (if b then set_attached false v else v))
                (if b then set_attached false v else v))
      as (_ & _ & _ & _ & _ & _ & _ & He & _).
    cbn -[cleanup]. rewrite He. now destruct b.
  - destruct c as [k r | k r]; cbn -[on_catch normalize_svg].
    + destruct (effects v !! k) as [inv|]; auto. destruct (stage inv); auto.
      destruct r as [u | err]; cbn; eauto.
      left. now destruct (negb _ && _).
    + destruct (effects v !! k) as [inv|]; auto. destruct (stage inv); auto.
      left. unfold resume_render, normalize_svg, on_catch. destruct r as [out | err]; cbn.
      * destruct (is_cancelled k v || negb _); [reflexivity|].
        destruct (qs (svg out)), (bindFunctions out) as [|[err|]]; cbn;
          try reflexivity; now destruct (negb _ && _).
      * now destruct (negb _ && _).
Qed.

Lemma reachable_engine v cfg :
  reachable qs v -> Initialize cfg ∈ engine v -> cfg = config.
Proof.
  intros (id & es & ->).
  assert (G : forall u, (Initialize cfg ∈ engine u -> cfg = config) ->
                        Initialize cfg ∈ engine (run qs es u) -> cfg = config).
  { induction es as [|e es IH]; intros u Hu; cbn -[step]; [exact Hu|].
    apply IH. destruct (step_engine e u) as [-> | (i & t & ->)]; [exact Hu|].
    intros Hin. apply elem_of_cons in Hin as [Hin | Hin]; [discriminate|].
    apply elem_of_cons in Hin as [Hin | Hin]; [congruence|auto]. }
  apply G. cbn. intros Hin. inversion Hin.
Qed.


Lemma Inv_others_cancelled v :
  Inv v -> phase v = Mounted -> others_cancelled (current v) v.
Proof.
  unfold Inv. intros H Hp. rewrite Hp in H.
  destruct H as (_ & old & cur & Eeff & Hold & _).
  rewrite (current_snoc v old cur Eeff). intros j inv Hj E.
  rewrite Eeff in E. apply lookup_app_Some in E as [E | [Hge E]].
  - exact (all_cancelled_lookup _ _ _ Hold E).
  - destruct (j - length old)%nat as [|n] eqn:En; [lia|]. destruct n; discriminate.
Qed.

(** Resumptions addressed to a run that has returned change nothing. *)
Lemma returned_run_inert k cs v inv s :
  effects v !! k = Some inv -> stage inv = Returned s ->
  run qs (Settle <$> filter (fun c => target c = k) cs) v = v.
Proof.
  intros E Es. induction cs as [|c cs IH]; [reflexivity|].
  destruct (decide (target c = k)) as [Ek | Ek].
  - rewrite filter_cons_True by exact Ek. cbn -[resume].
    rewrite (resume_returned c v inv s); [exact IH|now rewrite Ek|exact Es].
  - now rewrite filter_cons_False by exact Ek.
Qed.

(** Resumptions of the other runs leave the container and run [k] as they
    are. *)
Lemma others_settled_inert k cs : forall v,
  Forall (fun c => target c <> k) cs -> others_cancelled k v ->
  container (run qs (Settle <$> cs) v) = container v /\
  effects (run qs (Settle <$> cs) v) !! k = effects v !! k /\
  others_cancelled k (run qs (Settle <$> cs) v).
Proof.
  induction cs as [|c cs IH]; intros v Hf Ho; [easy|].
  inversion Hf as [|? ? Hc Hcs]; subst. cbn -[resume].
  destruct (IH (resume qs c v) Hcs (resume_others_cancelled k c v Ho)) as (-> & -> & H).
  split; [now apply (resume_other_container k)|].
  split; [apply resume_lookup_other; congruence|exact H].
Qed.

(** A resolved import leaves the container alone and suspends the run on
    the render. *)
Lemma import_resolved_suspends k inv u v :
  effects v !! k = Some inv -> stage inv = AwaitImport ->
  container (resume qs (ImportSettled k (Resolves u)) v) = container v /\
  effects (resume qs (ImportSettled k (Resolves u)) v) !! k
  = Some (set_stage AwaitRender inv).
Proof.
  intros E Es. cbn -[trim]. rewrite E, Es. cbn -[trim].
  split; [reflexivity|]. now rewrite list_lookup_alter_eq, E.
Qed.

(** A resolved render of a live run becomes the markup, unless the binder
    throws, and the run returns. *)
Lemma render_resolved_mounts k inv r v :
  effects v !! k = Some inv -> stage inv = AwaitRender -> cancelled inv = false ->
  attached (container v) = true ->
  innerHTML (container (resume qs (RenderSettled k (Resolves r)) v))
  = match bindFunctions r with
    | Binds (Some _) => failure_notice
    | _ => svg r
    end /\
  effects (resume qs (RenderSettled k (Resolves r)) v) !! k
  = Some (set_stage (Returned Fulfilled) inv).
Proof.
  intros E Es Hc Ha. unfold resume. rewrite E, Es. unfold resume_render.
  rewrite (is_cancelled_lookup _ _ _ E), Hc, Ha. cbn [orb negb].
  set (v1 := normalize_svg qs (svg r) (assign_innerHTML (svg r) v)).
  destruct (normalize_svg_frame (svg r) (assign_innerHTML (svg r) v))
    as (_ & _ & _ & Hat & Hi & He & _). fold v1 in Hat, Hi, He.
  cbn in Hat, Hi, He.
  destruct (bindFunctions r) as [|[err|]].
  - cbn. rewrite list_lookup_alter_eq, He, E. easy.
  - rewrite on_catch_lookup, on_catch_container_eq, He, E.
    assert (Hx : is_cancelled k v1 = false).
    { unfold is_cancelled. now rewrite He, E. }
    rewrite Hx, Hat, Ha. easy.
  - cbn. rewrite list_lookup_alter_eq, He, E. easy.
Qed.

(** Once run [k] has returned and the others are cancelled, nothing
    changes the container any more. *)
Lemma returned_run_settled k cs : forall v inv s,
  effects v !! k = Some inv -> stage inv = Returned s -> others_cancelled k v ->
  container (run qs (Settle <$> cs) v) = container v /\
  effects (run qs (Settle <$> cs) v) !! k = Some inv.
Proof.
  induction cs as [|c cs IH]; intros v inv s E Es Ho; [easy|].
  cbn -[resume]. destruct (decide (target c = k)) as [Ek | Ek].
  - rewrite (resume_returned c v inv s); [now apply (IH v inv s)|now rewrite Ek|exact Es].
  - destruct (IH (resume qs c v) inv s) as [-> ->].
    + rewrite resume_lookup_other by congruence. exact E.
    + exact Es.
    + now apply resume_others_cancelled.
    + split; [now apply (resume_other_container k)|reflexivity].
Qed.

(** Resumptions change neither the code nor the flag of any run. *)
Lemma settles_run_identity cs : forall v j,
  (fun i => (inv_code i, cancelled i)) <$> effects (run qs (Settle <$> cs) v) !! j
  = (fun i => (inv_code i, cancelled i)) <$> effects v !! j.
Proof.
  induction cs as [|c cs IH]; intros v j; [reflexivity|].
  cbn -[resume]. rewrite IH.
  destruct (resume_frame c v) as (_ & _ & _ & _ & [-> | (s & _ & ->)]); [reflexivity|].
  destruct (decide (target c = j)) as [<- | Hne].
  - rewrite list_lookup_alter_eq. now destruct (effects v !! target c).
  - now rewrite list_lookup_alter_ne.
Qed.

(** C1. [d1] is mounted, then replaced by a different [d2], whatever had
    become of [d1]'s render by then ([cs0]). From then on, in whatever
    order the pending awaits of the two runs are resumed ([cs]):
    - the first run is cancelled and stays so, the second run renders [d2]
      and stays live, and the container was emptied by the update;
    - everything the container receives is what it would receive had the
      first run never been resumed at all, so as long as only the first
      run's awaits are resumed the container stays as the update left it;
    - its markup is empty, the failure notice, or the markup the second
      run's render resolved to;
    - and once the second run's import and then its render have resolved,
      however the first run's resumptions are interleaved with them and
      whatever is resumed afterwards, the markup is the svg the second
      run's render resolved to (the failure notice if its binder threw),
      and the second run has returned normally. *)
Theorem superseded_render_never_applied id d1 d2 cs0 cs :
  d1 <> d2 ->
  let v2 := run qs (Mount d1 :: (Settle <$> cs0) ++ [Update d2]) (initial id) in
  let final := run qs (Settle <$> cs) v2 in
  inv_code <$> effects v2 = [d1; d2] /\
  is_cancelled 0 v2 = true /\
  innerHTML (container v2) = [] /\
  container final
  = container (run qs (Settle <$> filter (fun c => target c = 1) cs) v2) /\
  (innerHTML (container final) = [] \/
   innerHTML (container final) = failure_notice \/
   exists r, RenderSettled 1 (Resolves r) ∈ cs /\
             innerHTML (container final) = svg r) /\
  is_cancelled 0 final = true /\
  (exists inv, effects final !! 1 = Some inv /\
               inv_code inv = d2 /\ cancelled inv = false) /\
  (Forall (fun c => target c <> 1) cs -> container final = container v2) /\
  (trim d2 <> [] ->
   forall ca u cb r2 cc,
     cs = ca ++ ImportSettled 1 (Resolves u) :: cb ++ RenderSettled 1 (Resolves r2) :: cc ->
     Forall (fun c => target c <> 1) (ca ++ cb) ->
     innerHTML (container final)
     = match bindFunctions r2 with
       | Binds (Some _) => failure_notice
       | _ => svg r2
       end /\
     effects final !! 1
     = Some {| inv_code := d2; cancelled := false; stage := Returned Fulfilled |}).
Proof.
  intros Hd v2 final. subst final v2. cbn -[step]. rewrite run_app. cbn -[step].
  set (v0 := step qs (Mount d1) (initial id)).
  set (v1 := run qs (Settle <$> cs0) v0).
  destruct (mount_effects id d1) as (He0 & Hp0 & Hc0 & Ha0). fold v0 in He0, Hp0, Hc0, Ha0.
  destruct (settles_frame cs0 v0) as (Hp1 & Hc1 & _ & Ha1 & Hl1). fold v1 in Hp1, Hc1, Ha1, Hl1.
  rewrite Hp0 in Hp1. rewrite Hc0 in Hc1. rewrite Ha0 in Ha1. rewrite He0 in Hl1.
  assert (Hinv : Inv v1).
  { apply reachable_Inv. exists id, (Mount d1 :: (Settle <$> cs0)). reflexivity. }
  unfold Inv in Hinv. rewrite Hp1 in Hinv.
  destruct Hinv as (_ & old & cur & Eeff & _ & _ & Hcode & _).
  assert (old = []) as ->.
  { rewrite Eeff, length_app in Hl1. cbn in Hl1. destruct old; [reflexivity|cbn in Hl1; lia]. }
  cbn in Eeff.
  destruct (update_spec d2 v1 Hp1 Ha1) as (He2 & Hi2 & _); [congruence|].
  assert (Ha2 : attached (container (step qs (Update d2) v1)) = true).
  { unfold step. rewrite Hp1. destruct (streq d2 (code v1)); [exact Ha1|].
    destruct (cleanup_spec (current v1) v1) as (_ & _ & _ & Ha' & _).
    apply effect_spec. cbn -[cleanup]. now rewrite Ha'. }
  set (v2 := step qs (Update d2) v1) in *.
  assert (E2 : effects v2 = [set_cancelled cur; started d2]).
  { rewrite He2. unfold current. rewrite Eeff. reflexivity. }
  assert (Ho : others_cancelled 1 v2).
  { intros j inv Hj E. rewrite E2 in E. destruct j as [|[|j]]; [|lia|discriminate].
    cbn in E. injection E as <-. reflexivity. }
  assert (Herase : container (run qs (Settle <$> cs) v2)
                   = container (run qs (Settle <$> filter (fun c => target c = 1) cs) v2))
    by now apply cancelled_runs_erased.
  split; [rewrite E2; cbn; congruence|].
  split; [unfold is_cancelled; now rewrite E2|].
  split; [exact Hi2|].
  split; [exact Herase|].
  split.
  { destruct (live_run_contents 1 cs v2 Ho) as [E | [E | E]]; auto.
    left. now rewrite E. }
  split.
  { pose proof (settles_run_identity cs v2 0) as H. rewrite E2 in H.
    unfold is_cancelled.
    destruct (effects (run qs (Settle <$> cs) v2) !! 0) as [inv|]; simplify_eq/=.
    assumption. }
  split.
  { pose proof (settles_run_identity cs v2 1) as H. rewrite E2 in H.
    destruct (effects (run qs (Settle <$> cs) v2) !! 1) as [inv|]; simplify_eq/=.
    now exists inv. }
  split.
  { intros Hf. now destruct (others_settled_inert 1 cs v2 Hf Ho). }
  intros Hnb ca u cb r2 cc -> Hf. apply Forall_app in Hf as [Hfa Hfb].
  rewrite fmap_app, run_app. cbn -[resume]. rewrite fmap_app, run_app. cbn -[resume].
  destruct (others_settled_inert 1 ca v2 Hfa Ho) as (Hca & Eca & Hoa).
  set (va := run qs (Settle <$> ca) v2) in *.
  assert (Ea : effects va !! 1
               = Some {| inv_code := d2; cancelled := false; stage := AwaitImport |}).
  { rewrite Eca, E2. cbn. now rewrite started_nonblank. }
  destruct (import_resolved_suspends 1 _ u va Ea eq_refl) as (Hci & Ei).
  pose proof (resume_others_cancelled 1 (ImportSettled 1 (Resolves u)) va Hoa) as Hoi.
  set (vi := resume qs (ImportSettled 1 (Resolves u)) va) in *.
  destruct (others_settled_inert 1 cb vi Hfb Hoi) as (Hcb & Ecb & Hob).
  set (vb := run qs (Settle <$> cb) vi) in *.
  rewrite Ei in Ecb.
  assert (Hab : attached (container vb) = true).
  { now rewrite Hcb, Hci, Hca. }
  destruct (render_resolved_mounts 1 _ r2 vb Ecb eq_refl eq_refl Hab) as (Hm & Er).
  pose proof (resume_others_cancelled 1 (RenderSettled 1 (Resolves r2)) vb Hob) as Hor.
  set (vr := resume qs (RenderSettled 1 (Resolves r2)) vb) in *.
  destruct (returned_run_settled 1 cc vr _ Fulfilled Er eq_refl Hor) as (Hcf & Hef).
  split; [|exact Hef].
  etransitivity; [|exact Hm]. f_equal. exact Hcf.
Qed.

(** C2. Unmounting cancels every run, the pending one included, and
    detaches the container; the container is empty when the cleanup still
    saw it or when a render was pending; and no resumption that arrives
    afterwards, resolved or rejected, writes to the container. *)
Theorem unmount_discards_pending_render v b :
  reachable qs v -> phase v = Mounted ->
  let v' := step qs (Unmount b) v in
  all_cancelled (effects v') /\
  attached (container v') = false /\
  (b = false \/ (exists inv, effects v !! current v = Some inv /\ pending inv = true) ->
   innerHTML (container v') = []) /\
  forall cs, container (run qs (Settle <$> cs) v') = container v'.
Proof.
  intros Hr Hp v'.
  pose proof (reachable_Inv _ (reachable_step (Unmount b) v Hr)) as Hinv'.
  pose proof (reachable_Inv _ Hr) as Hinv.
  assert (Hp' : phase v' = Removed) by (unfold v', step; now rewrite Hp).
  unfold Inv in Hinv'. fold v' in Hinv'. rewrite Hp' in Hinv'.
  destruct Hinv' as [Ha' Hall]. unfold Inv in Hinv. rewrite Hp in Hinv.
  destruct Hinv as (Ha & old & cur & Eeff & _ & _ & _ & Hpend).
  repeat split; try assumption.
  - intros H. unfold v', step. rewrite Hp. cbn -[cleanup].
    destruct b.
    + destruct H as [H | (inv & Hl & Hpi)]; [discriminate|].
      rewrite (current_snoc v old cur Eeff), Eeff, list_lookup_middle in Hl by reflexivity.
      injection Hl as <-.
      destruct (cleanup_spec (current (set_attached false v)) (set_attached false v))
        as (_ & _ & _ & _ & _ & Hc & _).
      rewrite Hc by reflexivity. cbn. now apply Hpend.
    + destruct (cleanup_spec (current v) v) as (_ & _ & _ & _ & Hc & _).
      cbn. now apply Hc.
  - intros cs. now apply settles_detached.
Qed.

(** C3. A code that trims to the empty string leaves the container empty
    and starts nothing: on mount and on every later change of the code, the
    container only receives empty markup, the engine and the console are
    not called, the run has already returned, and whatever is resumed
    afterwards the container stays as it is. *)
Theorem blank_code_renders_nothing d :
  trim d = [] ->
  (forall id,
     let v1 := step qs (Mount d) (initial id) in
     innerHTML (container v1) = [] /\ engine v1 = [] /\ console v1 = [] /\
     effects v1 = [{| inv_code := d; cancelled := false; stage := Returned Fulfilled |}] /\
     Forall (fun op => op = SetInnerHTML []) (mutations (container v1)) /\
     forall cs, run qs (Settle <$> cs) v1 = v1) /\
  (forall v, reachable qs v -> phase v = Mounted -> d <> code v ->
     let v2 := step qs (Update d) v in
     innerHTML (container v2) = [] /\ engine v2 = engine v /\
     console v2 = console v /\
     effects v2 !! length (effects v)
     = Some {| inv_code := d; cancelled := false; stage := Returned Fulfilled |} /\
     (exists n, mutations (container v2)
                = replicate n (SetInnerHTML []) ++ mutations (container v)) /\
     forall cs, container (run qs (Settle <$> cs) v2) = container v2).
Proof.
  intros Hd. split.
  - intros id v1. subst v1. unfold step, effect, clear_container, renderDiagram.
    cbn -[trim]. rewrite Hd. cbn. repeat split; try reflexivity.
    + repeat constructor.
    + induction cs as [|c cs IH]; [reflexivity|]. cbn -[resume].
      replace (resume qs c _) with
        (step qs (Mount d) (initial id)); [| ].
      * unfold step, effect, clear_container, renderDiagram.
        cbn -[trim]. rewrite Hd. exact IH.
      * unfold step, effect, clear_container, renderDiagram.
        cbn -[trim]. rewrite Hd. cbn.
        destruct c as [[|k] r | [|k] r]; reflexivity.
  - intros v Hr Hp Hne v2.
    pose proof (reachable_Inv _ Hr) as Hinv. unfold Inv in Hinv. rewrite Hp in Hinv.
    destruct Hinv as (Ha & _).
    destruct (update_spec d v Hp Ha Hne) as (He & Hi & Hen & Hco & _). fold v2 in He, Hi, Hen, Hco.
    assert (El : effects v2 !! length (effects v)
                 = Some {| inv_code := d; cancelled := false; stage := Returned Fulfilled |}).
    { rewrite He, <- (started_blank d Hd).
      rewrite <- (length_alter set_cancelled (effects v) (current v)).
      apply list_lookup_middle. reflexivity. }
    repeat split; try assumption.
    + exists 3%nat. unfold v2, step. rewrite Hp.
      apply streq_false in Hne. rewrite Hne.
      unfold effect, cleanup, clear_container, renderDiagram. cbn -[trim].
      repeat (rewrite Ha; cbn -[trim]). rewrite Hd. reflexivity.
    + intros cs.
      assert (Hp2 : phase v2 = Mounted).
      { unfold v2, step. rewrite Hp. apply streq_false in Hne. rewrite Hne.
        destruct (effect_spec (with_code d (cleanup (current v) v))) as (-> & _).
        - destruct (cleanup_spec (current v) v) as (_ & _ & _ & Hca & _).
          cbn -[cleanup]. now rewrite Hca.
        - destruct (cleanup_spec (current v) v) as (Hcp & _).
          cbn -[cleanup]. now rewrite Hcp. }
      assert (Hk : current v2 = length (effects v)).
      { unfold current. rewrite He, length_app, length_alter. cbn. lia. }
      pose proof (Inv_others_cancelled v2
                    (reachable_Inv _ (reachable_step (Update d) v Hr)) Hp2) as Ho.
      rewrite Hk in Ho.
      rewrite (cancelled_runs_erased (length (effects v)) cs v2 v2 eq_refl eq_refl Ho).
      now rewrite (returned_run_inert _ cs v2 _ Fulfilled El).
Qed.

(** C4. When the import or the render of a run that was not cancelled
    rejects, the failure notice is written into the container, the error is
    logged, and the run returns normally; no run of a reachable view ever
    ends rejected. *)
Theorem render_error_contained v k inv err c :
  reachable qs v -> effects v !! k = Some inv -> cancelled inv = false ->
  (c = ImportSettled k (Rejects err) /\ stage inv = AwaitImport \/
   c = RenderSettled k (Rejects err) /\ stage inv = AwaitRender) ->
  let v' := step qs (Settle c) v in
  innerHTML (container v') = failure_notice /\
  mutations (container v') = SetInnerHTML failure_notice :: mutations (container v) /\
  console v' = ConsoleError (lit "[Mermaid] render error:") err :: console v /\
  engine v' = engine v /\
  effects v' !! k = Some (set_stage (Returned Fulfilled) inv) /\
  never_rejected v'.
Proof.
  intros Hr E Hc Hcase v'.
  assert (Hnr : never_rejected v') by now apply reachable_never_rejected, reachable_step.
  assert (Ha : attached (container v) = true).
  { pose proof (reachable_Inv _ Hr) as Hinv. unfold Inv in Hinv.
    destruct (phase v).
    - rewrite Hinv in E. discriminate.
    - tauto.
    - destruct Hinv as [_ Hall].
      rewrite (all_cancelled_lookup _ _ _ Hall E) in Hc. discriminate. }
  assert (Ev : v' = on_catch k err v).
  { unfold v'. destruct Hcase as [[-> Es] | [-> Es]]; cbn -[on_catch]; now rewrite E, Es. }
  clearbody v'. subst v'.
  destruct (on_catch_logs k err v) as [-> ->].
  rewrite on_catch_lookup, E, on_catch_container_eq.
  rewrite (is_cancelled_lookup _ _ _ E), Hc, Ha.
  repeat split; try reflexivity; assumption.
Qed.

(** C10. A commit whose code does not trim to the empty string starts a
    run that is suspended on the import; when the import resolves, however
    the other runs were resumed meanwhile, the engine is initialised with
    the fixed configuration, whose [securityLevel] is ['loose'], and then
    asked to render the trimmed code. No other configuration is ever
    passed to the engine. *)
Theorem engine_initialized_loose v e d :
  trim d <> [] -> reachable qs v ->
  (phase v = Fresh /\ e = Mount d \/
   phase v = Mounted /\ d <> code v /\ e = Update d) ->
  let k := length (effects v) in
  let v1 := step qs e v in
  effects v1 !! k = Some {| inv_code := d; cancelled := false; stage := AwaitImport |} /\
  (forall cs, Forall (fun c => target c <> k) cs ->
     let v2 := run qs (Settle <$> cs) v1 in
     engine (step qs (Settle (ImportSettled k (Resolves tt))) v2)
     = Render (idRef v) (trim d) :: Initialize config :: engine v2 /\
     forall cfg, Initialize cfg ∈ engine (step qs (Settle (ImportSettled k (Resolves tt))) v2) ->
                 securityLevel cfg = lit "loose") /\
  securityLevel config = lit "loose" /\
  flowchart_useMaxWidth config = false /\
  themeVariables_fontSize config = lit "16px".
Proof.
  intros Hd Hr Hcase k v1.
  assert (H1 : effects v1 !! k = Some (started d) /\ idRef v1 = idRef v).
  { pose proof (reachable_Inv _ Hr) as Hinv. unfold Inv in Hinv.
    destruct Hcase as [[Hp ->] | (Hp & Hne & ->)]; rewrite Hp in Hinv.
    - unfold v1, step. rewrite Hp.
      set (v0 := set_attached true (with_code d (with_phase Mounted v))).
      destruct (effect_spec v0) as (_ & _ & -> & _ & _ & -> & _); [reflexivity|].
      split; [|reflexivity]. apply list_lookup_middle. reflexivity.
    - destruct Hinv as (Ha & _).
      destruct (update_spec d v Hp Ha Hne) as (He & _ & _ & _ & Hid).
      fold v1 in He, Hid. split; [|exact Hid]. rewrite He.
      unfold k. rewrite <- (length_alter set_cancelled (effects v) (current v)).
      apply list_lookup_middle. reflexivity. }
  destruct H1 as [El Hid]. rewrite (started_nonblank d Hd) in El.
  split; [exact El|]. split; [|repeat split].
  intros cs Hcs v2. split.
  - destruct (settles_frame cs v1) as (_ & _ & Hid2 & _). fold v2 in Hid2.
    pose proof (settles_lookup_other k cs v1 Hcs) as El2. fold v2 in El2.
    rewrite El in El2. unfold step, resume. rewrite El2. cbn.
    now rewrite Hid2, Hid.
  - intros cfg Hin.
    assert (cfg = config) as ->; [|reflexivity].
    eapply reachable_engine; [|exact Hin].
    apply reachable_step, reachable_run, reachable_step, Hr.
Qed.

End Facts.

(** The lifecycle on concrete schedules. *)

Example render_applied :
  let r := {| svg := lit "<svg height='40'>A-B</svg>"; bindFunctions := Binds None |} in
  let v := run (fun _ => true)
             [Mount (lit " graph TD; A-->B "); Settle (ImportSettled 0 (Resolves tt));
              Settle (RenderSettled 0 (Resolves r))]
             (initial (lit "mermaid-k3")) in
  container v
  = {| attached := true; innerHTML := svg r;
       mutations := [BindFunctions;
                     SvgSetStyle (lit "width") (lit "100%");
                     SvgSetStyle (lit "minHeight") (lit "220px");
                     SvgRemoveAttribute (lit "height");
                     SetInnerHTML (svg r); SetInnerHTML []] |}
  /\ engine v = [Render (lit "mermaid-k3") (lit "graph TD; A-->B"); Initialize config]
  /\ effects v = [{| inv_code := lit " graph TD; A-->B "; cancelled := false;
                     stage := Returned Fulfilled |}].
Proof. repeat split; reflexivity. Qed.

Example late_first_render_discarded :
  let r1 := {| svg := lit "<svg>A-B</svg>"; bindFunctions := NoBinder |} in
  let r2 := {| svg := lit "<svg>C-D</svg>"; bindFunctions := NoBinder |} in
  let v := run (fun _ => false)
             [Mount (lit "graph TD; A-->B"); Settle (ImportSettled 0 (Resolves tt));
              Update (lit "graph LR; C-->D"); Settle (ImportSettled 1 (Resolves tt));
              Settle (RenderSettled 1 (Resolves r2));
              Settle (RenderSettled 0 (Resolves r1))]
             (initial (lit "mermaid-k3")) in
  innerHTML (container v) = svg r2 /\
  mutations (container v)
  = [SetInnerHTML (svg r2); SetInnerHTML []; SetInnerHTML []; SetInnerHTML []].
Proof. split; reflexivity. Qed.

Example binder_failure_shows_notice :
  let r := {| svg := lit "<svg>A-B</svg>";
              bindFunctions := Binds (Some (lit "callback is not defined")) |} in
  let v := run (fun _ => false)
             [Mount (lit "graph TD; A-->B"); Settle (ImportSettled 0 (Resolves tt));
              Settle (RenderSettled 0 (Resolves r))]
             (initial (lit "mermaid-k3")) in
  innerHTML (container v) = failure_notice /\
  console v = [ConsoleError (lit "[Mermaid] render error:") (lit "callback is not defined");
               ConsoleLog (lit "[Mermaid] rendering diagram, length =") 15].
Proof. split; reflexivity. Qed.

Lemma superseded_render_witness :
  let qs := fun _ : jsstring => true in
  let d1 := lit "graph TD; A-->B" in
  let d2 := lit "graph LR; C-->D" in
  let r1 := {| svg := lit "<svg>A-B</svg>"; bindFunctions := NoBinder |} in
  let r2 := {| svg := lit "<svg>C-D</svg>"; bindFunctions := Binds None |} in
  let v2 := run qs [Mount d1; Settle (ImportSettled 0 (Resolves tt)); Update d2]
              (initial (lit "mermaid-k3")) in
  let first := [ImportSettled 1 (Resolves tt); RenderSettled 0 (Resolves r1);
                RenderSettled 1 (Resolves r2)] in
  let last := [ImportSettled 1 (Resolves tt); RenderSettled 1 (Resolves r2);
               RenderSettled 0 (Resolves r1)] in
  d1 <> d2 /\ trim d2 <> [] /\
  innerHTML (container (run qs (Settle <$> first) v2)) = svg r2 /\
  innerHTML (container (run qs (Settle <$> last) v2)) = svg r2 /\
  container (run qs [Settle (RenderSettled 0 (Resolves r1))] v2) = container v2.
Proof.
  intros qs d1 d2 r1 r2 v2 first last.
  assert (Hd : d1 <> d2) by discriminate.
  assert (Hnb : trim d2 <> []) by discriminate.
  split; [exact Hd|]. split; [exact Hnb|].
  split; [|split].
  - destruct (superseded_render_never_applied qs (lit "mermaid-k3") d1 d2
                [ImportSettled 0 (Resolves tt)] first Hd)
      as (_ & _ & _ & _ & _ & _ & _ & _ & H).
    destruct (H Hnb [] tt [RenderSettled 0 (Resolves r1)] r2 [] eq_refl) as [Hm _].
    + repeat constructor; discriminate.
    + exact Hm.
  - destruct (superseded_render_never_applied qs (lit "mermaid-k3") d1 d2
                [ImportSettled 0 (Resolves tt)] last Hd)
      as (_ & _ & _ & _ & _ & _ & _ & _ & H).
    destruct (H Hnb [] tt [] r2 [RenderSettled 0 (Resolves r1)] eq_refl) as [Hm _].
    + constructor.
    + exact Hm.
  - destruct (superseded_render_never_applied qs (lit "mermaid-k3") d1 d2
                [ImportSettled 0 (Resolves tt)] [RenderSettled 0 (Resolves r1)] Hd)
      as (_ & _ & _ & _ & _ & _ & _ & H & _).
    apply H. repeat constructor; discriminate.
Defined.

Lemma unmount_witness :
  let qs := fun _ : jsstring => true in
  let r := {| svg := lit "<svg>A-B</svg>"; bindFunctions := Binds None |} in
  let v := run qs [Mount (lit "graph TD; A-->B"); Settle (ImportSettled 0 (Resolves tt))]
             (initial (lit "mermaid-k3")) in
  let v' := step qs (Unmount true) v in
  phase v = Mounted /\
  (exists inv, effects v !! current v = Some inv /\ pending inv = true) /\
  innerHTML (container v') = [] /\
  container (run qs [Settle (RenderSettled 0 (Resolves r))] v') = container v'.
Proof.
  intros qs r v v'.
  assert (Hr : reachable qs v) by (eexists _, _; reflexivity).
  assert (Hp : exists inv, effects v !! current v = Some inv /\ pending inv = true)
    by (eexists; split; reflexivity).
  destruct (unmount_discards_pending_render qs v true Hr eq_refl) as (_ & _ & Hi & Hc).
  split; [reflexivity|]. split; [exact Hp|]. split.
  - apply Hi. right. exact Hp.
  - apply (Hc [RenderSettled 0 (Resolves r)]).
Defined.

Lemma blank_code_witness :
  let qs := fun _ : jsstring => true in
  let d := [32; 10; 9]%N in
  trim d = [] /\
  innerHTML (container (step qs (Mount d) (initial (lit "mermaid-k3")))) = [] /\
  engine (step qs (Mount d) (initial (lit "mermaid-k3"))) = [].
Proof.
  intros qs d.
  destruct (blank_code_renders_nothing qs d eq_refl) as [H _].
  destruct (H (lit "mermaid-k3")) as (Hi & He & _).
  split; [reflexivity|]. split; [exact Hi|exact He].
Defined.

Lemma render_error_witness :
  let qs := fun _ : jsstring => true in
  let d := lit "graph TD; A--" in
  let v := run qs [Mount d; Settle (ImportSettled 0 (Resolves tt))]
             (initial (lit "mermaid-k3")) in
  let c := RenderSettled 0 (Rejects (lit "Parse error on line 1")) in
  innerHTML (container (step qs (Settle c) v)) = failure_notice /\
  never_rejected (step qs (Settle c) v).
Proof.
  intros qs d v c.
  assert (Hr : reachable qs v) by (eexists _, _; reflexivity).
  destruct (render_error_contained qs v 0
              {| inv_code := d; cancelled := false; stage := AwaitRender |}
              (lit "Parse error on line 1") c Hr eq_refl eq_refl)
    as (Hi & _ & _ & _ & _ & Hn).
  - right. split; reflexivity.
  - split; [exact Hi|exact Hn].
Defined.

Lemma engine_initialized_witness :
  let qs := fun _ : jsstring => true in
  let d := lit "  graph TD; A-->B  " in
  let v := initial (lit "mermaid-k3") in
  trim d <> [] /\
  engine (run qs [Mount d; Settle (ImportSettled 0 (Resolves tt))] v)
  = [Render (lit "mermaid-k3") (lit "graph TD; A-->B"); Initialize config].
Proof.
  intros qs d v.
  assert (Hd : trim d <> []) by discriminate.
  assert (Hr : reachable qs v) by (exists (lit "mermaid-k3"), []; reflexivity).
  destruct (engine_initialized_loose qs v (Mount d) d Hd Hr) as (_ & H & _).
  - left. split; reflexivity.
  - split; [exact Hd|]. destruct (H [] (Forall_nil _)) as [He _]. exact He.
Defined.

End DiagramFacts.

(** ** The prompt page *)
Module PageFacts.
Import JS Page JSFacts.

Lemma blank_not_truthy (p : jsstring) :
  forallb is_ws p = true -> negb (truthy (trim p)) = true.
Proof. intros H. apply trim_nil in H. now rewrite H. Qed.

Lemma nonblank_truthy (p : jsstring) :
  trim p <> [] -> negb (truthy (trim p)) = false.
Proof. intros H. destruct (trim p); [congruence|reflexivity]. Qed.

(** C5. A prompt that is empty or consists of white space only makes
    [submitPrompt] return before [fetch]: the state is unchanged and no
    request is issued, whatever the network would have answered. *)
Theorem blank_prompt_sends_nothing cfg fetch h :
  forallb is_ws (prompt h) = true ->
  submit_start cfg h = (h, None) /\
  submitPrompt cfg fetch h = (h, [], Fulfilled).
Proof.
  intros H. unfold submitPrompt, submit_start.
  rewrite (blank_not_truthy _ H). split; reflexivity.
Qed.

Lemma blank_prompt_witness :
  let h := setPrompt [32; 9; 10; 12288]%N initial in
  forallb is_ws (prompt h) = true /\
  submitPrompt {| apiHost := []; username := None; password := None; auth := [] |}
    (fun _ => Rejects []) h = (h, [], Fulfilled).
Proof.
  intros h. split; [reflexivity|].
  apply (blank_prompt_sends_nothing _ _ h). reflexivity.
Defined.

Example submission_received :
  let s1 := {| screen_id := lit "s1"; screen_type := lit "form";
               title := lit "One"; functional_description := [] |} in
  let f1 := {| flow_slug := lit "a"; name := lit "First";
               flow_screens := [lit "s1"] |} in
  let r := {| screen_flows := [f1]; screens := [s1];
              global_mermaid := lit "graph TD; A-->B" |} in
  let cfg := {| apiHost := []; username := None; password := None; auth := [] |} in
  submitPrompt cfg (fun _ => Resolves (Ok 200 (Resolves r)))
    (setPrompt (lit "online sports classes") initial)
  = ({| prompt := lit "online sports classes"; yanaResult := Some r;
        responseStatus := received; errorMessage := None;
        activeFlowSlug := Some (lit "a"); activeScreenId := Some (lit "s1") |},
     [{| url := lit "/api/v1/search"; method := lit "POST";
         headers := [(lit "Content-Type", lit "application/json")];
         body := lit "{" ++ dquote ++ lit "query" ++ dquote ++ lit ":" ++ dquote
                 ++ lit "online sports classes" ++ dquote ++ lit "}" |}],
     Fulfilled).
Proof. reflexivity. Qed.

Example submission_refused :
  let cfg := {| apiHost := []; username := None; password := None; auth := [] |} in
  let body := Some {| error := Some (lit "quota exceeded") |} in
  let h := fst (fst (submitPrompt cfg (fun _ => Resolves (NotOk 429 (Resolves body)))
                       (setPrompt (lit "online sports classes") initial))) in
  responseStatus h = error_status /\ errorMessage h = Some (lit "quota exceeded").
Proof. split; reflexivity. Qed.

(** C6 as stated fails: [submitPrompt] on a blank prompt settles normally
    instead of failing with [EmptyInputError]. *)
Lemma submit_contract_counterexample :
  ~ (forall cfg fetch h,
       let '(h', _, s) := submitPrompt cfg fetch h in
       spec_submit_outcome cfg fetch h h' s).
Proof.
  intros H.
  specialize (H {| apiHost := []; username := None; password := None; auth := [] |}
                (fun _ => Rejects []) initial).
  vm_compute in H. discriminate H.
Qed.

(** C6, amended. [submitPrompt] always settles normally. A blank prompt
    changes nothing and sends nothing. Otherwise one request is sent, and a
    transport failure, a non-2xx response or a 2xx response whose body does
    not parse sets the status to ['error'] with a message and keeps the
    stored result, while a 2xx response with a parsed body stores it and
    sets the status to ['received']. *)
Theorem submit_settles_normally cfg fetch h :
  let '(h', reqs, s) := submitPrompt cfg fetch h in
  s = Fulfilled /\
  if negb (truthy (trim (prompt h))) then h' = h /\ reqs = []
  else
    reqs = [request cfg (prompt h)] /\ prompt h' = prompt h /\
    match fetch (request cfg (prompt h)) with
    | Rejects m | Resolves (Ok _ (Rejects m)) =>
        responseStatus h' = error_status /\
        errorMessage h' = Some (if truthy m then m else lit "Unknown error") /\
        yanaResult h' = yanaResult h
    | Resolves (NotOk st json) =>
        responseStatus h' = error_status /\
        errorMessage h'
        = Some (failure_message st match json with
                                   | Resolves b => b
                                   | Rejects _ => None
                                   end) /\
        yanaResult h' = yanaResult h
    | Resolves (Ok _ (Resolves data)) =>
        responseStatus h' = received /\ errorMessage h' = None /\
        yanaResult h' = Some data
    end.
Proof.
  unfold submitPrompt, submit_start.
  destruct (negb (truthy (trim (prompt h)))); [easy|].
  unfold submit_finish.
  destruct (fetch (request cfg (prompt h))) as [[st [data | m] | st json] | m];
    try easy.
  destruct (screen_flows data); easy.
Qed.

(** C8 as stated fails: an [error] string that is present but empty is not
    the message surfaced. *)
Lemma empty_error_string_counterexample :
  ~ (forall h st s,
       errorMessage (fst (submit_finish
                            (Resolves (NotOk st (Resolves (Some {| error := Some s |})))) h))
       = Some s).
Proof.
  intros H. specialize (H initial 500%N []). vm_compute in H. discriminate H.
Qed.

(** C8, amended. A non-2xx response is handled without throwing: the
    status becomes ['error'], the message is the body's [error] string when
    it is present and not empty, and ['Request failed with <status>']
    otherwise (no [error], an empty one, a [null] or unparseable body); the
    stored result, the selected flow and screen and the prompt are left
    as they were. *)
Theorem non_ok_response_handled h st json :
  let '(h', s) := submit_finish (Resolves (NotOk st json)) h in
  s = Fulfilled /\
  responseStatus h' = error_status /\
  errorMessage h'
  = Some match json with
         | Resolves (Some {| error := Some (c :: m) |}) => c :: m
         | _ => lit "Request failed with " ++ of_number st
         end /\
  yanaResult h' = yanaResult h /\
  activeFlowSlug h' = activeFlowSlug h /\
  activeScreenId h' = activeScreenId h /\
  prompt h' = prompt h.
Proof.
  unfold submit_finish, failure_message.
  destruct json as [[[[[|c m]|]]|] | m]; easy.
Qed.

(** C7. Once the module has loaded, a prompt that is not blank is sent as
    a [POST] to the configured host followed by [/api/v1/search], with the
    JSON object whose only member [query] is the prompt as typed, a JSON
    content type, and an [Authorization] header that is ['Basic '] followed
    by the base64 of [username:password] exactly when a non-empty username
    and a non-empty password come from the environment; otherwise there is
    no such header. *)
Theorem request_shape env cfg h :
  load env = Some cfg -> trim (prompt h) <> [] ->
  exists h1 req,
    submit_start cfg h = (h1, Some req) /\
    url req
    = or_empty (or_else (API_HOST env) (NEXT_PUBLIC_API_HOST env))
      ++ lit "/api/v1/search" /\
    method req = lit "POST" /\
    body req
    = lit "{" ++ dquote ++ lit "query" ++ dquote ++ lit ":"
      ++ quoteJSONString (prompt h) ++ lit "}" /\
    header (lit "Content-Type") (headers req) = Some (lit "application/json") /\
    length (headers req) <= 2 /\
    header (lit "Authorization") (headers req)
    = match or_else (USERNAME env) (NEXT_PUBLIC_USERNAME env),
            or_else (PASSWORD env) (NEXT_PUBLIC_PASSWORD env) with
      | Some (u :: us), Some (p :: ps) =>
          Some (lit "Basic " ++ base64 ((u :: us) ++ lit ":" ++ (p :: ps)))
      | _, _ => None
      end.
Proof.
  intros Hl Hp. unfold submit_start. rewrite (nonblank_truthy _ Hp).
  eexists _, _. split; [reflexivity|].
  unfold load in Hl.
  set (user := or_else (USERNAME env) (NEXT_PUBLIC_USERNAME env)) in *.
  set (pass := or_else (PASSWORD env) (NEXT_PUBLIC_PASSWORD env)) in *.
  destruct user as [[|u us]|], pass as [[|p ps]|]; cbn -[lit btoa base64] in Hl;
    try (injection Hl as <-; repeat split; solve [reflexivity | cbn; lia]).
  unfold btoa in Hl. destruct (forallb _ _); [|discriminate].
  injection Hl as <-. repeat split; solve [reflexivity | cbn; lia].
Qed.

Lemma request_shape_witness :
  let env := {| API_HOST := Some (lit "https://yana.example");
                NEXT_PUBLIC_API_HOST := None;
                USERNAME := None; NEXT_PUBLIC_USERNAME := Some (lit "user");
                PASSWORD := Some (lit "pass"); NEXT_PUBLIC_PASSWORD := None |} in
  let cfg := {| apiHost := lit "https://yana.example";
                username := Some (lit "user"); password := Some (lit "pass");
                auth := lit "Basic dXNlcjpwYXNz" |} in
  let h := setPrompt (lit "online sports classes") initial in
  load env = Some cfg /\ trim (prompt h) <> [] /\
  exists h1 req,
    submit_start cfg h = (h1, Some req) /\
    url req = lit "https://yana.example/api/v1/search" /\
    method req = lit "POST" /\
    body req
    = lit "{" ++ dquote ++ lit "query" ++ dquote ++ lit ":" ++ dquote
      ++ lit "online sports classes" ++ dquote ++ lit "}" /\
    header (lit "Content-Type") (headers req) = Some (lit "application/json") /\
    length (headers req) <= 2 /\
    header (lit "Authorization") (headers req) = Some (lit "Basic dXNlcjpwYXNz").
Proof.
  intros env cfg h.
  split; [reflexivity|]. split; [discriminate|].
  apply (request_shape env cfg h); [reflexivity|discriminate].
Defined.


Lemma find_none_false {A} (l : list A) : List.find (fun _ => false) l = None.
Proof. induction l; auto. Qed.

Lemma find_screen_id r id s : find_screen r id = Some s -> screen_id s = id.
Proof.
  unfold find_screen. intros H. apply find_some in H as [_ H].
  now apply streq_true in H.
Qed.

Lemma find_screen_none r id s :
  find_screen r id = None -> In s (screens r) -> screen_id s <> id.
Proof.
  unfold find_screen. intros H Hin. apply streq_false.
  exact (find_none _ _ H s Hin).
Qed.

Lemma find_screen_in r id s : find_screen r id = Some s -> In s (screens r).
Proof. unfold find_screen. intros H. now apply find_some in H. Qed.

Lemma find_absent_id r id (ids : list jsstring) :
  find_screen r id = None ->
  List.find (fun s => streq id (screen_id s)) (omap (find_screen r) ids) = None.
Proof.
  intros Hn. induction ids as [|i ids IH]; [reflexivity|]. cbn.
  destruct (find_screen r i) as [s|] eqn:E; [|exact IH]. cbn.
  destruct (streq id (screen_id s)) eqn:Es; [|exact IH].
  apply streq_true in Es.
  destruct (find_screen_none r id s Hn (find_screen_in _ _ _ E)). congruence.
Qed.

Lemma find_absent_id_all r id :
  find_screen r id = None ->
  List.find (fun s => streq id (screen_id s)) (screens r) = None.
Proof.
  unfold find_screen. intros H.
  destruct (List.find (fun s => streq id (screen_id s)) (screens r)) as [s|] eqn:E;
    [|reflexivity].
  apply find_some in E as [Hin Hs]. apply streq_true in Hs.
  pose proof (find_none _ _ H s Hin) as Hf. apply streq_false in Hf. congruence.
Qed.

(** C9 as stated fails: of two flows that share a slug, selecting the
    second shows the screens of the first. *)
Lemma first_slug_counterexample :
  ~ (forall r flow h,
       yanaResult h = Some r -> In flow (screen_flows r) ->
       screensForFlow (selectFlow flow h)
       = omap (find_screen r) (flow_screens flow)).
Proof.
  intros H.
  set (s1 := {| screen_id := lit "s1"; screen_type := lit "form";
                title := lit "One"; functional_description := [] |}).
  set (s2 := {| screen_id := lit "s2"; screen_type := lit "form";
                title := lit "Two"; functional_description := [] |}).
  set (f1 := {| flow_slug := lit "a"; name := lit "First"; flow_screens := [lit "s1"] |}).
  set (f2 := {| flow_slug := lit "a"; name := lit "Second"; flow_screens := [lit "s2"] |}).
  set (r := {| screen_flows := [f1; f2]; screens := [s1; s2]; global_mermaid := [] |}).
  specialize (H r f2 (setYanaResult (Some r) initial) eq_refl).
  assert (Hin : In f2 (screen_flows r)) by (right; left; reflexivity).
  specialize (H Hin). vm_compute in H. discriminate H.
Qed.

(** C9, amended. Selecting a flow that is the first of the result to bear
    its slug makes it the active flow; the screens shown are its screen ids
    resolved in order, each to the first screen of the result bearing it,
    ids that resolve to nothing dropped; and the active screen is the first
    screen shown, which is the flow's first screen when its first id
    resolves. *)
Theorem selecting_flow_shows_its_screens r flow h :
  yanaResult h = Some r ->
  List.find (fun f => streq (flow_slug flow) (flow_slug f)) (screen_flows r) = Some flow ->
  let h' := selectFlow flow h in
  activeFlow h' = Some flow /\
  screensForFlow h' = omap (find_screen r) (flow_screens flow) /\
  activeScreen h' = head (screensForFlow h') /\
  (forall id s, head (flow_screens flow) = Some id -> find_screen r id = Some s ->
                activeScreen h' = Some s).
Proof.
  intros Hr Hf h'.
  assert (Ey : yanaResult h' = Some r) by exact Hr.
  assert (Ef : activeFlowSlug h' = Some (flow_slug flow)) by reflexivity.
  assert (Ei : activeScreenId h' = or_null (head (flow_screens flow))) by reflexivity.
  clearbody h'.
  assert (Ha : activeFlow h' = Some flow).
  { unfold activeFlow, flows. rewrite Ey, Ef. unfold nstreq. now rewrite Hf. }
  assert (Hs : screensForFlow h' = omap (find_screen r) (flow_screens flow)).
  { unfold screensForFlow. now rewrite Ha, Ey. }
  assert (Hact : activeScreen h' = head (screensForFlow h')).
  { unfold activeScreen, all_screens. rewrite Hs, Ey, Ei.
    destruct (flow_screens flow) as [|id ids].
    - cbn [head or_null otruthy nstreq]. rewrite !find_none_false. reflexivity.
    - destruct id as [|c id].
      + cbn [head or_null otruthy truthy nstreq].
        rewrite !find_none_false. reflexivity.
      + cbn [head or_null otruthy truthy nstreq].
        change (omap (find_screen r) ((c :: id) :: ids))
          with (match find_screen r (c :: id) with
                | Some s => s :: omap (find_screen r) ids
                | None => omap (find_screen r) ids
                end).
        destruct (find_screen r (c :: id)) as [s|] eqn:E.
        * cbn [List.find head or_found].
          rewrite (find_screen_id _ _ _ E), streq_refl. reflexivity.
        * rewrite (find_absent_id _ _ _ E), (find_absent_id_all _ _ E). reflexivity. }
  repeat split; try assumption.
  intros id s Hh Hfs. rewrite Hact, Hs.
  destruct (flow_screens flow) as [|i ids]; [discriminate|].
  cbn in Hh. injection Hh as ->. cbn. now rewrite Hfs.
Qed.

Lemma selecting_flow_witness :
  let s1 := {| screen_id := lit "s1"; screen_type := lit "form";
               title := lit "One"; functional_description := [] |} in
  let s2 := {| screen_id := lit "s2"; screen_type := lit "form";
               title := lit "Two"; functional_description := [] |} in
  let s2' := {| screen_id := lit "s2"; screen_type := lit "list";
                title := lit "Two again"; functional_description := [] |} in
  let f1 := {| flow_slug := lit "a"; name := lit "First"; flow_screens := [lit "s1"] |} in
  let f2 := {| flow_slug := lit "b"; name := lit "Second";
               flow_screens := [lit "s2"; lit "missing"; lit "s1"] |} in
  let r := {| screen_flows := [f1; f2]; screens := [s1; s2; s2'];
              global_mermaid := lit "graph TD; A-->B" |} in
  let h' := selectFlow f2 (fst (submit_finish (Resolves (Ok 200 (Resolves r))) initial)) in
  screensForFlow h' = [s2; s1] /\ activeScreen h' = Some s2.
Proof.
  intros s1 s2 s2' f1 f2 r h'.
  destruct (selecting_flow_shows_its_screens r f2
              (fst (submit_finish (Resolves (Ok 200 (Resolves r))) initial)))
    as (_ & Hs & _ & Ha); [reflexivity|reflexivity|].
  split; [exact Hs|]. apply (Ha (lit "s2")); reflexivity.
Defined.

End PageFacts.

(** ** The diagram view: the engine and the container *)
Module LifecycleFacts.
Import JS Diagram DiagramLog JSFacts DiagramFacts.

Section Lifecycle.
Variable qs : jsstring -> bool.

(** A run that is not cancelled is the latest run of a mounted view whose
    container is attached. *)
Lemma live_run_current v k inv :
  reachable qs v -> effects v !! k = Some inv -> cancelled inv = false ->
  phase v = Mounted /\ attached (container v) = true /\ k = current v.
Proof.
  intros Hr E Hc. pose proof (reachable_Inv qs v Hr) as Hinv.
  unfold Inv in Hinv. destruct (phase v) eqn:Ep.
  - rewrite Hinv in E. discriminate.
  - destruct Hinv as (Ha & old & cur & Eeff & Hold & _).
    repeat split; [exact Ha|].
    rewrite (current_snoc v old cur Eeff).
    rewrite Eeff in E. apply lookup_app_Some in E as [E | [Hge E]].
    + rewrite (all_cancelled_lookup _ _ _ Hold E) in Hc. discriminate.
    + destruct (k - length old)%nat as [|n] eqn:En; [lia|]. destruct n; discriminate.
  - destruct Hinv as [_ Hall].
    rewrite (all_cancelled_lookup _ _ _ Hall E) in Hc. discriminate.
Qed.

Lemma normalize_svg_container html v :
  container (normalize_svg qs html v)
  = {| attached := attached (container v); innerHTML := innerHTML (container v);
       mutations := normalization (qs html) ++ mutations (container v) |}.
Proof.
  unfold normalize_svg, normalization. destruct (qs html); cbn -[lit]; [reflexivity|].
  now destruct (container v).
Qed.

(** X1. A resolved render of the live run is mounted.  In a reachable view,
    when the render of a run that is not cancelled resolves and the
    engine's binder, if there is one, does not throw, the container's markup
    becomes the rendered svg.  The writes are, in order: the assignment of
    the markup; the normalisation of the svg root when [querySelector]
    finds one (height attribute removed, min-height 220px, width 100%);
    the binding of the interactive functions when the engine gave a binder.
    The run returns normally, and neither the engine nor the console is
    called. *)
Theorem live_render_mounted v k inv r :
  reachable qs v -> effects v !! k = Some inv -> cancelled inv = false ->
  stage inv = AwaitRender ->
  (forall err, bindFunctions r <> Binds (Some err)) ->
  let v' := step qs (Settle (RenderSettled k (Resolves r))) v in
  innerHTML (container v') = svg r /\
  mutations (container v')
  = match bindFunctions r with
    | Binds _ => [BindFunctions]
    | NoBinder => []
    end ++ normalization (qs (svg r)) ++ SetInnerHTML (svg r) :: mutations (container v) /\
  effects v' !! k = Some (set_stage (Returned Fulfilled) inv) /\
  engine v' = engine v /\ console v' = console v.
Proof.
  intros Hr E Hc Es Hb v'.
  destruct (live_run_current v k inv Hr E Hc) as (_ & Ha & _).
  unfold v', step, resume. rewrite E, Es. unfold resume_render.
  rewrite (is_cancelled_lookup _ _ _ E), Hc, Ha. cbn [orb negb].
  destruct (normalize_svg_frame qs (svg r) (assign_innerHTML (svg r) v))
    as (_ & _ & _ & _ & Hi & He & Hen & Hco).
  pose proof (normalize_svg_container (svg r) (assign_innerHTML (svg r) v)) as Hn.
  destruct (bindFunctions r) as [|[err|]].
  - cbn -[normalize_svg]. rewrite list_lookup_alter_eq, He, Hn, Hen, Hco. cbn.
    now rewrite E.
  - destruct (Hb err eq_refl).
  - cbn -[normalize_svg]. rewrite list_lookup_alter_eq, He, Hn, Hen, Hco. cbn.
    now rewrite E.
Qed.

(** X2. When [bindFunctions] throws, the markup already mounted and
    normalised is replaced by the failure notice, the error is logged, and
    the run still returns normally. *)
Theorem binder_failure_contained v k inv r err :
  reachable qs v -> effects v !! k = Some inv -> cancelled inv = false ->
  stage inv = AwaitRender -> bindFunctions r = Binds (Some err) ->
  let v' := step qs (Settle (RenderSettled k (Resolves r))) v in
  innerHTML (container v') = failure_notice /\
  mutations (container v')
  = SetInnerHTML failure_notice
    :: normalization (qs (svg r)) ++ SetInnerHTML (svg r) :: mutations (container v) /\
  console v' = ConsoleError (lit "[Mermaid] render error:") err :: console v /\
  effects v' !! k = Some (set_stage (Returned Fulfilled) inv) /\
  engine v' = engine v.
Proof.
  intros Hr E Hc Es Hb v'.
  destruct (live_run_current v k inv Hr E Hc) as (_ & Ha & _).
  unfold v', step, resume. rewrite E, Es. unfold resume_render.
  rewrite (is_cancelled_lookup _ _ _ E), Hc, Ha, Hb. cbn [orb negb].
  set (v1 := normalize_svg qs (svg r) (assign_innerHTML (svg r) v)).
  destruct (normalize_svg_frame qs (svg r) (assign_innerHTML (svg r) v))
    as (_ & _ & _ & Hat & Hi & He & Hen & Hco). fold v1 in Hat, Hi, He, Hen, Hco.
  pose proof (normalize_svg_container (svg r) (assign_innerHTML (svg r) v)) as Hn.
  fold v1 in Hn.
  destruct (on_catch_logs k err v1) as [-> ->].
  rewrite on_catch_lookup, on_catch_container_eq.
  assert (Hx : is_cancelled k v1 = false).
  { unfold is_cancelled. rewrite He. cbn. now rewrite E. }
  rewrite Hx, Hat, He, Hn, Hen, Hco. cbn -[lit failure_notice normalization].
  rewrite Ha, E. cbn -[lit failure_notice normalization]. easy.
Qed.


(** X3. At most one run is live: in a reachable view two runs that are not
    cancelled are the same run, the latest one, and the view is mounted. *)
Theorem single_live_run v j k ij ik :
  reachable qs v ->
  effects v !! j = Some ij -> cancelled ij = false ->
  effects v !! k = Some ik -> cancelled ik = false ->
  j = k /\ k = current v /\ phase v = Mounted.
Proof.
  intros Hr Ej Hj Ek Hk.
  destruct (live_run_current v j ij Hr Ej Hj) as (Hp & _ & ->).
  destruct (live_run_current v k ik Hr Ek Hk) as (_ & _ & ->).
  auto.
Qed.

(** X4. Only the live run writes: if a resumption changes the container at
    all, its markup or its log of writes, then the view is mounted and the
    resumed run is its latest run, which is not cancelled. *)
Theorem only_live_run_writes v c :
  reachable qs v ->
  container (step qs (Settle c) v) <> container v ->
  phase v = Mounted /\ target c = current v /\ is_cancelled (target c) v = false.
Proof.
  intros Hr Hne. cbn -[resume] in Hne.
  destruct (effects v !! target c) as [inv|] eqn:E.
  - destruct (cancelled inv) eqn:Hc.
    + destruct Hne. apply resume_container. left.
      now rewrite (is_cancelled_lookup _ _ _ E).
    + destruct (live_run_current v _ inv Hr E Hc) as (Hp & _ & Hk).
      now rewrite (is_cancelled_lookup _ _ _ E).
  - destruct Hne. destruct c; cbn in *; now rewrite E.
Qed.

(** X5. While the latest run of a mounted view is still suspended, on the
    import or on the render, the container is empty and that run renders
    the current code: no earlier diagram stays visible while a new one is
    being rendered. *)
Theorem pending_render_shows_nothing v inv :
  reachable qs v -> phase v = Mounted ->
  effects v !! current v = Some inv -> pending inv = true ->
  innerHTML (container v) = [] /\ cancelled inv = false /\ inv_code inv = code v.
Proof.
  intros Hr Hp E Hpe. pose proof (reachable_Inv qs v Hr) as Hinv.
  unfold Inv in Hinv. rewrite Hp in Hinv.
  destruct Hinv as (_ & old & cur & Eeff & _ & Hc & Hcode & Hpend).
  rewrite (current_snoc v old cur Eeff), Eeff, list_lookup_middle in E by reflexivity.
  injection E as <-. auto.
Qed.

(** X6. Cancelling does not stop a run, it only mutes it.  The resumptions
    of a cancelled run never change the container; but when its import
    resolves it still initialises the engine and asks it to render its
    trimmed code (the flag is read only after the render), and when one of
    its awaits rejects, the error is still logged and the run returns
    normally. *)
Theorem cancelled_run_is_drained v k inv :
  effects v !! k = Some inv -> cancelled inv = true ->
  (forall c, target c = k -> container (step qs (Settle c) v) = container v) /\
  (stage inv = AwaitImport ->
   engine (step qs (Settle (ImportSettled k (Resolves tt))) v)
   = Render (idRef v) (trim (inv_code inv)) :: Initialize config :: engine v) /\
  (forall err c,
     c = ImportSettled k (Rejects err) /\ stage inv = AwaitImport \/
     c = RenderSettled k (Rejects err) /\ stage inv = AwaitRender ->
     console (step qs (Settle c) v)
     = ConsoleError (lit "[Mermaid] render error:") err :: console v /\
     effects (step qs (Settle c) v) !! k = Some (set_stage (Returned Fulfilled) inv)).
Proof.
  intros E Hc. split; [|split].
  - intros c <-. cbn -[resume]. apply resume_container. left.
    now rewrite (is_cancelled_lookup _ _ _ E).
  - intros Es. unfold step, resume. rewrite E, Es. reflexivity.
  - intros err c Hcase.
    assert (Ev : step qs (Settle c) v = on_catch k err v).
    { destruct Hcase as [[-> Es] | [-> Es]]; cbn -[on_catch]; now rewrite E, Es. }
    rewrite Ev, on_catch_lookup, E. now destruct (on_catch_logs k err v) as [_ ->].
Qed.

Lemma removed_frozen es : forall v,
  phase v = Removed -> attached (container v) = false ->
  phase (run qs es v) = Removed /\ container (run qs es v) = container v.
Proof.
  induction es as [|e es IH]; intros v Hp Ha; [easy|].
  cbn -[step].
  assert (H : phase (step qs e v) = Removed /\ container (step qs e v) = container v).
  { destruct e as [c | c | b | c]; unfold step; rewrite ?Hp; try easy.
    destruct (resume_frame qs c v) as (-> & _). split; [exact Hp|].
    apply resume_container. now right. }
  destruct H as [Hp' Hc'].
  destruct (IH (step qs e v)) as [-> ->]; try easy. now rewrite Hc'.
Qed.

(** X7. Unmounting is final: once a reachable view is removed, no event
    (mount, update, unmount or resumption) changes its phase or its
    container. *)
Theorem removed_is_final v es :
  reachable qs v -> phase v = Removed ->
  phase (run qs es v) = Removed /\ container (run qs es v) = container v.
Proof.
  intros Hr Hp. pose proof (reachable_Inv qs v Hr) as Hinv.
  unfold Inv in Hinv. rewrite Hp in Hinv. destruct Hinv as [Ha _].
  now apply removed_frozen.
Qed.

(** *** Engine calls *)

Lemma awaiting_import_snoc l x :
  awaiting_import (l ++ [x])
  = (awaiting_import l + match stage x with AwaitImport => 1 | _ => 0 end)%nat.
Proof.
  induction l as [|y l IH]; cbn.
  - destruct (stage x); reflexivity.
  - rewrite IH. destruct (stage y); reflexivity.
Qed.

Lemma awaiting_import_alter_same f k l :
  (forall i, stage (f i) = stage i) ->
  awaiting_import (alter f k l) = awaiting_import l.
Proof.
  intros Hf. revert k. induction l as [|y l IH]; intros [|k]; cbn; try reflexivity.
  - now rewrite Hf.
  - now rewrite IH.
Qed.

Lemma awaiting_import_alter_le s k l :
  s <> AwaitImport ->
  (awaiting_import (alter (set_stage s) k l) <= awaiting_import l)%nat.
Proof.
  intros Hs. revert k. induction l as [|y l IH]; intros [|k]; cbn; try lia.
  - destruct s; [congruence| |]; destruct (stage y); lia.
  - specialize (IH k). destruct (stage y); lia.
Qed.

Lemma awaiting_import_alter_lt s k l inv :
  s <> AwaitImport -> l !! k = Some inv -> stage inv = AwaitImport ->
  (S (awaiting_import (alter (set_stage s) k l)) = awaiting_import l)%nat.
Proof.
  intros Hs. revert k. induction l as [|y l IH]; intros [|k] E Es; cbn in *;
    try discriminate.
  - injection E as ->. rewrite Es. destruct s; [congruence| |]; reflexivity.
  - rewrite <- (IH k E Es). destruct (stage y); reflexivity.
Qed.

(** What one resumption does to the engine: nothing, or, resuming a run
    suspended on the import, one [initialize] followed by one [render] of
    that run's trimmed code under the component's id. *)
Lemma resume_engine c v :
  (engine (resume qs c v) = engine v /\
   (effects (resume qs c v) = effects v \/
    exists s, s <> AwaitImport /\
      effects (resume qs c v) = alter (set_stage s) (target c) (effects v))) \/
  (exists inv, effects v !! target c = Some inv /\ stage inv = AwaitImport /\
     engine (resume qs c v)
     = Render (idRef v) (trim (inv_code inv)) :: Initialize config :: engine v /\
     effects (resume qs c v) = alter (set_stage AwaitRender) (target c) (effects v)).
Proof.
  destruct c as [k r | k r]; cbn -[on_catch resume_render trim].
  - destruct (effects v !! k) as [inv|] eqn:E; [|now left; split; [|left]].
    destruct (stage inv) eqn:Es; try (now left; split; [|left]).
    destruct r as [u | err]; unfold resume_import.
    + right. exists inv. easy.
    + left. destruct (on_catch_logs k err v) as [-> _].
      destruct (on_catch_frame k err v) as (_ & _ & _ & _ & ->).
      split; [reflexivity|]. right. eexists. split; [|reflexivity]. discriminate.
  - destruct (effects v !! k) as [inv|] eqn:E; [|now left; split; [|left]].
    destruct (stage inv) eqn:Es; try (now left; split; [|left]).
    left. split.
    + pose proof (step_engine qs (Settle (RenderSettled k r)) v) as [H | (i & t & H)].
      * cbn -[resume_render] in H. now rewrite E, Es in H.
      * exfalso. cbn -[resume_render] in H. rewrite E, Es in H.
        unfold resume_render in H. destruct r as [out | err].
        -- destruct (is_cancelled k v || negb _); cbn -[normalize_svg on_catch] in H.
           { apply (f_equal length) in H. cbn in H. lia. }
           destruct (normalize_svg_frame qs (svg out) (assign_innerHTML (svg out) v))
             as (_ & _ & _ & _ & _ & _ & Hen & _).
           destruct (bindFunctions out) as [|[err|]].
           ++ cbn -[normalize_svg] in H. rewrite Hen in H.
              apply (f_equal length) in H. cbn in H. lia.
           ++ destruct (on_catch_logs k err
                          (normalize_svg qs (svg out) (assign_innerHTML (svg out) v)))
                as [He _].
              rewrite He, Hen in H. apply (f_equal length) in H. cbn in H. lia.
           ++ cbn -[normalize_svg] in H. rewrite Hen in H.
              apply (f_equal length) in H. cbn in H. lia.
        -- destruct (on_catch_logs k err v) as [He _]. rewrite He in H.
           apply (f_equal length) in H. cbn in H. lia.
    + pose proof (resume_frame qs (RenderSettled k r) v) as (_ & _ & _ & _ & H).
      cbn -[resume_render] in H. rewrite E, Es in H.
      destruct H as [H | (s & [-> | ->] & H)]; [now left| |].
      * exfalso. pose proof (f_equal (fun l => stage <$> l !! k) H) as H'.
        cbn -[resume_render] in H'. rewrite list_lookup_alter_eq, E in H'.
        cbn -[resume_render] in H'.
        unfold resume_render in H'. destruct r as [out | err].
        -- destruct (is_cancelled k v || negb _).
           { cbn in H'. rewrite list_lookup_alter_eq, E in H'. discriminate. }
           destruct (normalize_svg_frame qs (svg out) (assign_innerHTML (svg out) v))
             as (_ & _ & _ & _ & _ & He & _).
           destruct (bindFunctions out) as [|[err|]].
           ++ cbn -[normalize_svg] in H'. rewrite list_lookup_alter_eq, He in H'.
              cbn in H'. rewrite E in H'. discriminate.
           ++ rewrite on_catch_lookup, He in H'. cbn in H'. rewrite E in H'. discriminate.
           ++ cbn -[normalize_svg] in H'. rewrite list_lookup_alter_eq, He in H'.
              cbn in H'. rewrite E in H'. discriminate.
        -- rewrite on_catch_lookup, E in H'. discriminate.
      * right. eexists. split; [|exact H]. discriminate.
Qed.

Lemma lifecycle_engine e v :
  (forall c, e <> Settle c) ->
  engine (step qs e v) = engine v /\ idRef (step qs e v) = idRef v /\
  (effects (step qs e v) = effects v \/
   effects (step qs e v) = alter set_cancelled (current v) (effects v) \/
   exists k new,
     (stage new = AwaitImport /\ trim (inv_code new) <> [] \/
      stage new = Returned Fulfilled) /\
     (effects (step qs e v) = effects v ++ [new] \/
      effects (step qs e v) = alter set_cancelled k (effects v) ++ [new])).
Proof.
  assert (Heff : forall u, exists new,
            (stage new = AwaitImport /\ trim (inv_code new) <> [] \/
             stage new = Returned Fulfilled) /\
            effects (effect u) = effects u ++ [new] /\
            engine (effect u) = engine u /\ idRef (effect u) = idRef u).
  { intros u. unfold effect, clear_container, renderDiagram.
    destruct (attached (container u)) eqn:Ea; cbn -[trim]; rewrite Ea; cbn -[trim].
    - destruct (truthy (trim (code u))) eqn:Et; cbn -[trim].
      + eexists. split; [|repeat split; reflexivity].
        left. split; [reflexivity|]. cbn -[trim]. intros H. now rewrite H in Et.
      + eexists. split; [|repeat split; reflexivity]. now right.
    - eexists. split; [|repeat split; reflexivity]. now right. }
  intros Hne. destruct e as [c | c | b | c]; unfold step.
  - destruct (phase v); try now (repeat split; auto).
    destruct (Heff (set_attached true (with_code c (with_phase Mounted v))))
      as (new & Hn & -> & -> & ->).
    repeat split. right. right. exists 0%nat, new. split; [exact Hn|]. now left.
  - destruct (phase v); try now (repeat split; auto).
    destruct (streq c (code v)); [now (repeat split; auto)|].
    destruct (Heff (with_code c (cleanup (current v) v))) as (new & Hn & -> & -> & ->).
    destruct (cleanup_spec (current v) v) as (_ & _ & Hid & _ & _ & _ & He & Hen & _).
    cbn -[cleanup]. rewrite He, Hen, Hid. repeat split.
    right. right. exists (current v), new. split; [exact Hn|]. now right.
  - destruct (phase v); try now (repeat split; auto).
    destruct (cleanup_spec (current (if b then set_attached false v else v))
                (if b then set_attached false v else v))
      as (_ & _ & Hid & _ & _ & _ & He & Hen & _).
    cbn -[cleanup]. rewrite He, Hen, Hid.
    replace (current (if b then set_attached false v else v)) with (current v)
      by now destruct b.
    destruct b; cbn; repeat split; auto.
  - destruct (Hne c eq_refl).
Qed.


Lemma step_balanced e v : engine_balanced v -> engine_balanced (step qs e v).
Proof.
  intros [Hle Hlen]. unfold engine_balanced.
  assert (Hlife : forall e', (forall c, e' <> Settle c) ->
    (renders (engine (step qs e' v)) + awaiting_import (effects (step qs e' v))
     <= length (effects (step qs e' v)))%nat /\
    length (engine (step qs e' v)) = (2 * renders (engine (step qs e' v)))%nat).
  { intros e' He'.
    destruct (lifecycle_engine e' v He')
      as (-> & _ & [-> | [-> | (k & new & Hn & [-> | ->])]]);
      rewrite ?awaiting_import_snoc, ?length_app, ?length_alter,
        ?(awaiting_import_alter_same set_cancelled) by reflexivity;
      cbn [length]; try (split; [lia|exact Hlen]);
      destruct Hn as [[-> _] | ->]; (split; [lia|exact Hlen]). }
  destruct e as [c | c | b | c]; try (apply Hlife; discriminate).
  cbn -[resume].
  destruct (resume_engine c v) as [[-> [-> | (s & Hs & ->)]] | (inv & E & Es & -> & ->)].
  - easy.
  - rewrite length_alter. pose proof (awaiting_import_alter_le s (target c) (effects v) Hs).
    split; [lia|exact Hlen].
  - rewrite length_alter. cbn [renders length].
    assert (Hs : AwaitRender <> AwaitImport) by discriminate.
    pose proof (awaiting_import_alter_lt _ _ _ _ Hs E Es). split; lia.
Qed.

(** X8. The engine is asked to render at most once per effect run: in a
    reachable view the number of render calls plus the number of runs
    still waiting for the import is at most the number of runs, and the
    engine log holds exactly one [initialize] per [render]. *)
Theorem one_render_per_run v :
  reachable qs v ->
  (renders (engine v) + awaiting_import (effects v) <= length (effects v))%nat /\
  length (engine v) = (2 * renders (engine v))%nat.
Proof.
  intros (id & es & ->). change (engine_balanced (run qs es (initial id))).
  assert (G : forall u, engine_balanced u -> engine_balanced (run qs es u)).
  { induction es as [|e es IH]; intros u Hu; cbn -[step]; [exact Hu|].
    apply IH, step_balanced, Hu. }
  apply G. split; reflexivity.
Qed.

Lemma step_idRef e v : idRef (step qs e v) = idRef v.
Proof.
  assert (Hlife : forall e', (forall c, e' <> Settle c) -> idRef (step qs e' v) = idRef v).
  { intros e' He'. now destruct (lifecycle_engine e' v He') as (_ & H & _). }
  destruct e as [c | c | b | c]; try (apply Hlife; discriminate).
  cbn -[resume]. now destruct (resume_frame qs c v) as (_ & _ & -> & _).
Qed.

Lemma lookup_alter_code (f : Invocation -> Invocation) k (l : list Invocation) j inv :
  (forall i, inv_code (f i) = inv_code i) ->
  l !! j = Some inv ->
  exists inv', alter f k l !! j = Some inv' /\ inv_code inv' = inv_code inv.
Proof.
  intros Hf E. destruct (decide (k = j)) as [-> | Hne].
  - rewrite list_lookup_alter_eq, E. cbn. eauto.
  - rewrite list_lookup_alter_ne by exact Hne. eauto.
Qed.

Lemma lookup_alter_inv (f : Invocation -> Invocation) k (l : list Invocation) j inv' :
  alter f k l !! j = Some inv' ->
  exists inv, l !! j = Some inv /\ (inv' = inv \/ inv' = f inv).
Proof.
  intros E. destruct (decide (k = j)) as [-> | Hne].
  - rewrite list_lookup_alter_eq in E. destruct (l !! j) as [inv|]; [|discriminate].
    cbn in E. injection E as <-. eauto.
  - rewrite list_lookup_alter_ne in E by exact Hne. eauto.
Qed.

Lemma step_renders_justified e v : renders_justified v -> renders_justified (step qs e v).
Proof.
  intros [Hnb Hr]. unfold renders_justified. rewrite step_idRef.
  assert (Hlife : forall e', (forall c, e' <> Settle c) ->
    (forall k inv, effects (step qs e' v) !! k = Some inv -> stage inv = AwaitImport ->
                   trim (inv_code inv) <> []) /\
    (forall id text, Render id text ∈ engine (step qs e' v) ->
       id = idRef v /\ text <> [] /\
       exists k inv, effects (step qs e' v) !! k = Some inv /\ text = trim (inv_code inv))).
  { intros e' He'.
    destruct (lifecycle_engine e' v He')
      as (-> & _ & [-> | [-> | (k & new & Hn & [-> | ->])]]).
    + easy.
    + split.
      * intros j inv E Es. apply lookup_alter_inv in E as (i0 & E0 & [-> | ->]);
          cbn [set_cancelled set_stage stage inv_code] in *; eauto.
      * intros id t Hin. destruct (Hr id t Hin) as (? & ? & j & inv & E & ?).
        repeat split; try assumption.
        destruct (lookup_alter_code set_cancelled (current v) _ j inv (fun _ => eq_refl) E)
          as (inv' & E' & Hc). exists j, inv'. split; congruence.
    + split.
      * intros j inv E Es. apply lookup_snoc_Some in E as [[_ E] | [_ <-]]; eauto.
        destruct Hn as [[_ Hn] | Hn]; [exact Hn|congruence].
      * intros id t Hin. destruct (Hr id t Hin) as (? & ? & j & inv & E & ?).
        repeat split; try assumption. exists j, inv. split; [|assumption].
        now apply lookup_app_l_Some.
    + split.
      * intros j inv E Es. apply lookup_snoc_Some in E as [[_ E] | [_ <-]].
        -- apply lookup_alter_inv in E as (i0 & E0 & [-> | ->]);
          cbn [set_cancelled set_stage stage inv_code] in *; eauto.
        -- destruct Hn as [[_ Hn] | Hn]; [exact Hn|congruence].
      * intros id t Hin. destruct (Hr id t Hin) as (? & ? & j & inv & E & ?).
        repeat split; try assumption.
        destruct (lookup_alter_code set_cancelled k _ j inv (fun _ => eq_refl) E)
          as (inv' & E' & Hc). exists j, inv'. split; [|congruence].
        now apply lookup_app_l_Some. }
  destruct e as [c | c | b | c]; try (apply Hlife; discriminate).
  cbn -[resume].
  - (* a resumption *)
    destruct (resume_engine c v) as [[-> [-> | (s & Hs & ->)]] | (inv0 & E0 & Es0 & -> & ->)].
    + easy.
    + split.
      * intros j inv E Es. apply lookup_alter_inv in E as (i0 & E0 & [-> | ->]);
          cbn [set_cancelled set_stage stage inv_code] in *; eauto; congruence.
      * intros id t Hin. destruct (Hr id t Hin) as (? & ? & j & inv & E & ?).
        repeat split; try assumption.
        destruct (lookup_alter_code (set_stage s) (target c) _ j inv (fun _ => eq_refl) E)
          as (inv' & E' & Hc). exists j, inv'. split; congruence.
    + split.
      * intros j inv E Es. apply lookup_alter_inv in E as (i0 & E1 & [-> | ->]);
          cbn [set_cancelled set_stage stage inv_code] in *; eauto; discriminate.
      * intros id t Hin.
        assert (Hold : forall j inv, effects v !! j = Some inv ->
                  exists inv', alter (set_stage AwaitRender) (target c) (effects v) !! j
                               = Some inv' /\ inv_code inv' = inv_code inv).
        { intros j inv E. now apply lookup_alter_code. }
        apply elem_of_cons in Hin as [Hin | Hin].
        -- injection Hin as -> ->. split; [reflexivity|]. split; [eauto|].
           destruct (Hold _ _ E0) as (inv' & E' & Hc). exists (target c), inv'.
           split; congruence.
        -- apply elem_of_cons in Hin as [Hin | Hin]; [discriminate|].
           destruct (Hr id t Hin) as (? & ? & j & inv & E & ?).
           repeat split; try assumption.
           destruct (Hold _ _ E) as (inv' & E' & Hc). exists j, inv'. split; congruence.
Qed.

(** X9. Every render call in the engine log of a reachable view carries
    the component's own id and the trimmed code of one of its runs, and
    that text is never empty. *)
Theorem renders_trimmed_code v id text :
  reachable qs v -> Render id text ∈ engine v ->
  id = idRef v /\ text <> [] /\
  exists k inv, effects v !! k = Some inv /\ text = trim (inv_code inv).
Proof.
  intros (i0 & es & ->).
  assert (G : forall u, renders_justified u -> renders_justified (run qs es u)).
  { induction es as [|e es IH]; intros u Hu; cbn -[step]; [exact Hu|].
    apply IH, step_renders_justified, Hu. }
  assert (H0 : renders_justified (initial i0)).
  { split.
    - intros k inv E. destruct k; discriminate.
    - intros id' t Hin. inversion Hin. }
  intros Hin. exact (proj2 (G _ H0) id text Hin).
Qed.


Lemma step_innerHTML e v :
  innerHTML (container (step qs e v)) = innerHTML (container v) \/
  innerHTML (container (step qs e v)) = [] \/
  innerHTML (container (step qs e v)) = failure_notice \/
  exists k r, e = Settle (RenderSettled k (Resolves r)) /\
              innerHTML (container (step qs e v)) = svg r.
Proof.
  destruct e as [c | c | b | c]; unfold step.
  - destruct (phase v); auto.
    unfold effect, clear_container, renderDiagram. cbn -[trim].
    destruct (negb (truthy (trim c))); cbn; auto.
  - destruct (phase v); auto. destruct (streq c (code v)); auto.
    unfold effect, cleanup, clear_container, renderDiagram. cbn -[trim].
    destruct (attached (container v)) eqn:Ea; cbn -[trim];
      repeat (rewrite Ea; cbn -[trim]);
      try destruct (negb (truthy (trim c))); cbn; auto.
  - destruct (phase v); auto. unfold cleanup, clear_container.
    destruct b; cbn; auto. destruct (attached (container v)); cbn; auto.
  - destruct (resume_innerHTML qs c v) as [H | [H | (r & Hc & H)]]; auto.
    right. right. right. exists (target c), r. now rewrite <- Hc.
Qed.

(** X10. Whatever the events, the container's markup is empty, the failure
    notice, or the svg of a render resolution that occurred among them:
    the component writes nothing else. *)
Theorem container_shows_only_renders id es :
  let html := innerHTML (container (run qs es (initial id))) in
  html = [] \/ html = failure_notice \/
  exists k r, Settle (RenderSettled k (Resolves r)) ∈ es /\ html = svg r.
Proof.
  assert (G : forall v,
    let html := innerHTML (container (run qs es v)) in
    html = innerHTML (container v) \/ html = [] \/ html = failure_notice \/
    exists k r, Settle (RenderSettled k (Resolves r)) ∈ es /\ html = svg r).
  { induction es as [|e es IH]; intros v; cbn -[step]; [now left|].
    destruct (IH (step qs e v)) as [E | [E | [E | (k & r & Hin & E)]]].
    - rewrite E. destruct (step_innerHTML e v) as [H | [H | [H | (k & r & He & H)]]]; auto.
      right. right. right. exists k, r. split; [|exact H]. rewrite He. left.
    - auto.
    - auto.
    - right. right. right. exists k, r. split; [now right|exact E]. }
  intros html. destruct (G (initial id)) as [E | [E | [E | E]]]; auto.
Qed.

End Lifecycle.

Lemma live_render_witness :
  let qs := fun _ : jsstring => true in
  let r := {| svg := lit "<svg>A-B</svg>"; bindFunctions := Binds None |} in
  let v := run qs [Mount (lit "graph TD; A-->B"); Settle (ImportSettled 0 (Resolves tt))]
             (initial (lit "mermaid-k3")) in
  innerHTML (container (step qs (Settle (RenderSettled 0 (Resolves r))) v)) = svg r.
Proof.
  intros qs r v.
  assert (Hr : reachable qs v) by (eexists _, _; reflexivity).
  destruct (live_render_mounted qs v 0
              {| inv_code := lit "graph TD; A-->B"; cancelled := false;
                 stage := AwaitRender |} r Hr eq_refl eq_refl eq_refl)
    as (H & _).
  - intros err. discriminate.
  - exact H.
Defined.

Lemma binder_failure_witness :
  let qs := fun _ : jsstring => true in
  let r := {| svg := lit "<svg>A-B</svg>";
              bindFunctions := Binds (Some (lit "callback is not defined")) |} in
  let v := run qs [Mount (lit "graph TD; A-->B"); Settle (ImportSettled 0 (Resolves tt))]
             (initial (lit "mermaid-k3")) in
  innerHTML (container (step qs (Settle (RenderSettled 0 (Resolves r))) v))
  = failure_notice.
Proof.
  intros qs r v.
  assert (Hr : reachable qs v) by (eexists _, _; reflexivity).
  destruct (binder_failure_contained qs v 0
              {| inv_code := lit "graph TD; A-->B"; cancelled := false;
                 stage := AwaitRender |} r (lit "callback is not defined")
              Hr eq_refl eq_refl eq_refl eq_refl)
    as (H & _).
  exact H.
Defined.

Lemma single_live_run_witness :
  let qs := fun _ : jsstring => true in
  let v := run qs [Mount (lit "graph TD; A-->B"); Update (lit "graph LR; C-->D")]
             (initial (lit "mermaid-k3")) in
  1%nat = current v /\ phase v = Mounted.
Proof.
  intros qs v.
  assert (Hr : reachable qs v) by (eexists _, _; reflexivity).
  destruct (single_live_run qs v 1 1
              {| inv_code := lit "graph LR; C-->D"; cancelled := false;
                 stage := AwaitImport |}
              {| inv_code := lit "graph LR; C-->D"; cancelled := false;
                 stage := AwaitImport |} Hr eq_refl eq_refl eq_refl eq_refl)
    as (_ & H1 & H2).
  split; [exact H1|exact H2].
Defined.

Lemma only_live_run_writes_witness :
  let qs := fun _ : jsstring => true in
  let r := {| svg := lit "<svg>A-B</svg>"; bindFunctions := NoBinder |} in
  let v := run qs [Mount (lit "graph TD; A-->B"); Settle (ImportSettled 0 (Resolves tt))]
             (initial (lit "mermaid-k3")) in
  container (step qs (Settle (RenderSettled 0 (Resolves r))) v) <> container v /\
  target (RenderSettled 0 (Resolves r)) = current v.
Proof.
  intros qs r v.
  assert (Hr : reachable qs v) by (eexists _, _; reflexivity).
  assert (Hne : container (step qs (Settle (RenderSettled 0 (Resolves r))) v)
                <> container v) by discriminate.
  split; [exact Hne|].
  destruct (only_live_run_writes qs v (RenderSettled 0 (Resolves r)) Hr Hne) as (_ & H & _).
  exact H.
Defined.

Lemma pending_render_witness :
  let qs := fun _ : jsstring => true in
  let r := {| svg := lit "<svg>A-B</svg>"; bindFunctions := NoBinder |} in
  let v := run qs [Mount (lit "graph TD; A-->B"); Settle (ImportSettled 0 (Resolves tt));
                   Settle (RenderSettled 0 (Resolves r)); Update (lit "graph LR; C-->D")]
             (initial (lit "mermaid-k3")) in
  innerHTML (container v) = [].
Proof.
  intros qs r v.
  assert (Hr : reachable qs v) by (eexists _, _; reflexivity).
  destruct (pending_render_shows_nothing qs v
              {| inv_code := lit "graph LR; C-->D"; cancelled := false;
                 stage := AwaitImport |} Hr eq_refl eq_refl eq_refl) as (H & _).
  exact H.
Defined.

Lemma cancelled_run_witness :
  let qs := fun _ : jsstring => true in
  let v := run qs [Mount (lit "graph TD; A-->B"); Update (lit "graph LR; C-->D")]
             (initial (lit "mermaid-k3")) in
  engine (step qs (Settle (ImportSettled 0 (Resolves tt))) v)
  = [Render (lit "mermaid-k3") (lit "graph TD; A-->B"); Initialize config].
Proof.
  intros qs v.
  destruct (cancelled_run_is_drained qs v 0
              {| inv_code := lit "graph TD; A-->B"; cancelled := true;
                 stage := AwaitImport |} eq_refl eq_refl) as (_ & H & _).
  exact (H eq_refl).
Defined.

Lemma one_render_per_run_witness :
  let qs := fun _ : jsstring => true in
  let v := run qs [Mount (lit "graph TD; A-->B"); Settle (ImportSettled 0 (Resolves tt));
                   Update (lit "  "); Update (lit "graph LR; C-->D")]
             (initial (lit "mermaid-k3")) in
  (renders (engine v) + awaiting_import (effects v) <= length (effects v))%nat.
Proof.
  intros qs v.
  assert (Hr : reachable qs v) by (eexists _, _; reflexivity).
  destruct (one_render_per_run qs v Hr) as [H _]. exact H.
Defined.

Lemma renders_trimmed_witness :
  let qs := fun _ : jsstring => true in
  let v := run qs [Mount (lit "  graph TD; A-->B "); Settle (ImportSettled 0 (Resolves tt))]
             (initial (lit "mermaid-k3")) in
  Render (lit "mermaid-k3") (lit "graph TD; A-->B") ∈ engine v /\
  lit "mermaid-k3" = idRef v /\ lit "graph TD; A-->B" <> [].
Proof.
  intros qs v.
  assert (Hr : reachable qs v) by (eexists _, _; reflexivity).
  assert (Hin : Render (lit "mermaid-k3") (lit "graph TD; A-->B") ∈ engine v) by left.
  destruct (renders_trimmed_code qs v _ _ Hr Hin) as (Hid & H & _).
  split; [exact Hin|]. split; [exact Hid|exact H].
Defined.

Lemma removed_is_final_witness :
  let qs := fun _ : jsstring => true in
  let r := {| svg := lit "<svg>A-B</svg>"; bindFunctions := NoBinder |} in
  let v := run qs [Mount (lit "graph TD; A-->B"); Unmount true]
             (initial (lit "mermaid-k3")) in
  let es := [Mount (lit "graph LR; C-->D"); Settle (ImportSettled 0 (Resolves tt));
             Settle (RenderSettled 0 (Resolves r)); Update (lit "graph TD; E-->F")] in
  phase (run qs es v) = Removed /\ container (run qs es v) = container v.
Proof.
  intros qs r v es.
  assert (Hr : reachable qs v) by (eexists _, _; reflexivity).
  exact (removed_is_final qs v es Hr eq_refl).
Defined.

End LifecycleFacts.


(** ** The prompt page: selections *)
Module SelectionFacts.
Import JS Page JSFacts PageFacts.

(** Every screen shown is the screen its own id resolves to. *)
Lemma shown_screen_resolves r (ids : list jsstring) s :
  s ∈ omap (find_screen r) ids ->
  find_screen r (screen_id s) = Some s /\ screen_id s ∈ ids.
Proof.
  intros H. apply list_elem_of_omap in H as (i & Hi & E).
  rewrite (find_screen_id _ _ _ E). auto.
Qed.

Lemma shown_ids_sublist r (ids : list jsstring) :
  sublist (screen_id <$> omap (find_screen r) ids) ids.
Proof.
  induction ids as [|i ids IH]; [constructor|]. cbn.
  destruct (find_screen r i) as [s|] eqn:E; cbn.
  - rewrite (find_screen_id _ _ _ E). now constructor.
  - now constructor.
Qed.

(** The active screen after the active id was set to the first id of the
    active flow. *)
Lemma active_screen_is_head r f h :
  yanaResult h = Some r -> activeFlow h = Some f ->
  activeScreenId h = or_null (head (flow_screens f)) ->
  activeScreen h = head (screensForFlow h).
Proof.
  intros Ey Ha Ei.
  assert (Hs : screensForFlow h = omap (find_screen r) (flow_screens f)).
  { unfold screensForFlow. now rewrite Ha, Ey. }
  unfold activeScreen, all_screens. rewrite Hs, Ey, Ei.
  destruct (flow_screens f) as [|id ids].
  - cbn [head or_null otruthy nstreq]. rewrite !find_none_false. reflexivity.
  - destruct id as [|c id].
    + cbn [head or_null otruthy truthy nstreq].
      rewrite !find_none_false. reflexivity.
    + cbn [head or_null otruthy truthy nstreq].
      change (omap (find_screen r) ((c :: id) :: ids))
        with (match find_screen r (c :: id) with
              | Some s => s :: omap (find_screen r) ids
              | None => omap (find_screen r) ids
              end).
      destruct (find_screen r (c :: id)) as [s|] eqn:E.
      * cbn [List.find head or_found].
        rewrite (find_screen_id _ _ _ E), streq_refl. reflexivity.
      * rewrite (find_absent_id _ _ _ E), (find_absent_id_all _ _ E). reflexivity.
Qed.

(** X11. A received result with at least one flow selects its first flow:
    the result is stored, the status is 'received', the active flow is the
    first flow, the cards are that flow's ids resolved in order, and the
    active screen is the first card (none when no id resolves). *)
Theorem received_result_selects_first_flow h st data f fs :
  screen_flows data = f :: fs ->
  let h' := fst (submit_finish (Resolves (Ok st (Resolves data))) h) in
  yanaResult h' = Some data /\ responseStatus h' = received /\
  activeFlow h' = Some f /\
  screensForFlow h' = omap (find_screen data) (flow_screens f) /\
  activeScreen h' = head (screensForFlow h').
Proof.
  intros Hf h'.
  assert (Ey : yanaResult h' = Some data) by (unfold h', submit_finish; now rewrite Hf).
  assert (Es : responseStatus h' = received) by (unfold h', submit_finish; now rewrite Hf).
  assert (Ef : activeFlowSlug h' = Some (flow_slug f))
    by (unfold h', submit_finish; now rewrite Hf).
  assert (Ei : activeScreenId h' = or_null (head (flow_screens f)))
    by (unfold h', submit_finish; now rewrite Hf).
  clearbody h'.
  assert (Ha : activeFlow h' = Some f).
  { unfold activeFlow, flows. rewrite Ey, Ef, Hf. cbn [List.find nstreq].
    now rewrite streq_refl. }
  repeat split; try assumption.
  - unfold screensForFlow. now rewrite Ha, Ey.
  - now apply (active_screen_is_head data f).
Qed.

(** X12. A received result without flows replaces the stored result but
    leaves the selection made on the previous one: the selected slug and
    screen id are kept, no flow is active and no card is shown, and the
    active screen is the first screen of the new result that bears the
    kept id. *)
Theorem result_without_flows_keeps_selection h st data :
  screen_flows data = [] ->
  let h' := fst (submit_finish (Resolves (Ok st (Resolves data))) h) in
  yanaResult h' = Some data /\
  activeFlowSlug h' = activeFlowSlug h /\ activeScreenId h' = activeScreenId h /\
  activeFlow h' = None /\ screensForFlow h' = [] /\
  activeScreen h'
  = List.find (fun s => nstreq (activeScreenId h) (screen_id s)) (screens data).
Proof.
  intros Hf h'.
  assert (Ey : yanaResult h' = Some data) by (unfold h', submit_finish; now rewrite Hf).
  assert (Ef : activeFlowSlug h' = activeFlowSlug h)
    by (unfold h', submit_finish; now rewrite Hf).
  assert (Ei : activeScreenId h' = activeScreenId h)
    by (unfold h', submit_finish; now rewrite Hf).
  clearbody h'.
  assert (Ha : activeFlow h' = None).
  { unfold activeFlow, flows. now rewrite Ey, Hf. }
  assert (Hs : screensForFlow h' = []).
  { unfold screensForFlow. now rewrite Ha. }
  repeat split; try assumption.
  unfold activeScreen, all_screens. rewrite Hs, Ey, Ei. cbn [List.find or_found head].
  now destruct (List.find _ (screens data)).
Qed.

(** X13. The cards shown are screens of the result, in the order of the
    active flow's id list: their ids form a subsequence of that list, each
    card is the first screen of the result bearing its id, and an id of
    the flow has no card only when no screen of the result bears it. *)
Theorem shown_screens_sound h :
  forall f r, activeFlow h = Some f -> yanaResult h = Some r ->
  sublist (screen_id <$> screensForFlow h) (flow_screens f) /\
  (forall s, s ∈ screensForFlow h -> In s (screens r) /\ find_screen r (screen_id s) = Some s) /\
  (forall id, id ∈ flow_screens f ->
     (exists s, s ∈ screensForFlow h /\ screen_id s = id) \/ find_screen r id = None).
Proof.
  intros f r Ha Ey.
  assert (Hs : screensForFlow h = omap (find_screen r) (flow_screens f)).
  { unfold screensForFlow. now rewrite Ha, Ey. }
  rewrite Hs. repeat split.
  - apply shown_ids_sublist.
  - apply shown_screen_resolves in H as [H _]. now apply find_screen_in in H.
  - now apply shown_screen_resolves in H as [H _].
  - intros id Hid. destruct (find_screen r id) as [s|] eqn:E; [|now right].
    left. exists s. split; [|now apply find_screen_id in E].
    apply list_elem_of_omap. eauto.
Qed.

(** X14. The active screen is always a screen of the stored result.  It
    bears the active id, or, when no screen of the result bears that id,
    it is the first card. *)
Theorem active_screen_sound h s :
  activeScreen h = Some s ->
  In s (all_screens h) /\
  (nstreq (activeScreenId h) (screen_id s) = true \/
   head (screensForFlow h) = Some s /\
   forall x, In x (all_screens h) -> nstreq (activeScreenId h) (screen_id x) = false).
Proof.
  assert (Hsub : forall x, x ∈ screensForFlow h -> In x (all_screens h)).
  { intros x Hx. unfold screensForFlow, all_screens in *.
    destruct (activeFlow h) as [f|]; [|inversion Hx].
    destruct (yanaResult h) as [r|]; [|inversion Hx].
    apply shown_screen_resolves in Hx as [Hx _]. now apply find_screen_in in Hx. }
  unfold activeScreen.
  destruct (List.find _ (screensForFlow h)) as [s1|] eqn:E1; cbn [or_found].
  - intros [= <-]. apply find_some in E1 as [Hin Hm]. split; [|now left].
    apply Hsub, list_elem_of_In, Hin.
  - destruct (List.find _ (all_screens h)) as [s2|] eqn:E2; cbn [or_found].
    + intros [= <-]. apply find_some in E2 as [Hin Hm]. auto.
    + intros Hh. split.
      * apply Hsub. destruct (screensForFlow h) as [|x l]; [discriminate|].
        cbn in Hh. injection Hh as ->. left.
      * right. split; [exact Hh|]. intros x Hx. exact (find_none _ _ E2 x Hx).
Qed.

(** X15. Clicking a card makes its screen the active one and leaves the
    active flow and the cards unchanged, also when several screens of the
    result share the card's id. *)
Theorem clicked_card_becomes_active h s :
  s ∈ screensForFlow h ->
  let h' := selectScreen s h in
  activeFlow h' = activeFlow h /\ screensForFlow h' = screensForFlow h /\
  activeScreen h' = Some s.
Proof.
  intros Hin h'.
  assert (Ha : activeFlow h' = activeFlow h) by reflexivity.
  assert (Hs : screensForFlow h' = screensForFlow h) by reflexivity.
  assert (Ei : activeScreenId h' = Some (screen_id s)) by reflexivity.
  clearbody h'. repeat split; try assumption.
  unfold activeScreen. rewrite Hs, Ei. cbn [nstreq].
  destruct (List.find _ (screensForFlow h)) as [x|] eqn:E; cbn [or_found].
  - apply find_some in E as [Hx Hm]. apply streq_true in Hm.
    apply list_elem_of_In in Hx. unfold screensForFlow in Hin, Hx.
    destruct (activeFlow h) as [f|]; [|inversion Hin].
    destruct (yanaResult h) as [r|]; [|inversion Hin].
    apply shown_screen_resolves in Hin as [Hin _].
    apply shown_screen_resolves in Hx as [Hx _]. congruence.
  - apply list_elem_of_In in Hin. pose proof (find_none _ _ E s Hin) as Hf.
    cbn in Hf. now rewrite streq_refl in Hf.
Qed.

Lemma received_result_witness :
  let s1 := {| screen_id := lit "s1"; screen_type := lit "form";
               title := lit "One"; functional_description := [] |} in
  let s2 := {| screen_id := lit "s2"; screen_type := lit "form";
               title := lit "Two"; functional_description := [] |} in
  let f1 := {| flow_slug := lit "a"; name := lit "First";
               flow_screens := [lit "gone"; lit "s2"; lit "s1"] |} in
  let f2 := {| flow_slug := lit "b"; name := lit "Second"; flow_screens := [lit "s1"] |} in
  let data := {| screen_flows := [f1; f2]; screens := [s1; s2]; global_mermaid := [] |} in
  let h' := fst (submit_finish (Resolves (Ok 200%N (Resolves data))) initial) in
  activeFlow h' = Some f1 /\ screensForFlow h' = [s2; s1] /\ activeScreen h' = Some s2.
Proof.
  intros s1 s2 f1 f2 data h'.
  destruct (received_result_selects_first_flow initial 200%N data f1 [f2] eq_refl)
    as (_ & _ & Ha & Hs & Hact).
  split; [exact Ha|]. split; [exact Hs|]. exact Hact.
Defined.

Lemma result_without_flows_witness :
  let s1 := {| screen_id := lit "s1"; screen_type := lit "form";
               title := lit "One"; functional_description := [] |} in
  let data := {| screen_flows := []; screens := [s1]; global_mermaid := [] |} in
  let h := setActiveScreenId (Some (lit "s1")) (setActiveFlowSlug (Some (lit "old")) initial) in
  let h' := fst (submit_finish (Resolves (Ok 200%N (Resolves data))) h) in
  activeFlow h' = None /\ screensForFlow h' = [] /\ activeScreen h' = Some s1.
Proof.
  intros s1 data h h'.
  destruct (result_without_flows_keeps_selection h 200%N data eq_refl)
    as (_ & _ & _ & Ha & Hs & Hact).
  split; [exact Ha|]. split; [exact Hs|]. exact Hact.
Defined.

Lemma shown_screens_witness :
  let s1 := {| screen_id := lit "s1"; screen_type := lit "form";
               title := lit "One"; functional_description := [] |} in
  let s2 := {| screen_id := lit "s2"; screen_type := lit "form";
               title := lit "Two"; functional_description := [] |} in
  let f1 := {| flow_slug := lit "a"; name := lit "First";
               flow_screens := [lit "gone"; lit "s2"; lit "s1"] |} in
  let data := {| screen_flows := [f1]; screens := [s1; s2]; global_mermaid := [] |} in
  let h := fst (submit_finish (Resolves (Ok 200%N (Resolves data))) initial) in
  sublist (screen_id <$> screensForFlow h) (flow_screens f1).
Proof.
  intros s1 s2 f1 data h.
  destruct (shown_screens_sound h f1 data eq_refl eq_refl) as (H & _). exact H.
Defined.

Lemma active_screen_witness :
  let s1 := {| screen_id := lit "s1"; screen_type := lit "form";
               title := lit "One"; functional_description := [] |} in
  let f1 := {| flow_slug := lit "a"; name := lit "First"; flow_screens := [lit "s1"] |} in
  let data := {| screen_flows := [f1]; screens := [s1]; global_mermaid := [] |} in
  let h := fst (submit_finish (Resolves (Ok 200%N (Resolves data))) initial) in
  In s1 (all_screens h).
Proof.
  intros s1 f1 data h.
  destruct (active_screen_sound h s1 eq_refl) as (H & _). exact H.
Defined.

Lemma clicked_card_witness :
  let s1 := {| screen_id := lit "s1"; screen_type := lit "form";
               title := lit "One"; functional_description := [] |} in
  let s2 := {| screen_id := lit "s2"; screen_type := lit "form";
               title := lit "Two"; functional_description := [] |} in
  let s2' := {| screen_id := lit "s2"; screen_type := lit "list";
                title := lit "Two again"; functional_description := [] |} in
  let f1 := {| flow_slug := lit "a"; name := lit "First";
               flow_screens := [lit "s1"; lit "s2"] |} in
  let data := {| screen_flows := [f1]; screens := [s1; s2; s2']; global_mermaid := [] |} in
  let h := fst (submit_finish (Resolves (Ok 200%N (Resolves data))) initial) in
  activeScreen (selectScreen s2 h) = Some s2.
Proof.
  intros s1 s2 s2' f1 data h.
  assert (Hin : s2 ∈ screensForFlow h) by (right; left).
  destruct (clicked_card_becomes_active h s2 Hin) as (_ & _ & H). exact H.
Defined.

End SelectionFacts.


(** ** The prompt page: sessions *)
Module SessionFacts.
Import JS Page Session JSFacts PageFacts.

Section Configured.
Variable cfg : Config.

Lemma submit_finish_status r h : responseStatus (fst (submit_finish r h)) <> sent.
Proof.
  unfold submit_finish.
  destruct r as [[st [data | m] | st json] | m]; cbn; try discriminate.
  destruct (screen_flows data); cbn; discriminate.
Qed.

Lemma submit_single_flight s :
  responseStatus (home s) <> sent -> single_flight s -> single_flight (submit cfg s).
Proof.
  unfold single_flight, submit, submit_start. intros Hns H.
  destruct (pending s) as [|r0 [|r1 l]] eqn:Ep; try easy.
  destruct (negb (truthy (trim (prompt (home s))))); cbn; rewrite ?Ep; cbn; easy.
Qed.

Lemma act_single_flight a s : single_flight s -> single_flight (act cfg a s).
Proof.
  intros H. destruct a as [p | e | | i | i | r]; cbn -[submit submit_finish].
  - exact H.
  - unfold handleKeyDown. destruct (streq _ _ && _); [|exact H].
    destruct (is_sent (responseStatus (home s))) eqn:Es; [exact H|].
    apply submit_single_flight; [|exact H]. intros E. now rewrite E in Es.
  - destruct (is_sent (responseStatus (home s))) eqn:Es; [exact H|].
    apply submit_single_flight; [|exact H]. intros E. now rewrite E in Es.
  - destruct (flows (home s) !! i); exact H.
  - destruct (screensForFlow (home s) !! i); exact H.
  - unfold single_flight in *. destruct (pending s) as [|r0 [|r1 l]] eqn:Ep;
      cbn -[submit_finish]; rewrite ?Ep; try easy.
    apply submit_finish_status.
Qed.

(** X16. At most one submission is in flight: after any sequence of edits,
    key presses, clicks and network settlements at most one fetch is
    pending, and one is pending exactly when the status is 'sent'. *)
Theorem one_submission_in_flight actions :
  let s := play cfg actions start in
  (length (pending s) <= 1)%nat /\
  (responseStatus (home s) = sent <-> pending s <> []).
Proof.
  assert (G : forall s, single_flight s -> single_flight (play cfg actions s)).
  { induction actions as [|a l IH]; intros s H; [exact H|]. apply IH, act_single_flight, H. }
  intros s. assert (H : single_flight s) by (apply G; cbn; discriminate).
  unfold single_flight in H. destruct (pending s) as [|r0 [|r1 l]]; cbn; [| |easy].
  - split; [lia|]. split; [easy|congruence].
  - split; [lia|]. split; [easy|auto].
Qed.

(** X17. Every request issued in a session is the request of a prompt that
    is not blank. *)
Theorem issued_requests_carry_prompts actions :
  Forall (fun req => exists p, trim p <> [] /\ req = request cfg p)
         (issued (play cfg actions start)).
Proof.
  assert (G : forall s,
    Forall (fun req => exists p, trim p <> [] /\ req = request cfg p) (issued s) ->
    Forall (fun req => exists p, trim p <> [] /\ req = request cfg p)
           (issued (play cfg actions s))).
  { induction actions as [|a l IH]; intros s H; [exact H|]. apply IH.
    assert (Hsub : Forall (fun req => exists p, trim p <> [] /\ req = request cfg p)
                          (issued (submit cfg s))).
    { unfold submit, submit_start.
      destruct (truthy (trim (prompt (home s)))) eqn:Et; cbn; [|exact H].
      apply Forall_app. split; [exact H|]. constructor; [|constructor].
      exists (prompt (home s)). split; [|reflexivity].
      intros E. now rewrite E in Et. }
    destruct a as [p | e | | i | i | r]; cbn -[submit submit_finish]; try exact H.
    - destruct (handleKeyDown e (home s)); [exact Hsub|exact H].
    - destruct (is_sent _); [exact H|exact Hsub].
    - destruct (flows (home s) !! i); exact H.
    - destruct (screensForFlow (home s) !! i); exact H.
    - destruct (pending s); exact H. }
  apply G. constructor.
Qed.


Lemma act_selection_named a s : selection_named s -> selection_named (act cfg a s).
Proof.
  intros H. destruct a as [p | e | | i | i | r]; cbn -[submit submit_finish].
  - exact H.
  - destruct (handleKeyDown e (home s)); [|exact H].
    unfold submit, submit_start.
    destruct (negb (truthy (trim (prompt (home s))))); exact H.
  - destruct (is_sent _); [exact H|].
    unfold submit, submit_start.
    destruct (negb (truthy (trim (prompt (home s))))); exact H.
  - destruct (flows (home s) !! i) as [flow|] eqn:E; [|exact H].
    intros _. exists flow. split; [|reflexivity].
    apply list_elem_of_In. exact (list_elem_of_lookup_2 _ _ _ E).
  - destruct (screensForFlow (home s) !! i); exact H.
  - destruct (pending s) as [|r0 rest]; [exact H|].
    unfold selection_named. cbn -[submit_finish]. unfold submit_finish.
    destruct r as [[st [data | m] | st json] | m]; try exact H.
    unfold flows. destruct (screen_flows data) as [|f fs] eqn:Ef; cbn; rewrite Ef.
    + congruence.
    + intros _. exists f. split; [now left|reflexivity].
Qed.

(** X18. Whenever the stored result has flows, the selected slug names the
    active flow: in a session the lookup by slug always succeeds, and the
    fallback to the first flow never decides the active flow. *)
Theorem active_flow_is_the_selected_one actions :
  let s := play cfg actions start in
  flows (home s) <> [] ->
  exists f, activeFlow (home s) = Some f /\
            activeFlowSlug (home s) = Some (flow_slug f).
Proof.
  assert (G : forall s, selection_named s -> selection_named (play cfg actions s)).
  { induction actions as [|a l IH]; intros s H; [exact H|].
    apply IH, act_selection_named, H. }
  intros s Hne. assert (H : selection_named s) by (apply G; intros H; now destruct H).
  destruct (H Hne) as (g & Hg & Eg).
  unfold activeFlow. rewrite Eg. cbn [nstreq].
  destruct (List.find _ (flows (home s))) as [f|] eqn:E.
  - exists f. split; [reflexivity|]. apply find_some in E as [_ E].
    apply streq_true in E. now rewrite E.
  - pose proof (find_none _ _ E g Hg) as Hf. cbn in Hf. now rewrite streq_refl in Hf.
Qed.

End Configured.

Lemma active_flow_witness :
  let cfg := {| apiHost := []; username := None; password := None; auth := [] |} in
  let s1 := {| screen_id := lit "s1"; screen_type := lit "form";
               title := lit "One"; functional_description := [] |} in
  let f1 := {| flow_slug := lit "a"; name := lit "First"; flow_screens := [lit "s1"] |} in
  let f2 := {| flow_slug := lit "b"; name := lit "Second"; flow_screens := [lit "s1"] |} in
  let data := {| screen_flows := [f1; f2]; screens := [s1]; global_mermaid := [] |} in
  let actions := [Change (lit "online sports classes");
                  KeyDown {| key := lit "Enter"; metaKey := false; ctrlKey := true |};
                  SubmitClick;
                  FetchSettled (Resolves (Ok 200%N (Resolves data)));
                  FlowTabClick 1] in
  let s := play cfg actions start in
  length (issued s) = 1%nat /\
  exists f, activeFlow (home s) = Some f /\ activeFlowSlug (home s) = Some (flow_slug f).
Proof.
  intros cfg s1 f1 f2 data actions s. split; [reflexivity|].
  apply (active_flow_is_the_selected_one cfg actions). discriminate.
Defined.

End SessionFacts.


(** ** The inspector panels *)
Module InspectorFacts.
Import stdpp.gmap.
Import JS Page Inspector JSFacts PageFacts.

Lemma In_reverse {A} (x : A) (l : list A) : In x (reverse l) <-> In x l.
Proof. rewrite <- !list_elem_of_In. apply elem_of_reverse. Qed.

Lemma find_append {A} (f : A -> bool) (l1 l2 : list A) :
  List.find f (l1 ++ l2)
  = match List.find f l1 with
    | Some x => Some x
    | None => List.find f l2
    end.
Proof. induction l1 as [|x l1 IH]; cbn; [reflexivity|]. now destruct (f x). Qed.

(** Filling a map with [set] in order keeps, for each key, the value set
    last. *)
Lemma set_all_lookup (v : list N) (ids : list (list N)) (m : gmap (list N) (list N)) k :
  foldl (fun m sid => <[sid := v]> m) m ids !! k
  = if bool_decide (k ∈ ids) then Some v else m !! k.
Proof.
  revert m. induction ids as [|i ids IH]; intros m; cbn [foldl].
  - now rewrite bool_decide_eq_false_2 by apply not_elem_of_nil.
  - rewrite IH. destruct (decide (k ∈ ids)) as [Hin | Hin].
    + rewrite !bool_decide_eq_true_2; [reflexivity| |exact Hin]. now right.
    + rewrite (bool_decide_eq_false_2 (k ∈ ids)) by exact Hin.
      destruct (decide (i = k)) as [-> | Hne].
      * rewrite bool_decide_eq_true_2 by left. apply lookup_insert_eq.
      * rewrite bool_decide_eq_false_2.
        -- now apply lookup_insert_ne.
        -- intros H. apply elem_of_cons in H as [H | H]; congruence.
Qed.

Lemma flow_map_lookup (fl : list ScreenFlow) (m : gmap (list N) (list N)) k :
  foldl (fun m flow =>
           foldl (fun m sid => <[sid := flow_slug flow]> m) m (flow_screens flow))
        m fl !! k
  = match List.find (fun f => bool_decide (k ∈ flow_screens f)) (reverse fl) with
    | Some f => Some (flow_slug f)
    | None => m !! k
    end.
Proof.
  revert m. induction fl as [|f fl IH]; intros m; cbn [foldl]; [reflexivity|].
  rewrite IH, reverse_cons, find_append.
  destruct (List.find _ (reverse fl)); [reflexivity|].
  cbn [List.find]. rewrite set_all_lookup.
  now destruct (bool_decide (k ∈ flow_screens f)).
Qed.

(** X19. A screen id is mapped to the slug of the last flow that lists it
    (later flows overwrite earlier ones), and to nothing when no flow lists
    it. *)
Theorem flowByScreenId_last_flow h sid :
  flowByScreenId h !! sid
  = flow_slug <$> List.find (fun f => bool_decide (sid ∈ flow_screens f))
                    (reverse (flows h)).
Proof.
  unfold flowByScreenId. rewrite flow_map_lookup.
  now destruct (List.find _ (reverse (flows h))).
Qed.

Lemma eval_map_lookup (ws : list EvaluationWorkflow) (m : gmap (list N) EvaluationWorkflow) k :
  foldl (fun m w =>
           match workflow_id w with
           | Some (c :: id) => <[c :: id := w]> m
           | _ => m
           end) m ws !! k
  = match List.find (fun w => bool_decide (workflow_id w = Some k) && truthy k)
            (reverse ws) with
    | Some w => Some w
    | None => m !! k
    end.
Proof.
  revert m. induction ws as [|w ws IH]; intros m; cbn [foldl]; [reflexivity|].
  rewrite IH, reverse_cons, find_append.
  destruct (List.find _ (reverse ws)); [reflexivity|].
  cbn [List.find]. destruct (workflow_id w) as [[|c id]|] eqn:Ew.
  - destruct (decide (Some [] = Some k)) as [[= <-] | Hne].
    + now rewrite andb_false_r.
    + now rewrite bool_decide_eq_false_2.
  - destruct (decide (c :: id = k)) as [<- | Hne].
    + rewrite bool_decide_eq_true_2 by reflexivity. cbn. apply lookup_insert_eq.
    + rewrite bool_decide_eq_false_2 by congruence. cbn. now apply lookup_insert_ne.
  - now rewrite bool_decide_eq_false_2.
Qed.

(** X20. The evaluation panel is keyed by the last flow that lists the
    screen, which need not be the active flow.  It reports the screen as
    not mapped only when no flow lists it or that flow's slug is empty.  It
    shows a workflow of the evaluation whose id is that slug, or, only when
    no workflow has that id, one whose title is the active flow's name,
    and marks it recommended when the recommended id is that slug.  It
    reports no evaluation only when no workflow matches in either way. *)
Theorem evaluation_panel_reports_last_flow ev h screen :
  let listing := List.find (fun f => bool_decide (screen_id screen ∈ flow_screens f))
                   (reverse (flows h)) in
  let ws := workflows_of (Some ev) in
  match evaluation_panel ev h screen with
  | NotMapped => listing = None \/ exists f, listing = Some f /\ flow_slug f = []
  | NoEvaluation slug =>
      (exists f, listing = Some f /\ flow_slug f = slug) /\
      forall w, In w ws ->
        workflow_id w <> Some slug /\ workflow_title w <> name <$> activeFlow h
  | Row slug w recommended =>
      (exists f, listing = Some f /\ flow_slug f = slug) /\ In w ws /\
      (workflow_id w = Some slug \/
       workflow_title w = name <$> activeFlow h /\
       forall w', In w' ws -> workflow_id w' <> Some slug) /\
      recommended = nstreq (recommended_workflow_id ev) slug
  end.
Proof.
  intros listing ws. unfold evaluation_panel, flowByScreenId.
  rewrite flow_map_lookup, lookup_empty. fold listing.
  destruct listing as [f|]; [|now left].
  destruct (flow_slug f) as [|c slug] eqn:Ef; [right; eauto|].
  unfold evalByFlowId. rewrite eval_map_lookup, lookup_empty. fold ws.
  destruct (List.find _ (reverse ws)) as [w|] eqn:E1; cbn [or_found].
  - apply find_some in E1 as [Hin Hm]. apply andb_true_iff in Hm as [Hm _].
    apply bool_decide_eq_true in Hm.
    apply (proj1 (In_reverse _ _)) in Hin. repeat split; eauto.
  - assert (Hnone : forall w', In w' ws -> workflow_id w' <> Some (c :: slug)).
    { intros w' Hw' Hid.
      assert (Hr : In w' (reverse ws)) by exact (proj2 (In_reverse _ _) Hw').
      pose proof (find_none _ _ E1 w' Hr) as Hf. cbn in Hf.
      rewrite bool_decide_eq_true_2 in Hf by exact Hid. discriminate. }
    destruct (List.find _ ws) as [w|] eqn:E2.
    + apply find_some in E2 as [Hin Hm]. apply orb_true_iff in Hm as [Hm | Hm];
        apply bool_decide_eq_true in Hm.
      * destruct (Hnone w Hin Hm).
      * repeat split; eauto.
    + split; [eauto|]. intros w Hw. pose proof (find_none _ _ E2 w Hw) as Hf.
      apply orb_false_iff in Hf as [H1 H2].
      apply bool_decide_eq_false in H1, H2. auto.
Qed.

(** X21. The similarity panel lists at most eight hits, all of type FLOW or
    COMP, in their original order; a FLOW or COMP hit is left out only when
    eight are already listed. *)
Theorem listed_hits_bounded hits :
  (length (listed_hits hits) <= 8)%nat /\
  sublist (listed_hits hits) hits /\
  Forall (fun h => source_type h = lit "FLOW" \/ source_type h = lit "COMP")
         (listed_hits hits) /\
  (forall h, In h hits ->
     source_type h = lit "FLOW" \/ source_type h = lit "COMP" ->
     h ∈ listed_hits hits \/ length (listed_hits hits) = 8%nat).
Proof.
  unfold listed_hits.
  set (keep := fun h => streq (source_type h) (lit "FLOW")
                        || streq (source_type h) (lit "COMP")).
  assert (Hsub : sublist (List.filter keep hits) hits).
  { induction hits as [|x l IH]; cbn; [constructor|].
    destruct (keep x); now constructor. }
  repeat split.
  - rewrite length_take. lia.
  - etransitivity; [apply sublist_take|exact Hsub].
  - apply Forall_take, Forall_forall. intros x Hx.
    apply list_elem_of_In, filter_In in Hx as [_ Hx]. unfold keep in Hx.
    apply orb_true_iff in Hx as [Hx | Hx]; apply streq_true in Hx; auto.
  - intros x Hin Ht.
    assert (Hx : In x (List.filter keep hits)).
    { apply filter_In. split; [exact Hin|]. unfold keep.
      destruct Ht as [-> | ->]; rewrite streq_refl; [reflexivity|apply orb_true_r]. }
    destruct (le_lt_dec (length (List.filter keep hits)) 8) as [Hle | Hgt].
    + left. rewrite take_ge by exact Hle. now apply list_elem_of_In.
    + right. rewrite length_take. lia.
Qed.

Lemma distinct_from (seen xs : list jsstring) :
  NoDup seen ->
  let out := foldl (fun seen x => if bool_decide (x ∈ seen) then seen else seen ++ [x])
               seen xs in
  NoDup out /\ (forall x, x ∈ out <-> x ∈ seen \/ x ∈ xs) /\
  exists tail, out = seen ++ tail /\ sublist tail xs.
Proof.
  revert seen. induction xs as [|x xs IH]; intros seen Hnd; cbn [foldl].
  - split; [exact Hnd|]. split.
    + intros x. split; [auto|]. intros [H | H]; [exact H|inversion H].
    + exists []. split; [now rewrite app_nil_r|constructor].
  - destruct (decide (x ∈ seen)) as [Hin | Hin].
    + rewrite bool_decide_eq_true_2 by exact Hin.
      destruct (IH seen Hnd) as (H1 & H2 & tail & H3 & H4).
      split; [exact H1|]. split.
      * intros y. rewrite H2, elem_of_cons. split; [tauto|].
        intros [H | [-> | H]]; auto.
      * exists tail. split; [exact H3|now constructor].
    + rewrite bool_decide_eq_false_2 by exact Hin.
      assert (Hnd' : NoDup (seen ++ [x])).
      { apply NoDup_app. split; [exact Hnd|]. split; [|apply NoDup_singleton].
        intros y Hy Hy'. apply list_elem_of_singleton in Hy'. now subst. }
      destruct (IH (seen ++ [x]) Hnd') as (H1 & H2 & tail & H3 & H4).
      split; [exact H1|]. split.
      * intros y. rewrite H2, elem_of_app, list_elem_of_singleton, elem_of_cons. tauto.
      * exists (x :: tail). split; [now rewrite H3, <- app_assoc|now constructor].
Qed.

(** X22. The design system panel lists every component slug used on the
    screen, each once and nothing else, in an order in which they occur
    on the screen. *)
Theorem used_slugs_distinct sections :
  let all := flat_map (fun sec => component_slug <$> components sec) sections in
  NoDup (used_slugs sections) /\
  (forall slug, slug ∈ used_slugs sections <-> slug ∈ all) /\
  sublist (used_slugs sections) all.
Proof.
  intros all. unfold used_slugs, distinct. fold all.
  destruct (distinct_from [] all (NoDup_nil_2)) as (H1 & H2 & tail & H3 & H4).
  split; [exact H1|]. split.
  - intros slug. rewrite H2. split; [|auto]. intros [H | H]; [inversion H|exact H].
  - now rewrite H3.
Qed.

Lemma ds_map_lookup (cs : list DesignComponent) (m : gmap (list N) DesignComponent) k :
  foldl (fun m c =>
           match or_else (ds_slug c) (ds_key c) with
           | Some (k :: ks) => <[k :: ks := c]> m
           | _ => m
           end) m cs !! k
  = match List.find (fun c => bool_decide (or_else (ds_slug c) (ds_key c) = Some k)
                              && truthy k) (reverse cs) with
    | Some c => Some c
    | None => m !! k
    end.
Proof.
  revert m. induction cs as [|c cs IH]; intros m; cbn [foldl]; [reflexivity|].
  rewrite IH, reverse_cons, find_append.
  destruct (List.find _ (reverse cs)); [reflexivity|].
  cbn [List.find]. destruct (or_else (ds_slug c) (ds_key c)) as [[|x id]|] eqn:Ew.
  - destruct (decide (Some [] = Some k)) as [[= <-] | Hne].
    + now rewrite andb_false_r.
    + now rewrite bool_decide_eq_false_2.
  - destruct (decide (x :: id = k)) as [<- | Hne].
    + rewrite bool_decide_eq_true_2 by reflexivity. cbn. apply lookup_insert_eq.
    + rewrite bool_decide_eq_false_2 by congruence. cbn. now apply lookup_insert_ne.
  - now rewrite bool_decide_eq_false_2.
Qed.

(** X23. The heading shown for a slug comes from the last design system
    component registered under it (by its slug, or by its key when it has
    no slug): its name, or its type when it has no name.  It is 'Unknown
    component' when no component is registered under the slug or the
    registered one has neither. *)
Theorem component_heading_last_entry cs slug :
  component_heading cs slug
  = match List.find (fun c => bool_decide (or_else (ds_slug c) (ds_key c) = Some slug)
                              && truthy slug) (reverse cs) with
    | Some c => match or_else (ds_name c) (ds_type c) with
                | Some (x :: s) => x :: s
                | _ => lit "Unknown component"
                end
    | None => lit "Unknown component"
    end.
Proof.
  unfold component_heading, dsByKey. rewrite ds_map_lookup, lookup_empty.
  now destruct (List.find _ (reverse cs)).
Qed.

End InspectorFacts.


(** ** The request encodings *)
Module JSONFacts.
Import JS JSON.
Local Open Scope N_scope.

Lemma hex_value_digit d : d < 16 -> hex_value (hex_digit d) = Some d.
Proof.
  intros H.
  assert (Hall : forallb (fun n => match hex_value (hex_digit (N.of_nat n)) with
                                   | Some v => v =? N.of_nat n
                                   | None => false
                                   end) (seq 0 16) = true) by reflexivity.
  rewrite forallb_forall in Hall. specialize (Hall (N.to_nat d)).
  rewrite N2Nat.id in Hall.
  destruct (hex_value (hex_digit d)) as [v|].
  - f_equal. apply N.eqb_eq, Hall, in_seq. lia.
  - assert (false = true); [|discriminate]. apply Hall, in_seq. lia.
Qed.

Lemma four_digits c :
  c < 65536 ->
  (N.shiftr c 12 mod 16) * 4096 + (N.shiftr c 8 mod 16) * 256
  + (N.shiftr c 4 mod 16) * 16 + c mod 16 = c.
Proof.
  intros H. rewrite !N.shiftr_div_pow2.
  change (2 ^ 12) with 4096. change (2 ^ 8) with 256. change (2 ^ 4) with 16.
  zify. Z.to_euclidean_division_equations. lia.
Qed.

Lemma unquote_unicode_escape c rest :
  c < 65536 ->
  unquote_units (unicode_escape c ++ rest) = cons c <$> unquote_units rest.
Proof.
  intros H. unfold unicode_escape.
  change (lit "\u") with [92; 117]. cbn [app unquote_units].
  change (92 =? 92) with true. change (117 =? 117) with true. cbv iota.
  rewrite !hex_value_digit by (apply N.mod_upper_bound; discriminate).
  now rewrite four_digits.
Qed.

Lemma unquote_plain c rest :
  32 <= c -> c <> 34 -> c <> 92 ->
  unquote_units (c :: rest) = cons c <$> unquote_units rest.
Proof.
  intros H1 H2 H3. cbn [unquote_units].
  apply N.eqb_neq in H2, H3. apply N.ltb_ge in H1. now rewrite H3, H1, H2.
Qed.

Lemma unquote_quote_unit c rest :
  is_high_surrogate c = false -> is_low_surrogate c = false ->
  unquote_units (quote_unit c ++ rest) = cons c <$> unquote_units rest.
Proof.
  intros _ _. unfold quote_unit.
  destruct (c =? 8) eqn:E8; [apply N.eqb_eq in E8; subst; reflexivity|].
  destruct (c =? 9) eqn:E9; [apply N.eqb_eq in E9; subst; reflexivity|].
  destruct (c =? 10) eqn:E10; [apply N.eqb_eq in E10; subst; reflexivity|].
  destruct (c =? 12) eqn:E12; [apply N.eqb_eq in E12; subst; reflexivity|].
  destruct (c =? 13) eqn:E13; [apply N.eqb_eq in E13; subst; reflexivity|].
  destruct (c =? 34) eqn:E34; [apply N.eqb_eq in E34; subst; reflexivity|].
  destruct (c =? 92) eqn:E92; [apply N.eqb_eq in E92; subst; reflexivity|].
  destruct (c <? 32) eqn:E32.
  - apply N.ltb_lt in E32. apply unquote_unicode_escape. lia.
  - apply N.ltb_ge in E32. apply N.eqb_neq in E34, E92.
    now apply unquote_plain.
Qed.

Lemma surrogate_range c :
  is_high_surrogate c = true \/ is_low_surrogate c = true ->
  c < 65536 /\ 32 <= c /\ c <> 34 /\ c <> 92.
Proof.
  unfold is_high_surrogate, is_low_surrogate.
  intros [H | H]; apply andb_true_iff in H as [H1 H2];
    apply N.leb_le in H1, H2; lia.
Qed.

Lemma unquote_quote_upto n : forall s,
  (length s <= n)%nat -> unquote_units (quote_units s) = Some s.
Proof.
  induction n as [|n IH]; intros s Hlen.
  - destruct s; [reflexivity|cbn in Hlen; lia].
  - destruct s as [|c s]; [reflexivity|]. cbn in Hlen. cbn [quote_units].
    destruct (is_high_surrogate c) eqn:Hh.
    + destruct (surrogate_range c (or_introl Hh)) as (Hc & H32 & H34 & H92).
      destruct s as [|d s].
      * rewrite <- (app_nil_r (unicode_escape c)).
        now rewrite unquote_unicode_escape.
      * destruct (is_low_surrogate d) eqn:Hl.
        -- destruct (surrogate_range d (or_intror Hl)) as (_ & D32 & D34 & D92).
           rewrite unquote_plain, unquote_plain by assumption.
           rewrite (IH s) by (cbn in Hlen; lia). reflexivity.
        -- rewrite unquote_unicode_escape by exact Hc.
           rewrite (IH (d :: s)) by lia. reflexivity.
    + destruct (is_low_surrogate c) eqn:Hl.
      * destruct (surrogate_range c (or_intror Hl)) as (Hc & _).
        rewrite unquote_unicode_escape by exact Hc.
        rewrite (IH s) by lia. reflexivity.
      * rewrite unquote_quote_unit by assumption.
        rewrite (IH s) by lia. reflexivity.
Qed.

(** X24. The request body determines the prompt: the JSON string literal
    written for a prompt parses back to that prompt, control characters and
    lone surrogates included, so prompts with equal bodies are equal. *)
Theorem quoted_prompt_parses_back p :
  parse_string (quoteJSONString p) = Some p /\
  (forall p', Page.stringify_query p = Page.stringify_query p' -> p = p').
Proof.
  assert (Hp : forall s, parse_string (quoteJSONString s) = Some s).
  { intros s. unfold quoteJSONString, parse_string, dquote. cbn [app].
    rewrite reverse_snoc. change ((34 =? 34) && (34 =? 34)) with true. cbv iota.
    rewrite reverse_involutive. apply (unquote_quote_upto (length s)). lia. }
  split; [apply Hp|].
  intros p' H. unfold Page.stringify_query in H.
  apply app_inv_head in H. apply app_inv_head in H. apply app_inv_head in H.
  apply app_inv_tail in H.
  pose proof (Hp p) as H1. rewrite H, Hp in H1. congruence.
Qed.

End JSONFacts.

Module Base64Facts.
Import JS Base64.
Local Open Scope N_scope.

Lemma sextet_char i : i < 64 -> base64_char (sextet i) = true.
Proof.
  intros H. unfold sextet.
  assert (Hall : forallb base64_char base64_alphabet = true) by reflexivity.
  rewrite forallb_forall in Hall. apply Hall, nth_In.
  change (length base64_alphabet) with 64%nat. lia.
Qed.

Lemma lor_below a b n : a < 2 ^ n -> b < 2 ^ n -> N.lor a b < 2 ^ n.
Proof.
  intros Ha Hb. destruct (N.eq_dec (N.lor a b) 0) as [-> | Hne]; [lia|].
  apply N.log2_lt_pow2; [lia|]. rewrite N.log2_lor.
  destruct (N.eq_dec a 0) as [-> | Ha0], (N.eq_dec b 0) as [-> | Hb0].
  - now destruct Hne.
  - rewrite N.max_r by (cbn; lia). apply N.log2_lt_pow2; lia.
  - rewrite N.max_l by (cbn; lia). apply N.log2_lt_pow2; lia.
  - apply N.max_lub_lt; apply N.log2_lt_pow2; lia.
Qed.

Lemma hi_bits a : a <= 255 -> N.shiftr a 2 < 64.
Proof.
  intros H. rewrite N.shiftr_div_pow2. change (2 ^ 2) with 4.
  zify. Z.to_euclidean_division_equations. lia.
Qed.

Lemma mid_bits a b : b <= 255 -> N.lor (N.shiftl (N.land a 3) 4) (N.shiftr b 4) < 64.
Proof.
  intros H. apply (lor_below _ _ 6).
  - rewrite N.shiftl_mul_pow2. change 3 with (N.ones 2). rewrite N.land_ones.
    change (2 ^ 2) with 4. change (2 ^ 4) with 16. change (2 ^ 6) with 64.
    zify. Z.to_euclidean_division_equations. lia.
  - rewrite N.shiftr_div_pow2. change (2 ^ 4) with 16. change (2 ^ 6) with 64.
    zify. Z.to_euclidean_division_equations. lia.
Qed.

Lemma low_bits b c : c <= 255 -> N.lor (N.shiftl (N.land b 15) 2) (N.shiftr c 6) < 64.
Proof.
  intros H. apply (lor_below _ _ 6).
  - rewrite N.shiftl_mul_pow2. change 15 with (N.ones 4). rewrite N.land_ones.
    change (2 ^ 2) with 4. change (2 ^ 4) with 16. change (2 ^ 6) with 64.
    zify. Z.to_euclidean_division_equations. lia.
  - rewrite N.shiftr_div_pow2. change (2 ^ 6) with 64.
    zify. Z.to_euclidean_division_equations. lia.
Qed.

Lemma shifted_two a : N.shiftl (N.land a 3) 4 < 64.
Proof.
  rewrite N.shiftl_mul_pow2. change 3 with (N.ones 2). rewrite N.land_ones.
  change (2 ^ 2) with 4. change (2 ^ 4) with 16.
  zify. Z.to_euclidean_division_equations. lia.
Qed.

Lemma shifted_four b : N.shiftl (N.land b 15) 2 < 64.
Proof.
  rewrite N.shiftl_mul_pow2. change 15 with (N.ones 4). rewrite N.land_ones.
  change (2 ^ 2) with 4. change (2 ^ 4) with 16.
  zify. Z.to_euclidean_division_equations. lia.
Qed.

Lemma last_bits c : N.land c 63 < 64.
Proof.
  change 63 with (N.ones 6). rewrite N.land_ones. change (2 ^ 6) with 64.
  apply N.mod_upper_bound. discriminate.
Qed.

Lemma base64_upto n : forall bytes,
  (length bytes <= n)%nat -> Forall (fun b => b <= 255) bytes ->
  Forall (fun c => base64_char c = true) (base64 bytes) /\
  length (base64 bytes) = (4 * ((length bytes + 2) / 3))%nat.
Proof.
  induction n as [|n IH]; intros bytes Hlen Hb.
  - destruct bytes; [split; [constructor|reflexivity]|cbn in Hlen; lia].
  - destruct bytes as [|a [|b [|c rest]]].
    + split; [constructor|reflexivity].
    + inversion Hb as [|? ? Ha _]; subst. split; [|reflexivity].
      cbn [base64]. repeat constructor.
      * apply sextet_char, hi_bits, Ha.
      * apply sextet_char, shifted_two.
    + inversion Hb as [|? ? Ha Hb']; subst. inversion Hb' as [|? ? Hb0 _]; subst.
      split; [|reflexivity]. cbn [base64]. repeat constructor.
      * apply sextet_char, hi_bits, Ha.
      * apply sextet_char, mid_bits, Hb0.
      * apply sextet_char, shifted_four.
    + inversion Hb as [|? ? Ha Hb']; subst. inversion Hb' as [|? ? Hb0 Hb'']; subst.
      inversion Hb'' as [|? ? Hc Hr]; subst.
      destruct (IH rest) as [IH1 IH2]; [cbn in Hlen; lia|exact Hr|].
      cbn [base64]. split.
      * repeat (constructor; [first [apply sextet_char, hi_bits, Ha
                                   | apply sextet_char, mid_bits, Hb0
                                   | apply sextet_char, low_bits, Hc
                                   | apply sextet_char, last_bits]|]).
        exact IH1.
      * cbn [length]. rewrite IH2.
        replace (S (S (S (length rest))) + 2)%nat with (length rest + 2 + 1 * 3)%nat by lia.
        rewrite Nat.div_add by lia. lia.
Qed.

(** X25. Whenever the module loads, the Authorization value is either empty
    (no header is sent) or 'Basic ' followed by a token of base64
    characters whose length is a multiple of four. *)
Theorem authorization_is_a_token env cfg :
  Page.load env = Some cfg ->
  Page.auth cfg = [] \/
  exists token,
    Page.auth cfg = lit "Basic " ++ token /\
    Forall (fun c => base64_char c = true) token /\
    (length token mod 4 = 0)%nat.
Proof.
  unfold Page.load. intros H.
  destruct (otruthy _ && otruthy _); [|injection H as <-; now left].
  destruct (btoa _) as [b|] eqn:Eb; [|discriminate].
  injection H as <-. right. exists b. split; [reflexivity|].
  unfold btoa in Eb. destruct (forallb _ _) eqn:Ef; [|discriminate].
  injection Eb as <-.
  match goal with |- context [base64 ?s] =>
    destruct (base64_upto (length s) s) as [H1 H2]; [lia| |]
  end.
  - apply Forall_forall. intros c Hc. rewrite forallb_forall in Ef.
    apply N.leb_le, Ef, Hc.
  - split; [exact H1|]. rewrite H2. now rewrite Nat.mul_comm, Nat.Div0.mod_mul.
Qed.


Lemma authorization_witness :
  let env := {| Page.API_HOST := None; Page.NEXT_PUBLIC_API_HOST := None;
                Page.USERNAME := Some (lit "user"); Page.NEXT_PUBLIC_USERNAME := None;
                Page.PASSWORD := Some (lit "pa:ss"); Page.NEXT_PUBLIC_PASSWORD := None |} in
  let cfg := {| Page.apiHost := []; Page.username := Some (lit "user");
                Page.password := Some (lit "pa:ss");
                Page.auth := lit "Basic dXNlcjpwYTpzcw==" |} in
  Page.load env = Some cfg /\
  (Page.auth cfg = [] \/
   exists token, Page.auth cfg = lit "Basic " ++ token /\
                 Forall (fun c => base64_char c = true) token /\
                 (length token mod 4 = 0)%nat).
Proof.
  intros env cfg. split; [reflexivity|].
  apply (authorization_is_a_token env cfg). reflexivity.
Defined.

End Base64Facts.


(** ** The first page *)
Module URIFacts.
Import JS URI.
Local Open Scope N_scope.

Example encode_reserved :
  encodeURIComponent (lit "a b&c=d/e?") = Some (lit "a%20b%26c%3Dd%2Fe%3F").
Proof. reflexivity. Qed.

Example encode_cyrillic : encodeURIComponent [1103] = Some (lit "%D1%8F").
Proof. reflexivity. Qed.

Example encode_astral : encodeURIComponent [55357; 56832] = Some (lit "%F0%9F%98%80").
Proof. reflexivity. Qed.

Example encode_lone_surrogate : encodeURIComponent [97; 55357; 98] = None.
Proof. reflexivity. Qed.

Lemma HEX_unreserved d : d < 16 -> unreserved (HEX d) = true.
Proof.
  intros H. unfold HEX.
  assert (Hall : forallb unreserved (lit "0123456789ABCDEF") = true) by reflexivity.
  rewrite forallb_forall in Hall. apply Hall, nth_In.
  change (length (lit "0123456789ABCDEF")) with 16%nat. lia.
Qed.

Lemma percent_safe o : Forall safe (percent o).
Proof.
  unfold percent. constructor; [now right|].
  constructor; [left; apply HEX_unreserved, N.mod_upper_bound; discriminate|].
  constructor; [left; apply HEX_unreserved, N.mod_upper_bound; discriminate|].
  constructor.
Qed.

Lemma escape_safe cp : Forall safe (escape cp).
Proof.
  unfold escape. induction (utf8 cp) as [|o l IH]; cbn [flat_map]; [constructor|].
  apply Forall_app. split; [apply percent_safe|exact IH].
Qed.

(** Two units at a time. *)
Lemma encode_safe_upto n : forall s q,
  (length s <= n)%nat -> encodeURIComponent s = Some q -> Forall safe q.
Proof.
  induction n as [|n IH]; intros s q Hlen E.
  - destruct s; [|cbn in Hlen; lia]. injection E as <-. constructor.
  - destruct s as [|c s]; [injection E as <-; constructor|].
    cbn [encodeURIComponent] in E. cbn in Hlen.
    destruct (unreserved c) eqn:Hu.
    + destruct (encodeURIComponent s) as [q'|] eqn:E'; [|discriminate].
      injection E as <-. constructor; [now left|]. apply (IH s); [lia|exact E'].
    + destruct (is_high_surrogate c).
      * destruct s as [|d s]; [discriminate|]. destruct (is_low_surrogate d); [|discriminate].
        destruct (encodeURIComponent s) as [q'|] eqn:E'; [|discriminate].
        injection E as <-. apply Forall_app. split; [apply escape_safe|].
        apply (IH s); [cbn in Hlen; lia|exact E'].
      * destruct (is_low_surrogate c); [discriminate|].
        destruct (encodeURIComponent s) as [q'|] eqn:E'; [|discriminate].
        injection E as <-. apply Forall_app. split; [apply escape_safe|].
        apply (IH s); [lia|exact E'].
Qed.

Lemma encode_safe s q : encodeURIComponent s = Some q -> Forall safe q.
Proof. apply (encode_safe_upto (length s)). lia. Qed.



(** *** Decoding what was encoded *)

Example decode_reserved :
  decodeURIComponent (lit "a%20b%26c%3Dd%2Fe%3F") = Some (lit "a b&c=d/e?").
Proof. reflexivity. Qed.

Example decode_astral : decodeURIComponent (lit "%F0%9F%98%80") = Some [55357; 56832].
Proof. reflexivity. Qed.

Example decode_overlong : decodeURIComponent (lit "%C0%80") = None.
Proof. reflexivity. Qed.

Example decode_surrogate : decodeURIComponent (lit "%ED%A0%80") = None.
Proof. reflexivity. Qed.

Example decode_truncated : decodeURIComponent (lit "%E2%82") = None.
Proof. reflexivity. Qed.

Lemma unhex_HEX d : d < 16 -> unhex (HEX d) = Some d.
Proof.
  intros H.
  assert (Hall : forallb (fun n => match unhex (HEX (N.of_nat n)) with
                                   | Some v => v =? N.of_nat n
                                   | None => false
                                   end) (seq 0 16) = true) by reflexivity.
  rewrite forallb_forall in Hall. specialize (Hall (N.to_nat d)).
  rewrite N2Nat.id in Hall.
  destruct (unhex (HEX d)) as [v|].
  - f_equal. apply N.eqb_eq, Hall, in_seq. lia.
  - assert (false = true); [|discriminate]. apply Hall, in_seq. lia.
Qed.

Lemma items_percent o rest :
  o < 256 -> items (percent o ++ rest) = cons (Octet o) <$> items rest.
Proof.
  intros H. unfold percent. cbn [app items]. change (37 =? 37) with true. cbv iota.
  rewrite !unhex_HEX by (apply N.mod_upper_bound; discriminate).
  replace (16 * ((o / 16) mod 16) + o mod 16) with o; [reflexivity|].
  zify. Z.to_euclidean_division_equations. lia.
Qed.

Lemma items_percents os rest :
  Forall (fun o => o < 256) os ->
  items (flat_map percent os ++ rest) = app (Octet <$> os) <$> items rest.
Proof.
  induction 1 as [|o os Ho _ IH]; cbn [flat_map fmap list_fmap app].
  - destruct (items rest); reflexivity.
  - rewrite <- app_assoc, items_percent, IH by exact Ho.
    destruct (items rest); reflexivity.
Qed.

Lemma items_literal c rest :
  unreserved c = true -> items (c :: rest) = cons (Literal c) <$> items rest.
Proof.
  intros H. cbn [items]. destruct (c =? 37) eqn:E; [|reflexivity].
  apply N.eqb_eq in E. subst. discriminate.
Qed.

(** The bit operations of [utf8] as arithmetic. *)
Lemma lor_lead lead width x :
  In (lead, width) [(128, 64); (192, 32); (224, 16); (240, 8)] ->
  x < width -> N.lor lead x = lead + x.
Proof.
  intros Hin Hx.
  assert (Hall : forallb (fun p : N * N =>
            forallb (fun n => N.lor (fst p) (N.of_nat n) =? fst p + N.of_nat n)
                    (seq 0 (N.to_nat (snd p))))
            [(128, 64); (192, 32); (224, 16); (240, 8)] = true) by reflexivity.
  rewrite forallb_forall in Hall. specialize (Hall _ Hin). cbn [fst snd] in Hall.
  rewrite forallb_forall in Hall. specialize (Hall (N.to_nat x)).
  rewrite N2Nat.id in Hall. apply N.eqb_eq, Hall, in_seq. lia.
Qed.

Lemma low_six x : N.land x 63 = x mod 64.
Proof. change 63 with (N.ones 6). now rewrite N.land_ones. Qed.

Lemma utf8_arith cp :
  cp < 2097152 ->
  utf8 cp
  = if cp <? 128 then [cp]
    else if cp <? 2048 then [192 + cp / 64; 128 + cp mod 64]
    else if cp <? 65536 then
      [224 + cp / 4096; 128 + (cp / 64) mod 64; 128 + cp mod 64]
    else
      [240 + cp / 262144; 128 + (cp / 4096) mod 64; 128 + (cp / 64) mod 64;
       128 + cp mod 64].
Proof.
  intros H. unfold utf8. rewrite !low_six, !N.shiftr_div_pow2.
  change (2 ^ 6) with 64. change (2 ^ 12) with 4096. change (2 ^ 18) with 262144.
  assert (H64 : forall x, N.lor 128 (x mod 64) = 128 + x mod 64).
  { intros x. apply (lor_lead 128 64); [now left|]. apply N.mod_upper_bound. discriminate. }
  rewrite !H64.
  destruct (cp <? 128) eqn:E1; [reflexivity|].
  destruct (cp <? 2048) eqn:E2.
  { apply N.ltb_lt in E2. rewrite (lor_lead 192 32); [reflexivity|right; now left|].
    zify. Z.to_euclidean_division_equations. lia. }
  destruct (cp <? 65536) eqn:E3.
  { apply N.ltb_lt in E3. rewrite (lor_lead 224 16); [reflexivity|right; right; now left|].
    zify. Z.to_euclidean_division_equations. lia. }
  rewrite (lor_lead 240 8); [reflexivity|right; right; right; now left|].
  zify. Z.to_euclidean_division_equations. lia.
Qed.

Lemma utf8_octets cp : cp < 2097152 -> Forall (fun o => o < 256) (utf8 cp).
Proof.
  intros H. rewrite utf8_arith by exact H.
  destruct (cp <? 128) eqn:E1; [apply N.ltb_lt in E1; repeat constructor; lia|].
  destruct (cp <? 2048) eqn:E2.
  { apply N.ltb_lt in E2. repeat constructor; zify; Z.to_euclidean_division_equations; lia. }
  destruct (cp <? 65536) eqn:E3.
  { apply N.ltb_lt in E3. repeat constructor; zify; Z.to_euclidean_division_equations; lia. }
  repeat constructor; zify; Z.to_euclidean_division_equations; lia.
Qed.

Ltac holds := rewrite ?andb_true_iff, ?negb_true_iff, ?andb_false_iff,
                ?N.leb_le, ?N.ltb_lt, ?N.leb_gt, ?N.ltb_ge;
              zify; Z.to_euclidean_division_equations; lia.

(** The octets of a code point decode to it. *)
Lemma decode_utf8 cp rest :
  cp < 1114112 -> ~ (55296 <= cp <= 57343) ->
  decode_items ((Octet <$> utf8 cp) ++ rest) = app (units cp) <$> decode_items rest.
Proof.
  intros H Hs. rewrite utf8_arith by holds.
  destruct (cp <? 128) eqn:E1.
  { cbn [fmap list_fmap app decode_items]. rewrite E1. unfold units.
    apply N.ltb_lt in E1. replace (cp <? 65536) with true by (symmetry; holds).
    reflexivity. }
  apply N.ltb_ge in E1.
  destruct (cp <? 2048) eqn:E2.
  { apply N.ltb_lt in E2. cbn [fmap list_fmap app decode_items].
    replace (192 + cp / 64 <? 128) with false by (symmetry; holds).
    replace ((192 <=? 192 + cp / 64) && (192 + cp / 64 <? 224)) with true
      by (symmetry; holds).
    replace (192 + cp / 64 - 192) with (cp / 64) by holds.
    replace (128 + cp mod 64 - 128) with (cp mod 64) by holds.
    replace (cp / 64 * 64 + cp mod 64) with cp by holds.
    unfold continuation.
    replace ((128 <=? 128 + cp mod 64) && (128 + cp mod 64 <=? 191) && (128 <=? cp))
      with true by (symmetry; holds).
    reflexivity. }
  apply N.ltb_ge in E2.
  destruct (cp <? 65536) eqn:E3.
  { apply N.ltb_lt in E3. cbn [fmap list_fmap app decode_items].
    replace (224 + cp / 4096 <? 128) with false by (symmetry; holds).
    replace ((192 <=? 224 + cp / 4096) && (224 + cp / 4096 <? 224)) with false
      by (symmetry; holds).
    replace ((224 <=? 224 + cp / 4096) && (224 + cp / 4096 <? 240)) with true
      by (symmetry; holds).
    replace (224 + cp / 4096 - 224) with (cp / 4096) by holds.
    replace (128 + (cp / 64) mod 64 - 128) with ((cp / 64) mod 64) by holds.
    replace (128 + cp mod 64 - 128) with (cp mod 64) by holds.
    replace (cp / 4096 * 4096 + (cp / 64) mod 64 * 64 + cp mod 64) with cp by holds.
    unfold continuation.
    replace ((128 <=? 128 + (cp / 64) mod 64) && (128 + (cp / 64) mod 64 <=? 191)
             && ((128 <=? 128 + cp mod 64) && (128 + cp mod 64 <=? 191))
             && (2048 <=? cp) && negb ((55296 <=? cp) && (cp <=? 57343)))
      with true by (symmetry; holds).
    reflexivity. }
  apply N.ltb_ge in E3. cbn [fmap list_fmap app decode_items].
  replace (240 + cp / 262144 <? 128) with false by (symmetry; holds).
  replace ((192 <=? 240 + cp / 262144) && (240 + cp / 262144 <? 224)) with false
    by (symmetry; holds).
  replace ((224 <=? 240 + cp / 262144) && (240 + cp / 262144 <? 240)) with false
    by (symmetry; holds).
  replace ((240 <=? 240 + cp / 262144) && (240 + cp / 262144 <? 248)) with true
    by (symmetry; holds).
  replace (240 + cp / 262144 - 240) with (cp / 262144) by holds.
  replace (128 + (cp / 4096) mod 64 - 128) with ((cp / 4096) mod 64) by holds.
  replace (128 + (cp / 64) mod 64 - 128) with ((cp / 64) mod 64) by holds.
  replace (128 + cp mod 64 - 128) with (cp mod 64) by holds.
  replace (cp / 262144 * 262144 + (cp / 4096) mod 64 * 4096
           + (cp / 64) mod 64 * 64 + cp mod 64) with cp by holds.
  unfold continuation.
  replace ((128 <=? 128 + (cp / 4096) mod 64) && (128 + (cp / 4096) mod 64 <=? 191)
           && ((128 <=? 128 + (cp / 64) mod 64) && (128 + (cp / 64) mod 64 <=? 191))
           && ((128 <=? 128 + cp mod 64) && (128 + cp mod 64 <=? 191))
           && (65536 <=? cp) && (cp <=? 1114111))
    with true by (symmetry; holds).
  reflexivity.
Qed.

Lemma units_pair hi lo :
  is_high_surrogate hi = true -> is_low_surrogate lo = true ->
  units (pair_code_point hi lo) = [hi; lo] /\
  pair_code_point hi lo < 1114112 /\ 65536 <= pair_code_point hi lo.
Proof.
  unfold is_high_surrogate, is_low_surrogate, pair_code_point, units.
  intros Hh Hl. apply andb_true_iff in Hh as [H1 H2], Hl as [L1 L2].
  apply N.leb_le in H1, H2, L1, L2. rewrite N.shiftl_mul_pow2.
  change (2 ^ 10) with 1024.
  replace (65536 + (hi - 55296) * 1024 + (lo - 56320) <? 65536) with false
    by (symmetry; apply N.ltb_ge; lia).
  split; [|lia]. f_equal; [|f_equal]; zify; Z.to_euclidean_division_equations; lia.
Qed.

Lemma not_surrogate c :
  is_high_surrogate c = false -> is_low_surrogate c = false ->
  ~ (55296 <= c <= 57343).
Proof.
  unfold is_high_surrogate, is_low_surrogate. intros Hh Hl [H1 H2].
  apply andb_false_iff in Hh as [Hh | Hh], Hl as [Hl | Hl];
    rewrite ?N.leb_gt in *; lia.
Qed.

(** Two units at a time: what [encodeURIComponent] writes is read back. *)
Lemma decode_encode_upto n : forall s q,
  (length s <= n)%nat -> code_units s -> encodeURIComponent s = Some q ->
  exists l, items q = Some l /\ decode_items l = Some s.
Proof.
  induction n as [|n IH]; intros s q Hlen Hu E.
  - destruct s; [|cbn in Hlen; lia]. injection E as <-. now exists [].
  - destruct s as [|c s]; [injection E as <-; now exists []|].
    cbn [encodeURIComponent] in E. cbn in Hlen.
    inversion Hu as [|? ? Hc Hs]; subst.
    destruct (unreserved c) eqn:Hun.
    + destruct (encodeURIComponent s) as [q'|] eqn:E'; [|discriminate].
      injection E as <-. destruct (IH s q') as (l & Hi & Hd); [lia|exact Hs|exact E'|].
      exists (Literal c :: l). rewrite items_literal, Hi by exact Hun.
      split; [reflexivity|]. cbn [decode_items]. now rewrite Hd.
    + destruct (is_high_surrogate c) eqn:Hh.
      * destruct s as [|d s]; [discriminate|].
        destruct (is_low_surrogate d) eqn:Hl; [|discriminate].
        destruct (encodeURIComponent s) as [q'|] eqn:E'; [|discriminate].
        injection E as <-. inversion Hs as [|? ? _ Hs']; subst.
        destruct (IH s q') as (l & Hi & Hd); [cbn in Hlen; lia|exact Hs'|exact E'|].
        destruct (units_pair c d Hh Hl) as (Hp & Hlt & Hge).
        exists ((Octet <$> utf8 (pair_code_point c d)) ++ l). unfold escape.
        rewrite items_percents, Hi by (apply utf8_octets; lia).
        split; [reflexivity|]. rewrite decode_utf8, Hd, Hp by lia. reflexivity.
      * destruct (is_low_surrogate c) eqn:Hl; [discriminate|].
        destruct (encodeURIComponent s) as [q'|] eqn:E'; [|discriminate].
        injection E as <-. destruct (IH s q') as (l & Hi & Hd); [lia|exact Hs|exact E'|].
        exists ((Octet <$> utf8 c) ++ l). unfold escape.
        rewrite items_percents, Hi by (apply utf8_octets; lia).
        split; [reflexivity|].
        rewrite decode_utf8, Hd; [|lia|now apply not_surrogate].
        unfold units. apply N.ltb_lt in Hc. now rewrite Hc.
Qed.

Lemma decode_encode s q :
  code_units s -> encodeURIComponent s = Some q -> decodeURIComponent q = Some s.
Proof.
  intros Hu E. destruct (decode_encode_upto (length s) s q) as (l & Hi & Hd); auto.
  unfold decodeURIComponent. now rewrite Hi.
Qed.

End URIFacts.

Module LegacyFacts.
Import JS URI URIFacts Legacy.
Local Open Scope N_scope.

(** X26. The first page sends a GET to the host, '/api/search?query=' and
    the escaped prompt, as [encodeURIComponent] writes it.  The escaped
    part holds only unreserved characters and percent signs, so no prompt
    can add a parameter, a fragment or a space to the URL; and it decodes
    back to the prompt, so two prompts sent to the same URL are equal. *)
Theorem legacy_query_is_escaped cfg p req :
  request cfg p = Some req ->
  method req = lit "GET" /\
  exists q, url req = Page.apiHost cfg ++ lit "/api/search?query=" ++ q /\
            Forall (fun c => unreserved c = true \/ c = 37) q /\
            Forall (fun c => c <> 38 /\ c <> 61 /\ c <> 35 /\ c <> 32 /\ c <> 43 /\ c <> 63) q /\
            encodeURIComponent p = Some q /\
            (code_units p ->
             decodeURIComponent q = Some p /\
             forall p' req', code_units p' -> request cfg p' = Some req' ->
                             url req' = url req -> p' = p).
Proof.
  unfold request. destruct (encodeURIComponent p) as [q|] eqn:E; [|discriminate].
  intros Hr. apply (inj Some) in Hr. subst req. cbn [url method].
  split; [reflexivity|]. exists q. split; [reflexivity|].
  pose proof (encode_safe p q E) as Hs. split; [exact Hs|].
  split.
  { eapply Forall_impl; [|exact Hs]. intros c [Hc | ->]; [|repeat split; discriminate].
    repeat split; intros ->; discriminate. }
  split; [reflexivity|]. intros Hu. pose proof (decode_encode p q Hu E) as Hd.
  split; [exact Hd|]. intros p' req' Hu' Hr' Hurl.
  destruct (encodeURIComponent p') as [q'|] eqn:E'; [|discriminate].
  apply (inj Some) in Hr'. rewrite <- Hr' in Hurl. cbn [url] in Hurl.
  apply app_inv_head in Hurl. apply app_inv_head in Hurl. subst q'.
  pose proof (decode_encode p' q Hu' E') as Hd'. congruence.
Qed.



Lemma legacy_query_witness :
  let cfg := {| Page.apiHost := lit "https://yana.example"; Page.username := None;
                Page.password := None; Page.auth := [] |} in
  let p := lit "a b&c" ++ [1103; 55357; 56832] in
  let req := {| url := lit "https://yana.example/api/search?query=a%20b%26c%D1%8F%F0%9F%98%80";
                method := lit "GET"; headers := [] |} in
  request cfg p = Some req /\ code_units p /\
  decodeURIComponent (lit "a%20b%26c%D1%8F%F0%9F%98%80") = Some p.
Proof.
  intros cfg p req. split; [reflexivity|].
  assert (Hu : code_units p) by (repeat constructor).
  split; [exact Hu|].
  destruct (legacy_query_is_escaped cfg p req eq_refl) as (_ & q & Hurl & _ & _ & He & H).
  injection He as <-. exact (proj1 (H Hu)).
Defined.


End LegacyFacts.
